(** * MajsoulUID: the Majsoul protocol client ([majs_notify/majsoul.py])

    A shallow embedding of [MajsoulConnection] and [MajsoulManager]:
    the read-dispatch loop and its correlation table, the notification
    handlers over the friend registry, the login sequence, the parsing and
    decoding done by [fetchLogs], and the session manager.

    Python values are modelled as the code uses them: [int] as [Z], [str]
    as [string], [bytes] as [list byte], [dict] as [gmap], [list] as [list].
    A raising computation returns [Err e]; [async def] bodies are terms of
    the resumption type [async], whose [Await] nodes are the suspension
    points of the coroutine. *)

From Stdlib Require Import ZArith String Ascii List Bool Lia.
From Stdlib.Strings Require Import Byte.
From stdpp Require Import base option list gmap strings pretty.

Import ListNotations.
#[local] Set Warnings "-clear-no-such-hyp".
Local Open Scope string_scope.
Local Open Scope Z_scope.

(** ** Python runtime: exceptions and built-ins *)

Inductive exn : Type :=
| IndexError
| KeyError
| AttributeError
| TypeError
| ValueError (msg : string)
| ConnectionError (msg : string)
| AssertionError
| FileNotFoundError
| JSONDecodeError
| UnicodeDecodeError
| PermissionError.

Inductive result (A : Type) : Type :=
| Ok (a : A)
| Err (e : exn).
Arguments Ok {A} a.
Arguments Err {A} e.

#[global] Instance result_ret : MRet result := fun _ a => Ok a.
#[global] Instance result_bind : MBind result := fun _ _ k r =>
  match r with
  | Ok a => k a
  | Err e => Err e
  end.

(** A [for] loop that appends [f x] for each element and stops at the
    first exception. *)
Fixpoint rmap {A B : Type} (f : A -> result B) (l : list A) : result (list B) :=
  match l with
  | [] => Ok []
  | x :: l' =>
      match f x with
      | Err e => Err e
      | Ok y =>
          match rmap f l' with
          | Err e => Err e
          | Ok ys => Ok (y :: ys)
          end
      end
  end.

(** [s.split(sep)] for a one-character separator: never the empty list. *)
Fixpoint split (sep : ascii) (s : string) : list string :=
  match s with
  | EmptyString => [EmptyString]
  | String c s' =>
      if Ascii.eqb c sep then EmptyString :: split sep s'
      else match split sep s' with
           | [] => [String c EmptyString]
           | w :: ws => String c w :: ws
           end
  end.

(** [seq[i]] for [i >= 0]. *)
Definition index {A : Type} (l : list A) (i : nat) : result A :=
  match l !! i with
  | Some x => Ok x
  | None => Err IndexError
  end.

(** ** [int(s)] *)

(** A [str] is held as its UTF-8 encoding; [code_points] gives its
    characters back, and nothing for bytes that encode no [str]. *)
Definition byte_value (c : ascii) : Z := Z.of_N (N_of_ascii c).

Definition continuation (c : ascii) : option Z :=
  let b := byte_value c in
  if (128 <=? b) && (b <=? 191) then Some (b - 128) else None.

Fixpoint code_points (s : string) : option (list Z) :=
  match s with
  | EmptyString => Some []
  | String c0 s1 =>
      let b0 := byte_value c0 in
      if b0 <? 128 then cons b0 <$> code_points s1
      else if (194 <=? b0) && (b0 <=? 223) then
        match s1 with
        | String c1 s2 =>
            x1 ← continuation c1;
            cons ((b0 - 192) * 64 + x1) <$> code_points s2
        | _ => None
        end
      else if (224 <=? b0) && (b0 <=? 239) then
        match s1 with
        | String c1 (String c2 s3) =>
            x1 ← continuation c1;
            x2 ← continuation c2;
            let ch := ((b0 - 224) * 64 + x1) * 64 + x2 in
            if (2048 <=? ch) && negb ((55296 <=? ch) && (ch <=? 57343))
            then cons ch <$> code_points s3 else None
        | _ => None
        end
      else if (240 <=? b0) && (b0 <=? 244) then
        match s1 with
        | String c1 (String c2 (String c3 s4)) =>
            x1 ← continuation c1;
            x2 ← continuation c2;
            x3 ← continuation c3;
            let ch := (((b0 - 240) * 64 + x1) * 64 + x2) * 64 + x3 in
            if (65536 <=? ch) && (ch <=? 1114111)
            then cons ch <$> code_points s4 else None
        | _ => None
        end
      else None
  end.

(** [Py_UNICODE_ISSPACE]: the characters [str.isspace] accepts. *)
Definition Py_UNICODE_ISSPACE (ch : Z) : bool :=
  bool_decide (ch ∈ [9; 10; 11; 12; 13; 28; 29; 30; 31; 32; 133; 160; 5760;
                     8192; 8193; 8194; 8195; 8196; 8197; 8198; 8199; 8200;
                     8201; 8202; 8232; 8233; 8239; 8287; 12288]).

(** The characters with decimal value zero (Unicode 14.0, the database of
    CPython 3.11); the nine characters after each are the digits one to
    nine of the same script. *)
Definition decimal_zeros : list Z :=
  [48; 1632; 1776; 1984; 2406; 2534; 2662; 2790; 2918; 3046; 3174; 3302;
   3430; 3558; 3664; 3792; 3872; 4160; 4240; 6112; 6160; 6470; 6608; 6784;
   6800; 6992; 7088; 7232; 7248; 42528; 43216; 43264; 43472; 43504; 43600;
   44016; 65296; 66720; 68912; 69734; 69872; 69942; 70096; 70384; 70736;
   70864; 71248; 71360; 71472; 71904; 72016; 72784; 73040; 73120; 92768;
   92864; 93008; 120782; 120792; 120802; 120812; 120822; 123200; 123632;
   125264; 130032].

(** [Py_UNICODE_TODECIMAL] *)
Definition Py_UNICODE_TODECIMAL (ch : Z) : option Z :=
  zero ← List.find (fun zero => (zero <=? ch) && (ch <=? zero + 9)) decimal_zeros;
  Some (ch - zero).

(** [_PyUnicode_TransformDecimalAndSpaceToASCII], character by character:
    ASCII stays, other white space becomes a space, other decimal digits
    become ASCII digits, and anything else becomes a question mark (which
    no literal contains). *)
Definition to_ascii (ch : Z) : Z :=
  if ch <? 127 then ch
  else if Py_UNICODE_ISSPACE ch then 32
  else match Py_UNICODE_TODECIMAL ch with
       | Some decimal => 48 + decimal
       | None => 63
       end.

(** [Py_ISSPACE], the white space of the parser: tab to carriage return
    and the space.  The separators 28 to 31 are white space for
    [str.isspace] and [str.strip], but they are ASCII, so the
    transformation leaves them, and [Py_ISSPACE] does not accept them:
    [int] of a string that holds one raises [ValueError]. *)
Definition Py_ISSPACE (ch : Z) : bool := ((9 <=? ch) && (ch <=? 13)) || (ch =? 32).

Fixpoint skip_spaces (str : list Z) : list Z :=
  match str with
  | ch :: str' => if Py_ISSPACE ch then skip_spaces str' else str
  | [] => []
  end.

(** The scan over digits and underscores: the value, the number of
    digits and what follows; nothing for a doubled or a trailing
    underscore. *)
Fixpoint scan_digits (prev_underscore : bool) (z digits : Z) (str : list Z)
  : option (Z * Z * list Z) :=
  match str with
  | ch :: str' =>
      if ch =? 95 then
        if prev_underscore then None else scan_digits true z digits str'
      else if (48 <=? ch) && (ch <=? 57) then
        scan_digits false (10 * z + (ch - 48)) (digits + 1) str'
      else if prev_underscore then None else Some (z, digits, str)
  | [] => if prev_underscore then None else Some (z, digits, [])
  end.

(** [sys.get_int_max_str_digits()], as the interpreter starts; the sources
    do not change it. *)
Definition int_max_str_digits : Z := 4300.

(** [int(s)] for a [str] (CPython 3.11, [PyLong_FromString] with base 10):
    white space around the literal is dropped, one sign is allowed, the
    digits may be of any script and may be separated by single
    underscores, and a literal of more than [int_max_str_digits] digits is
    refused.  The messages are those of CPython without the value. *)
Definition py_int (s : string) : result Z :=
  let invalid := Err (ValueError "invalid literal for int() with base 10") in
  match code_points s with
  | None => invalid
  | Some u =>
      let str := skip_spaces (to_ascii <$> u) in
      let '(negative, str) :=
        match str with
        | ch :: str' =>
            if ch =? 43 then (false, str')
            else if ch =? 45 then (true, str')
            else (false, str)
        | [] => (false, str)
        end in
      match str with
      | [] => invalid
      | ch :: _ =>
          if ch =? 95 then invalid
          else
            match scan_digits false 0 0 str with
            | None => invalid
            | Some (z, digits, str') =>
                if int_max_str_digits <? digits
                then Err (ValueError
                            "Exceeds the limit (4300 digits) for integer string conversion")
                else if digits =? 0 then invalid
                else
                  match skip_spaces str' with
                  | [] => Ok (if negative then - z else z)
                  | _ :: _ => invalid
                  end
            end
      end
  end.

Definition bytes : Type := list byte.

(** ** [fetchLogs]: the composite match identifier and the action list *)

Record Wrapper : Type := { wrapper_name : string; wrapper_data : bytes }.

Record GameAction : Type := {
  action_passed : Z;
  action_type : Z;
  action_result : bytes
}.

Record GameDetailRecords : Type := {
  records_version : Z;
  records : list bytes;
  actions : list GameAction
}.

Section FetchLogs.

(** [decode_log_id] and [decode_account_id] come from
    [utils/api/remote.py] and the message classes from [lib/lq.py];
    neither file is part of the sources, so they are parameters here. *)
Variable decode_log_id : string -> string.
Variable decode_account_id : Z -> Z.

Variable lq_message : Type.
(** [liblq.Wrapper().parse(b)] *)
Variable Wrapper_parse : bytes -> result Wrapper.
(** [getattr(liblq, name)().parse(b)] *)
Variable lq_parse : string -> bytes -> result lq_message.

Record MjsLogItem : Type := { item_name : string; item_data : lq_message }.

(** Lines 509-520 of [fetchLogs]: the log id sent to the service and the
    target account id, if any. *)
Definition fetchLogs_ids (game_id : string) : result (string * option Z) :=
  let seps := split "_" game_id in
   log_id ← index seps 0;
   let log_id :=
     if (3 <=? length seps)%nat &&
        (match seps !! 2%nat with Some s => String.eqb s "2" | None => false end)
     then decode_log_id log_id else log_id in
   target_id ←
     (if (2 <=? length seps)%nat then
        seg ← index seps 1;
        match seg with
        | EmptyString => Err IndexError
        | String c rest =>
            if Ascii.eqb c "a" then
              n ← py_int rest; Ok (Some (decode_account_id n))
            else
              n ← py_int seg; Ok (Some n)
        end
      else Ok None);
   Ok (log_id, target_id).

(** The body shared by both loops: parse the wrapper, take the third
    dot-separated component of its name, parse the data as that message. *)
Definition unwrap (value : bytes) : result MjsLogItem :=
  raw ← Wrapper_parse value;
   name ← index (split "." (wrapper_name raw)) 2;
   msg ← lq_parse name (wrapper_data raw);
   Ok {| item_name := name; item_data := msg |}.

(** [action.result and len(action.result) > 0] *)
Definition has_result (a : GameAction) : bool :=
  match action_result a with
  | [] => false
  | _ :: _ => (0 <? length (action_result a))%nat
  end.

(** Lines 536-551 of [fetchLogs]. *)
Definition fetchLogs_action_list (payload : GameDetailRecords)
  : result (list MjsLogItem) :=
  if (records_version payload <? 210715) && (0 <? length (records payload))%nat
  then rmap unwrap (records payload)
  else rmap (fun a => unwrap (action_result a))
            (List.filter has_result (actions payload)).

End FetchLogs.

Arguments item_name {lq_message} _.
Arguments item_data {lq_message} _.

(** ** Messages of the service *)

(** Modelled from the spec: [lib/lq.py] (the generated message classes) is
    not part of the sources.  The records keep the fields the client reads:
    a friend has an account id, a nickname, an online flag, two rank tracks
    {id, score} and a current-match descriptor (match id, category, mode
    id).  A descriptor is a message object; it counts as absent (falsy)
    when every field has its default value. *)
Module liblq.

Record AccountLevel : Type := { id : Z; score : Z }.

Record GameMetaData : Type := { mode_id : Z }.

Record AccountPlayingGame : Type := {
  game_uuid : string;
  category : Z;
  meta : GameMetaData
}.

Record AccountActiveState : Type := {
  is_online : bool;
  playing : AccountPlayingGame
}.

Record PlayerBaseView : Type := {
  account_id : Z;
  nickname : string;
  level : AccountLevel;
  level3 : AccountLevel
}.

Record Friend : Type := { base : PlayerBaseView; state : AccountActiveState }.

(** Truth value of a descriptor in [not active_state.playing] and
    [friend.playing]. *)
Definition message_bool (p : AccountPlayingGame) : bool :=
  negb (String.eqb (game_uuid p) "" && (category p =? 0)
        && (mode_id (meta p) =? 0)).

Definition no_game : AccountPlayingGame :=
  {| game_uuid := ""; category := 0; meta := {| mode_id := 0 |} |}.

(** The decoded payloads the client reads, by message class. *)
Inductive payload : Type :=
| ResCommon (error_code : Z)
| ResOauth2Check (has_account : bool)
| ResLogin (account_id : Z) (nickname : string) (error_code : Z)
| ResMultiAccountBrief (error_code : Z) (players : list PlayerBaseView)
| NotifyFriendStateChange (target_id : Z) (active_state : AccountActiveState)
| NotifyFriendViewChange (target_id : Z) (base : PlayerBaseView)
| NotifyNewFriendApply (account_id : Z)
| NotifyFriendChange (account_id : Z) (type : Z) (friend : Friend)
| NotifyAnotherLogin
| OtherMessage.

End liblq.

(** ** [MajsoulFriend] *)

(** Modelled from the spec: [majsoul_friend.py] is not part of the sources.
    A stored friend is built from the service's friend message;
    [change_state] replaces the stored activity state with the snapshot of
    the notification, [change_base] the stored profile. *)
Module MajsoulFriend.

Record t : Type := {
  account_id : Z;
  nickname : string;
  is_online : bool;
  playing : liblq.AccountPlayingGame;
  level : liblq.AccountLevel;
  level3 : liblq.AccountLevel
}.

Definition init (f : liblq.Friend) : t :=
  {| account_id := liblq.account_id (liblq.base f);
     nickname := liblq.nickname (liblq.base f);
     is_online := liblq.is_online (liblq.state f);
     playing := liblq.playing (liblq.state f);
     level := liblq.level (liblq.base f);
     level3 := liblq.level3 (liblq.base f) |}.

Definition change_state (f : t) (s : liblq.AccountActiveState) : t :=
  {| account_id := account_id f;
     nickname := nickname f;
     is_online := liblq.is_online s;
     playing := liblq.playing s;
     level := level f;
     level3 := level3 f |}.

Definition change_base (f : t) (b : liblq.PlayerBaseView) : t :=
  {| account_id := account_id f;
     nickname := liblq.nickname b;
     is_online := is_online f;
     playing := playing f;
     level := liblq.level b;
     level3 := liblq.level3 b |}.

(** The activity state a stored friend carries. *)
Definition state (f : t) : liblq.AccountActiveState :=
  {| liblq.is_online := is_online f; liblq.playing := playing f |}.

End MajsoulFriend.

(** ** The connection object and its world *)

(** Modelled from the spec: [codec.py] is not part of the sources.  Byte 0
    of a frame is a kind tag distinguishing the three kinds. *)
Inductive MsgType : Type := NOTIFY | REQUEST | RESPONSE.

#[global] Instance MsgType_eq_dec : EqDecision MsgType.
Proof. solve_decision. Defined.

Record MajsoulDecodedMessage : Type := {
  msg_type : MsgType;
  req_index : Z;
  method_name : string;
  payload : liblq.payload
}.

(** A request payload (a Python dict literal). *)
#[local] Unset Elimination Schemes.
Inductive pyval : Type :=
| PInt (n : Z)
| PStr (s : string)
| PBool (b : bool)
| PList (l : list pyval)
| PDict (d : list (string * pyval)).
#[local] Set Elimination Schemes.

Record request : Type := {
  request_index : Z;
  request_method : string;
  request_payload : pyval
}.

(** A JSON value as [json.load] returns it: [None], a [bool], an [int], a
    [float] (by its literal), a [str], a [list] or a [dict]. *)
#[local] Unset Elimination Schemes.
Inductive json : Type :=
| JNull
| JBool (b : bool)
| JInt (n : Z)
| JFloat (literal : string)
| JString (s : string)
| JArray (items : list json)
| JObject (members : gmap string json).
#[local] Set Elimination Schemes.

(** The file [game_record.json] as [open] and [json.load] see it: reading
    it raises an exception ([FileNotFoundError] when there is no file,
    [PermissionError], [UnicodeDecodeError] for bytes that are not UTF-8,
    [json.JSONDecodeError] for text that is not JSON, ...) or gives the
    value of the document.  Writing replaces what the file holds. *)
Inductive file : Type :=
| Raises (e : exn)
| Holds (v : json).

(** No such file; a file that is not a JSON document; a file that holds a
    JSON object. *)
Definition Missing : file := Raises FileNotFoundError.
Definition Unparsable : file := Raises JSONDecodeError.
Definition Object (game_record : gmap string json) : file :=
  Holds (JObject game_record).

(** The attributes of a [MajsoulConnection].  [_ws] is [None] or the
    handle of the transport, [_req_events] maps an index to its event's
    flag, [codec_index] is [self._codec.index], [bg_tasks] holds the
    handles of the background tasks. *)
Record MajsoulConnection : Type := {
  _ws : option nat;
  _req_events : gmap Z bool;
  _res : gmap Z MajsoulDecodedMessage;
  codec_index : Z;
  clientVersionString : string;
  account_id : Z;
  nick_name : string;
  friends : list MajsoulFriend.t;
  friend_apply_list : list Z;
  bg_tasks : list nat
}.

Record world : Type := {
  self : MajsoulConnection;
  game_record_json : file
}.

Definition with_correlation (ev : gmap Z bool) (rs : gmap Z MajsoulDecodedMessage)
    (c : MajsoulConnection) : MajsoulConnection :=
  {| _ws := _ws c; _req_events := ev; _res := rs;
     codec_index := codec_index c;
     clientVersionString := clientVersionString c; account_id := account_id c;
     nick_name := nick_name c; friends := friends c;
     friend_apply_list := friend_apply_list c; bg_tasks := bg_tasks c |}.

Definition with_codec_index (i : Z) (c : MajsoulConnection) : MajsoulConnection :=
  {| _ws := _ws c; _req_events := _req_events c; _res := _res c;
     codec_index := i;
     clientVersionString := clientVersionString c; account_id := account_id c;
     nick_name := nick_name c; friends := friends c;
     friend_apply_list := friend_apply_list c; bg_tasks := bg_tasks c |}.

Definition with_account (a : Z) (n : string) (c : MajsoulConnection)
    : MajsoulConnection :=
  {| _ws := _ws c; _req_events := _req_events c; _res := _res c;
     codec_index := codec_index c;
     clientVersionString := clientVersionString c; account_id := a;
     nick_name := n; friends := friends c;
     friend_apply_list := friend_apply_list c; bg_tasks := bg_tasks c |}.

Definition with_friends (fs : list MajsoulFriend.t) (c : MajsoulConnection)
    : MajsoulConnection :=
  {| _ws := _ws c; _req_events := _req_events c; _res := _res c;
     codec_index := codec_index c;
     clientVersionString := clientVersionString c; account_id := account_id c;
     nick_name := nick_name c; friends := fs;
     friend_apply_list := friend_apply_list c; bg_tasks := bg_tasks c |}.

Definition with_friend_apply_list (l : list Z) (c : MajsoulConnection)
    : MajsoulConnection :=
  {| _ws := _ws c; _req_events := _req_events c; _res := _res c;
     codec_index := codec_index c;
     clientVersionString := clientVersionString c; account_id := account_id c;
     nick_name := nick_name c; friends := friends c;
     friend_apply_list := l; bg_tasks := bg_tasks c |}.

Definition on_self (f : MajsoulConnection -> MajsoulConnection) (w : world) : world :=
  {| self := f (self w); game_record_json := game_record_json w |}.

Definition with_file (f : file) (w : world) : world :=
  {| self := self w; game_record_json := f |}.

(** ** Coroutines *)

(** What a coroutine is suspended on. *)
Inductive wait : Type :=
| EventWait (idx : Z)
| Sleep (secs : Z)
| WsSend (req : request)
| SendMeta (msg : string)
| SendMsgToUser (target_user : string) (msg : string).

(** The body of an [async def] of the connection: it reads and writes the
    world between suspension points and ends by returning or raising. *)
Inductive async (A : Type) : Type :=
| Return (a : A)
| Raise (e : exn)
| Get (k : world -> async A)
| Put (w : world) (k : async A)
| Await (on : wait) (k : async A).
Arguments Return {A} a.
Arguments Raise {A} e.
Arguments Get {A} k.
Arguments Put {A} w k.
Arguments Await {A} on k.

Fixpoint async_bind {A B : Type} (k : A -> async B) (m : async A) : async B :=
  match m with
  | Return a => k a
  | Raise e => Raise e
  | Get f => Get (fun w => async_bind k (f w))
  | Put w m' => Put w (async_bind k m')
  | Await on m' => Await on (async_bind k m')
  end.

#[global] Instance async_ret : MRet async := fun _ a => Return a.
#[global] Instance async_mbind : MBind async := fun _ _ k m => async_bind k m.

Definition get : async world := Get Return.
Definition modify (f : world -> world) : async unit :=
  Get (fun w => Put (f w) (Return tt)).
Definition await (on : wait) : async unit := Await on (Return tt).
Definition lift {A : Type} (r : result A) : async A :=
  match r with
  | Ok a => Return a
  | Err e => Raise e
  end.

(** ** Python truth values and list methods *)

Definition str_bool (s : string) : bool := negb (String.eqb s "").
Definition int_bool (n : Z) : bool := negb (n =? 0).

(** [x in l] *)
Definition contains (x : Z) (l : list Z) : bool := existsb (Z.eqb x) l.

(** [l.remove(x)] when [x in l]: the first occurrence goes. *)
Fixpoint remove_first (x : Z) (l : list Z) : list Z :=
  match l with
  | [] => []
  | y :: l' => if x =? y then l' else y :: remove_first x l'
  end.

Definition nl : string := String (ascii_of_nat 10) EmptyString.

(** ** Attribute access on a decoded payload

    [cast] does nothing at run time; reading an attribute the message
    class does not have raises [AttributeError]. *)

Definition attr_has_account (p : liblq.payload) : result bool :=
  match p with
  | liblq.ResOauth2Check b => Ok b
  | _ => Err AttributeError
  end.

Definition attr_error_code (p : liblq.payload) : result Z :=
  match p with
  | liblq.ResCommon c => Ok c
  | liblq.ResLogin _ _ c => Ok c
  | liblq.ResMultiAccountBrief c _ => Ok c
  | _ => Err AttributeError
  end.

Definition attr_login (p : liblq.payload) : result (Z * string) :=
  match p with
  | liblq.ResLogin a n _ => Ok (a, n)
  | _ => Err AttributeError
  end.

Definition attr_players (p : liblq.payload) : result (list liblq.PlayerBaseView) :=
  match p with
  | liblq.ResMultiAccountBrief _ ps => Ok ps
  | _ => Err AttributeError
  end.

(** ** [rpc_call] *)

Definition register_event (idx : Z) (c : MajsoulConnection) : MajsoulConnection :=
  with_correlation (<[idx := false]> (_req_events c)) (_res c) c.

(** [del self._res[idx]]; [if idx in self._req_events: del ...] *)
Definition forget_call (idx : Z) (c : MajsoulConnection) : MajsoulConnection :=
  with_correlation (delete idx (_req_events c)) (delete idx (_res c)) c.

(** [encode_request] allocates the index read just before it and advances
    the counter (the codec is modelled from the spec: a new index per
    request, strictly increasing). *)
Definition rpc_call (method : string) (args : pyval) : async liblq.payload :=
  w ← get;
  let idx := codec_index (self w) in
  if bool_decide (_ws (self w) = None)
  then Raise (ConnectionError "Connection is broken")
  else
    let req := {| request_index := idx; request_method := method;
                  request_payload := args |} in
    modify (on_self (with_codec_index (idx + 1)));;
    modify (on_self (register_event idx));;
    await (WsSend req);;
    await (EventWait idx);;
    w ← get;
    res ← lift (match _res (self w) !! idx with
                | Some r => Ok r
                | None => Err KeyError
                end);
    modify (on_self (forget_call idx));;
    Return (payload res).

(** ** Notification handlers *)

Definition PP_HOST : string := "https://game.maj-soul.com/1/?paipu=".

(** [open] and [json.load]: lines 167-168 and, outside any [try], lines
    195-196. *)
Definition load (f : file) : result json :=
  match f with
  | Raises e => Err e
  | Holds v => Ok v
  end.

(** The [try] of lines 166-172: the two exceptions it names give [{}],
    any other exception goes on. *)
Definition load_or_empty (f : file) : result json :=
  match load f with
  | Err FileNotFoundError | Err JSONDecodeError => Ok (JObject ∅)
  | r => r
  end.

(** [game_record[key] = value]: a [dict] takes the item, any other JSON
    value raises [TypeError]. *)
Definition setitem (game_record : json) (key : string) (value : Z) : result json :=
  match game_record with
  | JObject members => Ok (JObject (<[key := JInt value]> members))
  | _ => Err TypeError
  end.

Section Connection.

(** [ModeId2Room] ([constants.py]), [encode_account_id] and [PlayerLevel]
    ([utils/api/remote.py]) and the configuration flag are not part of the
    sources. *)
Variable ModeId2Room : gmap Z string.
Variable encode_account_id : Z -> Z.
Variable getTag : Z -> Z -> string.
Variable formatAdjustedScoreWithTag : Z -> Z -> Z -> string.
Variable MajsIsAutoApplyFriend : bool.

Definition room_name (mode_id : Z) : string := default "" (ModeId2Room !! mode_id).

(** One pass of the loop body of [handle_FriendStateChange] for a friend
    whose account id is the target (lines 159-210): the new friend, the
    file as written, and the message. *)
Definition FriendStateChange_body (active_state : liblq.AccountActiveState)
    (friend : MajsoulFriend.t) (f : file) (msg : string)
  : result (MajsoulFriend.t * file * string) :=
  let nick_name := MajsoulFriend.nickname friend in
  let msg :=
    if liblq.is_online active_state && negb (MajsoulFriend.is_online friend)
    then nick_name ++ " 上线了"
    else if negb (liblq.is_online active_state) && MajsoulFriend.is_online friend
    then nick_name ++ " 下线了"
    else msg in
  game_record ← load_or_empty f;
  let playing := liblq.playing active_state in
  let active_uuid := liblq.game_uuid playing in
  '(msg, game_record) ←
    (if str_bool active_uuid
        && negb (str_bool (liblq.game_uuid (MajsoulFriend.playing friend)))
     then
       let category := liblq.category playing in
       let mode_id := liblq.mode_id (liblq.meta playing) in
       let msg :=
         if category =? 1 then nick_name ++ " 开始了歹人场"
         else if category =? 2 then nick_name ++ " 开始了段位场"
         else if category =? 4 then nick_name ++ " 开始了比赛场"
         else nick_name ++ " 未知牌谱类别 " ++ pretty category in
       let msg := msg ++ " " ++ room_name mode_id ++ " mod_id: "
                      ++ pretty mode_id ++ nl in
       let msg := msg ++ "对局id: " ++ active_uuid in
       game_record ← setitem game_record active_uuid (MajsoulFriend.account_id friend);
       Ok (msg, game_record)
     else if negb (liblq.message_bool playing)
             && liblq.message_bool (MajsoulFriend.playing friend)
     then
       game_record ← load f;
       let mode_id := liblq.mode_id (liblq.meta (MajsoulFriend.playing friend)) in
       let msg := nick_name ++ " 结束了在 " ++ room_name mode_id ++ " 的对局" ++ nl in
       let uuid := liblq.game_uuid (MajsoulFriend.playing friend) in
       let encode_aid := encode_account_id (MajsoulFriend.account_id friend) in
       let url := PP_HOST ++ uuid ++ "_a" ++ pretty encode_aid in
       let msg := msg ++ "牌谱为 " ++ url ++ nl in
       game_record ← setitem game_record uuid (MajsoulFriend.account_id friend);
       Ok (msg, game_record)
     else Ok (msg, game_record));
  Ok (MajsoulFriend.change_state friend active_state, Holds game_record, msg).

(** The [for friend in self.friends] loop of [handle_FriendStateChange].
    An exception leaves the friends already visited and the file as they
    are at that point. *)
Fixpoint FriendStateChange_loop (target_user : Z)
    (active_state : liblq.AccountActiveState)
    (fs : list MajsoulFriend.t) (f : file) (msg : string)
  : list MajsoulFriend.t * file * result string :=
  match fs with
  | [] => ([], f, Ok msg)
  | friend :: rest =>
      if MajsoulFriend.account_id friend =? target_user then
        match FriendStateChange_body active_state friend f msg with
        | Err e => (friend :: rest, f, Err e)
        | Ok (friend', f', msg') =>
            let '(rest', f'', r) :=
              FriendStateChange_loop target_user active_state rest f' msg' in
            (friend' :: rest', f'', r)
        end
      else
        let '(rest', f', r) :=
          FriendStateChange_loop target_user active_state rest f msg in
        (friend :: rest', f', r)
  end.

Definition handle_FriendStateChange (notify : MajsoulDecodedMessage) : async unit :=
  match payload notify with
  | liblq.NotifyFriendStateChange target_user active_state =>
      w ← get;
      let '(fs, f, r) :=
        FriendStateChange_loop target_user active_state
          (friends (self w)) (game_record_json w) "" in
      Put (with_file f (on_self (with_friends fs) w))
        (msg ← lift r;
         if str_bool msg then await (SendMsgToUser (pretty target_user) msg)
         else Return tt)
  | _ => Raise AttributeError
  end.

(** The loop body of [handle_FriendViewChange] for a matching friend
    (lines 221-264). *)
Definition FriendViewChange_body (changed_base : liblq.PlayerBaseView)
    (friend : MajsoulFriend.t) : MajsoulFriend.t * string :=
  let nick_name := MajsoulFriend.nickname friend in
  let msg := "" in
  let changed_level := liblq.id (liblq.level changed_base) in
  let changed_level3 := liblq.id (liblq.level3 changed_base) in
  let changed_score := liblq.score (liblq.level changed_base) in
  let changed_score3 := liblq.score (liblq.level3 changed_base) in
  let msg :=
    if negb (changed_level =? liblq.id (MajsoulFriend.level friend))
    then nick_name ++ " 的四麻段位更新为 " ++ getTag changed_level changed_score ++ nl
    else msg in
  let msg :=
    if negb (changed_level3 =? liblq.id (MajsoulFriend.level3 friend))
    then nick_name ++ " 的三麻段位更新为 " ++ getTag changed_level3 changed_score3 ++ nl
    else msg in
  let delta (score_change : Z) : string :=
    if 0 <=? score_change then "增加了 " ++ pretty score_change
    else "减少了 " ++ pretty (- score_change) in
  let msg :=
    if negb (changed_score =? liblq.score (MajsoulFriend.level friend)) then
      msg ++ "四麻段位信息: "
          ++ formatAdjustedScoreWithTag changed_level changed_score changed_score ++ nl
          ++ delta (changed_score - liblq.score (MajsoulFriend.level friend))
    else if negb (changed_score3 =? liblq.score (MajsoulFriend.level3 friend)) then
      msg ++ "三麻段位信息: "
          ++ formatAdjustedScoreWithTag changed_level3 changed_score3 changed_score3 ++ nl
          ++ delta (changed_score3 - liblq.score (MajsoulFriend.level3 friend))
    else msg in
  (MajsoulFriend.change_base friend changed_base, msg).

Fixpoint FriendViewChange_loop (target_user : Z) (changed_base : liblq.PlayerBaseView)
    (fs : list MajsoulFriend.t) (msg : string) : list MajsoulFriend.t * string :=
  match fs with
  | [] => ([], msg)
  | friend :: rest =>
      if MajsoulFriend.account_id friend =? target_user then
        let '(friend', msg') := FriendViewChange_body changed_base friend in
        let '(rest', msg'') := FriendViewChange_loop target_user changed_base rest msg' in
        (friend' :: rest', msg'')
      else
        let '(rest', msg') := FriendViewChange_loop target_user changed_base rest msg in
        (friend :: rest', msg')
  end.

Definition handle_FriendViewChange (notify : MajsoulDecodedMessage) : async unit :=
  match payload notify with
  | liblq.NotifyFriendViewChange target_user changed_base =>
      w ← get;
      let '(fs, msg) :=
        FriendViewChange_loop target_user changed_base (friends (self w)) "" in
      Put (on_self (with_friends fs) w)
        (if str_bool msg then await (SendMsgToUser (pretty target_user) msg)
         else Return tt)
  | _ => Raise AttributeError
  end.

(** The message left by the first loop of the [type == 1] branch
    (lines 274-277): set at every friend with the notified account id. *)
Fixpoint already_listed_msg (account_id : Z) (fs : list MajsoulFriend.t)
    (meta_msg : string) : string :=
  match fs with
  | [] => meta_msg
  | friend :: rest =>
      already_listed_msg account_id rest
        (if MajsoulFriend.account_id friend =? account_id
         then "好友 " ++ pretty account_id ++ " 已在好友列表中！"
         else meta_msg)
  end.

(** The loop of the [type == 2] branch (lines 287-291): the first friend
    with the account id is removed and the loop is left. *)
Fixpoint remove_friend (account_id : Z) (fs : list MajsoulFriend.t)
  : list MajsoulFriend.t * string :=
  match fs with
  | [] => ([], "")
  | friend :: rest =>
      if MajsoulFriend.account_id friend =? account_id
      then (rest, "账号成功删除好友 " ++ MajsoulFriend.nickname friend ++ "！")
      else let '(rest', m) := remove_friend account_id rest in (friend :: rest', m)
  end.

(** The loop of the last branch (lines 294-297): the loop variable is
    rebound, the registry is not written. *)
Fixpoint refreshed_msg (account_id : Z) (data_friend : liblq.Friend)
    (fs : list MajsoulFriend.t) (meta_msg : string) : string :=
  match fs with
  | [] => meta_msg
  | friend :: rest =>
      refreshed_msg account_id data_friend rest
        (if MajsoulFriend.account_id friend =? account_id
         then "数据成功更新好友 "
              ++ MajsoulFriend.nickname (MajsoulFriend.init data_friend) ++ "！"
         else meta_msg)
  end.

(** Lines 271-297 of [handle_FriendChange]: the registry, the pending
    applications and the message.  In the [type == 1] branch the [else]
    belongs to the [for], whose body has no [break]: it runs after every
    complete pass of the loop. *)
Definition FriendChange_body (account_id type : Z) (data_friend : liblq.Friend)
    (fs : list MajsoulFriend.t) (applies : list Z)
  : list MajsoulFriend.t * list Z * string :=
  let meta_msg := "" in
  if type =? 1 then
    let meta_msg := already_listed_msg account_id fs meta_msg in
    let friend := MajsoulFriend.init data_friend in
    let fs := (fs ++ [friend])%list in
    let meta_msg := "账号成功添加好友 " ++ MajsoulFriend.nickname friend ++ "！" in
    let applies :=
      if contains account_id applies then remove_first account_id applies
      else applies in
    (fs, applies, meta_msg)
  else if type =? 2 then
    let '(fs, meta_msg) := remove_friend account_id fs in
    (fs, applies, meta_msg)
  else
    (fs, applies, refreshed_msg account_id data_friend fs meta_msg).

Definition handle_FriendChange (notify : MajsoulDecodedMessage) : async unit :=
  match payload notify with
  | liblq.NotifyFriendChange account_id type data_friend =>
      w ← get;
      let '(fs, applies, meta_msg) :=
        FriendChange_body account_id type data_friend
          (friends (self w)) (friend_apply_list (self w)) in
      Put (on_self (fun c => with_friend_apply_list applies (with_friends fs c)) w)
        (if str_bool meta_msg then await (SendMeta meta_msg) else Return tt)
  | _ => Raise AttributeError
  end.

Definition acceptFriendApply (account_id : Z) : async liblq.payload :=
  resp ← rpc_call ".lq.Lobby.handleFriendApply"
           (PDict [("method", PInt 1); ("target_id", PInt account_id)]);
  modify (on_self (fun c =>
    if contains account_id (friend_apply_list c)
    then with_friend_apply_list (remove_first account_id (friend_apply_list c)) c
    else c));;
  Return resp.

Definition handle_NewFriendApply (notify : MajsoulDecodedMessage) : async unit :=
  match payload notify with
  | liblq.NotifyNewFriendApply account_id =>
      let meta_msg := "收到来自 " ++ pretty account_id ++ " 的好友申请" in
      modify (on_self (fun c =>
        with_friend_apply_list (friend_apply_list c ++ [account_id])%list c));;
      resp ← rpc_call ".lq.Lobby.fetchMultiAccountBrief"
               (PDict [("account_id_list", PList [PInt account_id])]);
      code ← lift (attr_error_code resp);
      meta_msg ←
        (if int_bool code then
           Return ("NotifyNewFriendApply信息序列化错误" ++ pretty account_id ++ "!")
         else
           players ← lift (attr_players resp);
           account ← lift (index players 0);
           modify (on_self (fun c =>
             if negb (contains account_id (friend_apply_list c))
             then with_friend_apply_list (friend_apply_list c ++ [account_id])%list c
             else c));;
           Return ("收到来自 " ++ liblq.nickname account ++ " 的好友申请"));
      (if str_bool meta_msg then await (SendMeta meta_msg) else Return tt);;
      if MajsIsAutoApplyFriend then acceptFriendApply account_id;; Return tt
      else Return tt
  | _ => Raise AttributeError
  end.

Definition handle_AnotherLogin : async unit :=
  w ← get;
  let meta_msg := "账号 " ++ nick_name (self w) ++ "("
                  ++ pretty (account_id (self w)) ++ ") 在别处登陆" ++ nl in
  let meta_msg := meta_msg ++ "请检查AccessToken, 可能已过期！" in
  await (SendMeta meta_msg).

(** [handle_notify]: the coroutine object put on the queue, if any
    (an unknown method is logged). *)
Definition handle_notify (notify : MajsoulDecodedMessage) : option (async unit) :=
  if String.eqb (method_name notify) ".lq.NotifyFriendStateChange"
  then Some (handle_FriendStateChange notify)
  else if String.eqb (method_name notify) ".lq.NotifyFriendViewChange"
  then Some (handle_FriendViewChange notify)
  else if String.eqb (method_name notify) ".lq.NotifyNewFriendApply"
  then Some (handle_NewFriendApply notify)
  else if String.eqb (method_name notify) ".lq.NotifyFriendChange"
  then Some (handle_FriendChange notify)
  else if String.eqb (method_name notify) ".lq.NotifyAnotherLogin"
  then Some handle_AnotherLogin
  else None.

(** ** The read-dispatch loop *)

(** What [self._ws.recv()] yields: a binary or a text frame. *)
Inductive frame : Type :=
| Binary (msg : bytes)
| Text (msg : string).

(** [self._codec.decode_message], not part of the sources. *)
Variable decode_message : bytes -> result MajsoulDecodedMessage.

(** [self._res[idx] = data]; [self._req_events[idx].set()] *)
Definition resolve (idx : Z) (data : MajsoulDecodedMessage) (c : MajsoulConnection)
  : MajsoulConnection :=
  with_correlation (<[idx := true]> (_req_events c)) (<[idx := data]> (_res c)) c.

(** [self.queue.put_nowait] *)
Definition put_nowait (q : list (async unit)) (c : option (async unit))
  : list (async unit) :=
  match c with
  | Some h => (q ++ [h])%list
  | None => q
  end.

(** Lines 336-350 of [dispatch_msg]: routing a decoded message by kind. *)
Definition route (data : MajsoulDecodedMessage) (c : MajsoulConnection)
    (q : list (async unit)) : MajsoulConnection * list (async unit) :=
  let idx := req_index data in
  if bool_decide (msg_type data = RESPONSE)
     && negb (bool_decide (is_Some (_req_events c !! idx)))
  then (c, q)
  else
    let c := if bool_decide (msg_type data = RESPONSE)
             then resolve idx data c else c in
    if bool_decide (msg_type data = NOTIFY)
    then (c, put_nowait q (handle_notify data))
    else if bool_decide (msg_type data = REQUEST)
    then (c, q)
    else (c, q).

(** One turn of the [while True] of [dispatch_msg] (lines 332-350) on the
    frame received: the connection and the queue afterwards, or the
    exception that ends the loop. *)
Definition dispatch_msg (msg : frame) (c : MajsoulConnection) (q : list (async unit))
  : result (MajsoulConnection * list (async unit)) :=
  match msg with
  | Text _ => Err AssertionError
  | Binary msg =>
      data ← decode_message msg;
      Ok (route data c q)
  end.

Definition check_alive : async bool :=
  w ← get;
  if bool_decide (_ws (self w) = None) then Return false
  else
    resp ← rpc_call ".lq.Lobby.heatbeat" (PDict [("no_operation_counter", PInt 0)]);
    code ← lift (attr_error_code resp);
    if int_bool code then Return false else Return true.

(** ** [accessTokenLogin] *)

Definition oauth2Check (access_token : string) : async liblq.payload :=
  rpc_call ".lq.Lobby.oauth2Check"
    (PDict [("type", PInt 0); ("access_token", PStr access_token)]).

Definition accessTokenLogin (version access_token random_key : string) : async unit :=
  resp ← oauth2Check access_token;
  has_account ← lift (attr_has_account resp);
  resp ← (if negb has_account
          then await (Sleep 2);; oauth2Check access_token
          else Return resp);
  has_account ← lift (attr_has_account resp);
  if negb has_account then Raise (ValueError "Failed to check account")
  else
    w ← get;
    resp ← rpc_call ".lq.Lobby.oauth2Login"
      (PDict [("type", PInt 0);
              ("access_token", PStr access_token);
              ("reconnect", PBool false);
              ("device", PDict [("platform", PStr "pc");
                                ("hardware", PStr "pc");
                                ("os", PStr "windows");
                                ("os_version", PStr "win10");
                                ("is_browser", PBool true);
                                ("software", PStr "Chrome");
                                ("sale_platform", PStr "web")]);
              ("random_key", PStr random_key);
              ("client_version", PDict [("resource", PStr version)]);
              ("currency_platforms", PList []);
              ("client_version_string", PStr (clientVersionString (self w)))]);
    '(account, nickname) ← lift (attr_login resp);
    if negb (int_bool account) then Raise (ValueError "Failed to login")
    else
      modify (on_self (with_account account nickname));;
      resp ← rpc_call ".lq.Lobby.loginBeat"
        (PDict [("contract", PStr "DF2vkXCnfeXp4WoGSBGNcJBufZiMN3UP")]);
      code ← lift (attr_error_code resp);
      if int_bool code then Raise (ValueError "Failed to loginBeat")
      else Return tt.

(** ** Running coroutines *)

(** How a coroutine leaves the processor: finished, or suspended with the
    rest of its body. *)
Inductive suspension (A : Type) : Type :=
| Finished (r : result A)
| Suspended (on : wait) (k : async A).
Arguments Finished {A} r.
Arguments Suspended {A} on k.

(** Run a coroutine up to its next suspension point. *)
Fixpoint run {A : Type} (m : async A) (w : world) : world * suspension A :=
  match m with
  | Return a => (w, Finished (Ok a))
  | Raise e => (w, Finished (Err e))
  | Get k => run (k w) w
  | Put w' k => run k w'
  | Await on k => (w, Suspended on k)
  end.

(** A task made by [asyncio.create_task]: [waiting = None] until its first
    turn. *)
Record task : Type := {
  task_id : nat;
  waiting : option wait;
  code : async unit
}.

Inductive event : Type :=
| Received (msg : frame)
| Started (tid : nat) (h : async unit)
| Ended (tid : nat) (r : result unit).

(** The event loop of one connection: the connection's world, whether
    [dispatch_msg] still runs, [self.queue], the tasks [process] created
    that have not finished, the number of tasks created, and the history. *)
Record loop : Type := {
  the_world : world;
  dispatching : bool;
  queue : list (async unit);
  tasks : list task;
  created : nat;
  trace : list event
}.

(** An [await] can complete once the event it waits for is set; the other
    suspensions wait for the outside (the socket, the timer, the sinks) and
    can complete at any turn. *)
Definition ready (on : wait) (w : world) : Prop :=
  match on with
  | EventWait idx => _req_events (self w) !! idx = Some true
  | _ => True
  end.

(** One turn of task [t]: what becomes of the task, the world and the
    history. *)
Definition turn (t : task) (l : loop) (before after : list task) : loop :=
  let '(w, s) := run (code t) (the_world l) in
  let begun :=
    match waiting t with
    | None => [Started (task_id t) (code t)]
    | Some _ => []
    end in
  match s with
  | Finished r =>
      {| the_world := w; dispatching := dispatching l; queue := queue l;
         tasks := (before ++ after)%list; created := created l;
         trace := (trace l ++ begun ++ [Ended (task_id t) r])%list |}
  | Suspended on k =>
      {| the_world := w; dispatching := dispatching l; queue := queue l;
         tasks := (before ++ {| task_id := task_id t; waiting := Some on;
                                 code := k |} :: after)%list;
         created := created l;
         trace := (trace l ++ begun)%list |}
  end.

Definition not_started (t : task) : bool :=
  match waiting t with
  | None => true
  | Some _ => false
  end.

Inductive step (l : loop) : loop -> Prop :=
(** [dispatch_msg] receives a frame and routes it. *)
| step_recv msg c q :
    dispatching l = true ->
    dispatch_msg msg (self (the_world l)) (queue l) = Ok (c, q) ->
    step l {| the_world := on_self (fun _ => c) (the_world l);
              dispatching := true; queue := q; tasks := tasks l;
              created := created l; trace := (trace l ++ [Received msg])%list |}
(** [dispatch_msg] ends with an exception. *)
| step_recv_raise msg e :
    dispatching l = true ->
    dispatch_msg msg (self (the_world l)) (queue l) = Err e ->
    step l {| the_world := the_world l;
              dispatching := false; queue := queue l; tasks := tasks l;
              created := created l; trace := (trace l ++ [Received msg])%list |}
(** [process]: [data = await self.queue.get()], [asyncio.create_task(data)]. *)
| step_process data q :
    queue l = data :: q ->
    step l {| the_world := the_world l;
              dispatching := dispatching l; queue := q;
              tasks := (tasks l ++ [{| task_id := created l; waiting := None;
                                       code := data |}])%list;
              created := S (created l); trace := trace l |}
(** The first turn of a task; tasks take their first turn in the order of
    their creation. *)
| step_start before t after :
    tasks l = (before ++ t :: after)%list ->
    waiting t = None ->
    forallb (fun t' => negb (not_started t')) before = true ->
    step l (turn t l before after)
(** A suspended task goes on once what it waits for is there. *)
| step_resume before t after on :
    tasks l = (before ++ t :: after)%list ->
    waiting t = Some on ->
    ready on (the_world l) ->
    step l (turn t l before after).

Definition boot (w : world) : loop :=
  {| the_world := w; dispatching := true; queue := []; tasks := [];
     created := 0; trace := [] |}.

(** The states an event loop started on world [w] can be in. *)
Definition reachable (w : world) (l : loop) : Prop := rtc step (boot w) l.

(** The handler coroutines in the order of their first turn. *)
Definition started (tr : list event) : list (async unit) :=
  omap (fun e => match e with Started _ h => Some h | _ => None end) tr.

(** The handlers of the notifications among the frames received, in the
    order of arrival. *)
Definition notified (tr : list event) : list (async unit) :=
  omap (fun e =>
          match e with
          | Received (Binary msg) =>
              match decode_message msg with
              | Ok data =>
                  if bool_decide (msg_type data = NOTIFY) then handle_notify data
                  else None
              | Err _ => None
              end
          | _ => None
          end) tr.

(** The handlers in progress: begun and not finished. *)
Definition in_progress (l : loop) : list task :=
  List.filter (fun t => negb (not_started t)) (tasks l).

(** ** A call seen from the caller's side *)

Inductive outcome (A : Type) : Type :=
| Done (r : result A)
| Pending.
Arguments Done {A} r.
Arguments Pending {A}.

(** The service answers the [n]-th call with the [n]-th payload of
    [replies]: the answer arrives as a RESPONSE frame with the index of
    the call and goes through [route].  The result lists the suspensions
    the coroutine went through, the world it leaves, how it ends
    ([Pending]: suspended on an event that is never set), and the replies
    not consumed. *)
Fixpoint serve {A : Type} (m : async A) (w : world) (replies : list liblq.payload)
  : list wait * world * outcome A * list liblq.payload :=
  match m with
  | Return a => ([], w, Done (Ok a), replies)
  | Raise e => ([], w, Done (Err e), replies)
  | Get k => serve (k w) w replies
  | Put w' k => serve k w' replies
  | Await on k =>
      match on with
      | EventWait idx =>
          match replies with
          | [] => ([on], w, Pending, [])
          | p :: replies' =>
              let data := {| msg_type := RESPONSE; req_index := idx;
                             method_name := ""; payload := p |} in
              let w' := on_self (fun c => fst (route data c [])) w in
              if bool_decide (_req_events (self w') !! idx = Some true) then
                let '(log, w'', o, rest) := serve k w' replies' in
                (on :: log, w'', o, rest)
              else ([on], w', Pending, replies')
          end
      | _ =>
          let '(log, w', o, rest) := serve k w replies in
          (on :: log, w', o, rest)
      end
  end.

(** The requests sent for [method], in order. *)
Definition calls (method : string) (log : list wait) : list request :=
  omap (fun on =>
          match on with
          | WsSend req =>
              if String.eqb (request_method req) method then Some req else None
          | _ => None
          end) log.

Definition sleeps (log : list wait) : list Z :=
  omap (fun on => match on with Sleep s => Some s | _ => None end) log.

End Connection.

Arguments Finished {A} r.
Arguments Suspended {A} on k.
Arguments Done {A} r.
Arguments Pending {A}.

(** ** [MajsoulManager] *)

(** The manager and the objects it reaches.  [heap] holds the list
    objects by identity and [conn] is the list [self.conn] refers to;
    [cancelled] and [closed] are the task handles on which [cancel()] and
    the transports on which [close()] have been called. *)
Record MajsoulManager : Type := {
  heap : gmap positive (list MajsoulConnection);
  conn : positive;
  cancelled : gset nat;
  closed : gset nat
}.

(** The elements of [self.conn]. *)
Definition sessions (m : MajsoulManager) : list MajsoulConnection :=
  default [] (heap m !! conn m).

(** The display [[]] makes a new list object; its identity is none of
    those in use. *)
Definition new_list (m : MajsoulManager) : positive * MajsoulManager :=
  let l := fresh (dom (heap m)) in
  (l, {| heap := <[l := []]> (heap m); conn := conn m;
         cancelled := cancelled m; closed := closed m |}).

(** [self.conn.append(c)] *)
Definition append (c : MajsoulConnection) (m : MajsoulManager) : MajsoulManager :=
  {| heap := <[conn m := (sessions m ++ [c])%list]> (heap m); conn := conn m;
     cancelled := cancelled m; closed := closed m |}.

Definition cancel (t : nat) (m : MajsoulManager) : MajsoulManager :=
  {| heap := heap m; conn := conn m;
     cancelled := {[t]} ∪ cancelled m; closed := closed m |}.

Definition close (h : nat) (m : MajsoulManager) : MajsoulManager :=
  {| heap := heap m; conn := conn m;
     cancelled := cancelled m; closed := {[h]} ∪ closed m |}.

Section Manager.

(** What the collaborators yield: the stored access tokens, the outcome
    of [createMajsoulConnection] for a token (bootstrap, connect,
    heartbeat, login), and the connection as [conn.fetchInfo()] leaves it. *)
Variable get_all_cookie : list string.
Variable createMajsoulConnection : string -> result MajsoulConnection.
Variable fetchInfo : MajsoulConnection -> result MajsoulConnection.

(** The [for access_token in cookies] loop of [start]. *)
Fixpoint start_loop (cookies : list string) (m : MajsoulManager)
  : MajsoulManager * result unit :=
  match cookies with
  | [] => (m, Ok tt)
  | access_token :: rest =>
      match createMajsoulConnection access_token with
      | Err e => (m, Err e)
      | Ok c =>
          match fetchInfo c with
          | Err e => (append c m, Err e)
          | Ok c' => start_loop rest (append c' m)
          end
      end
  end.

Definition no_token : string :=
  "❌错误: 未找到有效的ACCESS_TOKEN！请先进行[雀魂添加账号]".

(** [start]: the first session, or the message when no token is stored. *)
Definition start (m : MajsoulManager)
  : MajsoulManager * result (MajsoulConnection + string) :=
  if (length (sessions m) =? 0)%nat then
    match get_all_cookie with
    | [] => (m, Ok (inr no_token))
    | cookies =>
        let '(m, r) := start_loop cookies m in
        (m, r;; c ← index (sessions m) 0; Ok (inl c))
    end
  else (m, c ← index (sessions m) 0; Ok (inl c)).

(** The [for conn in self.conn] loop of [restart]. *)
Fixpoint close_all (conns : list MajsoulConnection) (m : MajsoulManager)
  : MajsoulManager * result unit :=
  match conns with
  | [] => (m, Ok tt)
  | c :: rest =>
      match _ws c with
      | None => (m, Err AttributeError)
      | Some h => close_all rest (close h m)
      end
  end.

(** Lines 658-663 of [restart]. *)
Definition teardown (m : MajsoulManager) : MajsoulManager * result unit :=
  match sessions m with
  | [] => (m, Ok tt)
  | first :: _ =>
      let m :=
        if (1 <=? length (sessions m))%nat
        then foldl (fun m t => cancel t m) m (bg_tasks first)
        else m in
      close_all (sessions m) m
  end.

(** [self.conn = []] *)
Definition discard (m : MajsoulManager) : MajsoulManager :=
  let '(l, m) := new_list m in
  {| heap := heap m; conn := l; cancelled := cancelled m; closed := closed m |}.

Definition restart (m : MajsoulManager)
  : MajsoulManager * result (MajsoulConnection + string) :=
  match teardown m with
  | (m, Err e) => (m, Err e)
  | (m, Ok _) => start (discard m)
  end.

Definition get_conn (m : MajsoulManager) : result MajsoulConnection :=
  index (sessions m) 0.

(** [is_online]: [inl b] when [b] is returned at once, [inr c] when the
    result is that of [c.check_alive()].  The operand [[]] of [is] is a
    new list object. *)
Definition is_online (m : MajsoulManager) : result (bool + MajsoulConnection) :=
  let '(l, m) := new_list m in
  if bool_decide (conn m = l) then Ok (inl false)
  else c ← index (sessions m) 0; Ok (inr c).

End Manager.

(** * Vocabulary of the properties *)

(** [c in s] *)
Fixpoint occurs (c : ascii) (s : string) : bool :=
  match s with
  | EmptyString => false
  | String c' s' => Ascii.eqb c' c || occurs c s'
  end.

(** The value of an ASCII decimal digit. *)
Definition digit_of (c : ascii) : option Z :=
  let n := Z.of_N (N_of_ascii c) in
  if (48 <=? n) && (n <=? 57) then Some (n - 48) else None.

(** The value of a string of decimal digits, with ten to the power of its
    length. *)
Fixpoint digits_value (s : string) : option (Z * Z) :=
  match s with
  | EmptyString => Some (0, 1)
  | String c s' =>
      d ← digit_of c;
      '(v, p) ← digits_value s';
      Some (d * p + v, 10 * p)
  end.

(** The second segment of a match identifier that names the account [n]:
    its decimal literal, after the marker [a] when the id is obfuscated. *)
Definition target_segment (marked : bool) (n : Z) : string :=
  (if marked then "a" else "") ++ pretty n.

(** An action-list item is the decoding of a wrapped record: the type name
    is the third dot-separated component of the wrapper's name and the
    data is the wrapper's data parsed as that message. *)
Definition decodes {lq_message : Type} (Wrapper_parse : bytes -> result Wrapper)
    (lq_parse : string -> bytes -> result lq_message)
    (value : bytes) (item : MjsLogItem lq_message) : Prop :=
  exists raw, Wrapper_parse value = Ok raw
    /\ split "." (wrapper_name raw) !! 2%nat = Some (item_name item)
    /\ lq_parse (item_name item) (wrapper_data raw) = Ok (item_data item).

(** Sample collaborators for the worked examples: a wrapper parser that
    reads every value as a [.lq.RecordNewRound] wrapper around itself, a
    message parser that keeps the bytes, and log-id and account-id decoders
    that leave a visible mark. *)
Definition sample_Wrapper_parse (value : bytes) : result Wrapper :=
  Ok {| wrapper_name := ".lq.RecordNewRound"; wrapper_data := value |}.

Definition sample_lq_parse (name : string) (data : bytes) : result bytes := Ok data.

Definition sample_decode_log_id (log_id : string) : string := "decoded-" ++ log_id.

Definition sample_decode_account_id (n : Z) : Z := n + 1000000.

Definition old_format_with_records : GameDetailRecords :=
  {| records_version := 210714;
     records := [[x0a]; [x0b]];
     actions := [] |}.

Definition old_format_without_records : GameDetailRecords :=
  {| records_version := 210714;
     records := [];
     actions := [{| action_passed := 0; action_type := 1;
                    action_result := [x01; x02] |}] |}.

(** A connection as [createMajsoulConnection] leaves it: transport [ws],
    nothing outstanding, background tasks [tasks]. *)
Definition connected (ws : nat) (tasks : list nat) : MajsoulConnection :=
  {| _ws := Some ws; _req_events := ∅; _res := ∅; codec_index := 0;
     clientVersionString := "web-0.11.100"; account_id := 0; nick_name := "";
     friends := []; friend_apply_list := []; bg_tasks := tasks |}.

Definition manager_of (conns : list MajsoulConnection) : MajsoulManager :=
  {| heap := {[1%positive := conns]}; conn := 1%positive;
     cancelled := ∅; closed := ∅ |}.

(** A manager holding two sessions, each with its keep-alive task. *)
Definition two_sessions : MajsoulManager :=
  manager_of [connected 10 [100%nat]; connected 11 [101%nat]].

(** The transports and the background tasks of a list of sessions. *)
Definition transports (conns : list MajsoulConnection) : list nat :=
  omap _ws conns.

Definition background_tasks (conns : list MajsoulConnection) : list nat :=
  conns ≫= bg_tasks.

(** Sample data for the worked examples: a friend message, the activity
    states and the collaborators of the handlers. *)
Definition rank (i s : Z) : liblq.AccountLevel := {| liblq.id := i; liblq.score := s |}.

Definition in_game (uuid : string) : liblq.AccountPlayingGame :=
  {| liblq.game_uuid := uuid; liblq.category := 2;
     liblq.meta := {| liblq.mode_id := 12 |} |}.

Definition profile (account : Z) (name : string) : liblq.PlayerBaseView :=
  {| liblq.account_id := account; liblq.nickname := name;
     liblq.level := rank 10301 500; liblq.level3 := rank 20301 500 |}.

Definition friend_message (account : Z) (name : string)
    (s : liblq.AccountActiveState) : liblq.Friend :=
  {| liblq.base := profile account name; liblq.state := s |}.

Definition online_playing (uuid : string) : liblq.AccountActiveState :=
  {| liblq.is_online := true; liblq.playing := in_game uuid |}.

Definition online_idle : liblq.AccountActiveState :=
  {| liblq.is_online := true; liblq.playing := liblq.no_game |}.

Definition sample_ModeId2Room : gmap Z string := {[ 12 := "四人南" ]}.
Definition sample_encode_account_id (n : Z) : Z := n + 1000000.
Definition sample_getTag (i s : Z) : string := "L" ++ pretty i.
Definition sample_formatAdjustedScoreWithTag (i s t : Z) : string :=
  "L" ++ pretty i ++ " " ++ pretty t.

(** A connection with transport 10 whose registry holds [fs]. *)
Definition connection_with (fs : list MajsoulFriend.t) (applies : list Z)
  : MajsoulConnection :=
  with_friend_apply_list applies (with_friends fs (connected 10 [])).

Definition world_with (fs : list MajsoulFriend.t) (f : file) : world :=
  {| self := connection_with fs []; game_record_json := f |}.

Definition notification (method : string) (p : liblq.payload) : MajsoulDecodedMessage :=
  {| msg_type := NOTIFY; req_index := 0; method_name := method; payload := p |}.

Definition response (idx : Z) (p : liblq.payload) : MajsoulDecodedMessage :=
  {| msg_type := RESPONSE; req_index := idx; method_name := ""; payload := p |}.

(** A stand-in for the codec in the worked examples: the first byte is
    the kind of frame. *)
Definition sample_decode_message (msg : bytes) : result MajsoulDecodedMessage :=
  match msg with
  | [x01; x07] =>
      Ok (notification ".lq.NotifyNewFriendApply" (liblq.NotifyNewFriendApply 7))
  | [x01; x08] =>
      Ok (notification ".lq.NotifyFriendChange"
            (liblq.NotifyFriendChange 7 1 (friend_message 7 "alice" online_idle)))
  | [x03; x00] =>
      Ok (response 0 (liblq.ResMultiAccountBrief 0 [profile 7 "alice"]))
  | [x03; x05] => Ok (response 5 (liblq.ResCommon 0))
  | _ => Err (ValueError "unknown frame")
  end.

(** The friend whose account id is [account], as the registry stores it. *)
Definition stored (account : Z) (fs : list MajsoulFriend.t) : list MajsoulFriend.t :=
  List.filter (fun f => MajsoulFriend.account_id f =? account) fs.

(** The event a handler emits: the message it is about to send when it
    suspends on a sink, if any. *)
Definition emitted {A : Type} (s : world * suspension A) : option string :=
  match s.2 with
  | Suspended (SendMsgToUser _ msg) _ => Some msg
  | Suspended (SendMeta msg) _ => Some msg
  | _ => None
  end.

(** How a handler ends when its sends complete: the exception, if any. *)
Definition raised {A : Type} (s : world * suspension A) : option exn :=
  match s.2 with
  | Finished (Err e) => Some e
  | _ => None
  end.

(** The friends of the worked examples and the notifications about them. *)
Definition alice_idle : MajsoulFriend.t :=
  MajsoulFriend.init (friend_message 7 "alice" online_idle).

Definition alice_playing : MajsoulFriend.t :=
  MajsoulFriend.init (friend_message 7 "alice" (online_playing "g1")).

Definition alice_added : MajsoulDecodedMessage :=
  notification ".lq.NotifyFriendChange"
    (liblq.NotifyFriendChange 7 1 (friend_message 7 "alice" online_idle)).

Definition alice_left_game : MajsoulDecodedMessage :=
  notification ".lq.NotifyFriendStateChange"
    (liblq.NotifyFriendStateChange 7 online_idle).

Definition alice_entered_game : MajsoulDecodedMessage :=
  notification ".lq.NotifyFriendStateChange"
    (liblq.NotifyFriendStateChange 7 (online_playing "g1")).

(** A connection with one call outstanding under index 5. *)
Definition awaiting_5 : MajsoulConnection :=
  register_event 5 (connected 10 []).

(** The transition "current match present, now absent", as the handler
    tests it (the match-start test comes first). *)
Definition match_ended (active_state : liblq.AccountActiveState)
    (friend : MajsoulFriend.t) : bool :=
  negb (str_bool (liblq.game_uuid (liblq.playing active_state))
        && negb (str_bool (liblq.game_uuid (MajsoulFriend.playing friend))))
  && (negb (liblq.message_bool (liblq.playing active_state))
      && liblq.message_bool (MajsoulFriend.playing friend)).

(** The matches recorded in the file: the members of the object it holds,
    and none when it holds no object or cannot be read. *)
Definition recorded (f : file) : gmap string json :=
  match f with
  | Holds (JObject members) => members
  | _ => ∅
  end.

(** The registry after a pass that completed: every friend with the target
    id carries the snapshot. *)
Definition settled (target_user : Z) (active_state : liblq.AccountActiveState)
    (fs : list MajsoulFriend.t) : Prop :=
  Forall (fun friend => MajsoulFriend.account_id friend = target_user ->
                        MajsoulFriend.state friend = active_state) fs.

(** The file after a pass that completed: written, unless no friend has
    the target id. *)
Definition written (target_user : Z) (fs : list MajsoulFriend.t) (f : file) : Prop :=
  (exists v, f = Holds v)
  \/ Forall (fun friend => MajsoulFriend.account_id friend <> target_user) fs.

(** The world of a caller that sent its request and waits: the index is
    consumed and its event registered. *)
Definition asked (w : world) : world :=
  on_self (fun c =>
    register_event (codec_index c) (with_codec_index (codec_index c + 1) c)) w.

(** The world after a call that was answered: the index is consumed and
    the correlation table holds nothing for it. *)
Definition answered (w : world) : world :=
  on_self (fun c =>
    with_correlation (delete (codec_index c) (_req_events c))
                     (delete (codec_index c) (_res c))
                     (with_codec_index (codec_index c + 1) c)) w.

(** The token-validation request sent with index [idx]. *)
Definition check_request (access_token : string) (idx : Z) : request :=
  {| request_index := idx; request_method := ".lq.Lobby.oauth2Check";
     request_payload := PDict [("type", PInt 0); ("access_token", PStr access_token)] |}.

(** What the caller goes through when the first validation reports no
    linked account: the request, its answer, the pause, the second request
    and its answer. *)
Definition retried (access_token : string) (idx : Z) : list wait :=
  [WsSend (check_request access_token idx); EventWait idx;
   Sleep 2;
   WsSend (check_request access_token (idx + 1)); EventWait (idx + 1)].

(** ** Schedules

    An executable reading of [step]: a schedule names, turn by turn, what
    the event loop does next. *)

Inductive choice : Type :=
| Recv (msg : frame)
| Process
| Start
| Resume (position : nat).

Definition ready_dec (on : wait) (w : world) : bool :=
  match on with
  | EventWait idx => bool_decide (_req_events (self w) !! idx = Some true)
  | _ => true
  end.

(** The tasks before the first one that has not had its first turn, and
    the tasks from it on. *)
Fixpoint split_started (ts : list task) : list task * list task :=
  match ts with
  | [] => ([], [])
  | t :: ts' =>
      if not_started t then ([], ts)
      else let '(before, rest) := split_started ts' in (t :: before, rest)
  end.

Section Schedules.

Variable ModeId2Room : gmap Z string.
Variable encode_account_id : Z -> Z.
Variable getTag : Z -> Z -> string.
Variable formatAdjustedScoreWithTag : Z -> Z -> Z -> string.
Variable MajsIsAutoApplyFriend : bool.
Variable decode_message : bytes -> result MajsoulDecodedMessage.

Definition exec (ch : choice) (l : loop) : option loop :=
  match ch with
  | Recv msg =>
      if dispatching l then
        match dispatch_msg ModeId2Room encode_account_id getTag
                formatAdjustedScoreWithTag MajsIsAutoApplyFriend decode_message
                msg (self (the_world l)) (queue l) with
        | Ok (c, q) =>
            Some {| the_world := on_self (fun _ => c) (the_world l);
                    dispatching := true; queue := q; tasks := tasks l;
                    created := created l;
                    trace := (trace l ++ [Received msg])%list |}
        | Err _ =>
            Some {| the_world := the_world l;
                    dispatching := false; queue := queue l; tasks := tasks l;
                    created := created l;
                    trace := (trace l ++ [Received msg])%list |}
        end
      else None
  | Process =>
      match queue l with
      | data :: q =>
          Some {| the_world := the_world l;
                  dispatching := dispatching l; queue := q;
                  tasks := (tasks l ++ [{| task_id := created l; waiting := None;
                                           code := data |}])%list;
                  created := S (created l); trace := trace l |}
      | [] => None
      end
  | Start =>
      match split_started (tasks l) with
      | (before, t :: after) => Some (turn t l before after)
      | (_, []) => None
      end
  | Resume n =>
      match tasks l !! n with
      | Some t =>
          match waiting t with
          | Some on =>
              if ready_dec on (the_world l)
              then Some (turn t l (take n (tasks l)) (drop (S n) (tasks l)))
              else None
          | None => None
          end
      | None => None
      end
  end.

Fixpoint run_schedule (chs : list choice) (l : loop) : option loop :=
  match chs with
  | [] => Some l
  | ch :: chs' =>
      match exec ch l with
      | Some l' => run_schedule chs' l'
      | None => None
      end
  end.

End Schedules.

(** A friend application from account 7 arrives and its handler asks the
    service for the applicant's profile; before the answer is there, the
    notification that account 7 became a friend arrives and its handler
    takes its first turn. *)
Definition apply_then_added : list choice :=
  [Recv (Binary [x01; x07]); Process; Start; Resume 0%nat;
   Recv (Binary [x01; x08]); Process; Start].

(** The same, continued: the second handler finishes, the answer arrives,
    the first handler goes on and finishes. *)
Definition apply_then_added_to_the_end : list choice :=
  (apply_then_added
   ++ [Resume 1%nat; Recv (Binary [x03; x00]); Resume 0%nat; Resume 0%nat])%list.

Definition sample_run (chs : list choice) : option loop :=
  run_schedule sample_ModeId2Room sample_encode_account_id sample_getTag
    sample_formatAdjustedScoreWithTag false sample_decode_message
    chs (boot (world_with [] Missing)).

(** The handlers still to begin: those of the tasks that have not had
    their first turn, then those on the queue. *)
Definition to_begin (l : loop) : list (async unit) :=
  ((code <$> List.filter not_started (tasks l)) ++ queue l)%list.

(** * Vocabulary of the further properties *)

(** The notification methods [handle_notify] knows. *)
Definition notification_methods : list string :=
  [".lq.NotifyFriendStateChange"; ".lq.NotifyFriendViewChange";
   ".lq.NotifyNewFriendApply"; ".lq.NotifyFriendChange";
   ".lq.NotifyAnotherLogin"].

(** The request a call for [method] sends from world [w]. *)
Definition request_of (w : world) (method : string) (args : pyval) : request :=
  {| request_index := codec_index (self w); request_method := method;
     request_payload := args |}.

(** What a caller goes through for one answered call. *)
Definition one_call (w : world) (method : string) (args : pyval) : list wait :=
  [WsSend (request_of w method args); EventWait (codec_index (self w))].

(** The requests of the connection's own calls. *)
Definition heatbeat_args : pyval := PDict [("no_operation_counter", PInt 0)].

Definition handleFriendApply_args (account_id : Z) : pyval :=
  PDict [("method", PInt 1); ("target_id", PInt account_id)].

Definition fetchMultiAccountBrief_args (account_id : Z) : pyval :=
  PDict [("account_id_list", PList [PInt account_id])].

(** The sends of [method] in a log. *)
Definition sent (method : string) (log : list wait) : nat :=
  length (List.filter (fun on =>
                         match on with
                         | WsSend req => String.eqb (request_method req) method
                         | _ => false
                         end) log).

(** A connection without transport, as [__init__] leaves it. *)
Definition unconnected : MajsoulConnection :=
  {| _ws := None; _req_events := ∅; _res := ∅; codec_index := 0;
     clientVersionString := "web-0.11.100"; account_id := 0; nick_name := "";
     friends := []; friend_apply_list := []; bg_tasks := [] |}.

Definition friend_applied (account_id : Z) : MajsoulDecodedMessage :=
  notification ".lq.NotifyNewFriendApply" (liblq.NotifyNewFriendApply account_id).

(** The ranks of a profile snapshot are those stored for the friend. *)
Definition same_ranks (changed_base : liblq.PlayerBaseView)
    (friend : MajsoulFriend.t) : Prop :=
  liblq.id (liblq.level changed_base) = liblq.id (MajsoulFriend.level friend)
  /\ liblq.id (liblq.level3 changed_base) = liblq.id (MajsoulFriend.level3 friend)
  /\ liblq.score (liblq.level changed_base) = liblq.score (MajsoulFriend.level friend)
  /\ liblq.score (liblq.level3 changed_base)
     = liblq.score (MajsoulFriend.level3 friend).

(** The friend with another stored three-player score. *)
Definition with_score3 (s : Z) (friend : MajsoulFriend.t) : MajsoulFriend.t :=
  {| MajsoulFriend.account_id := MajsoulFriend.account_id friend;
     MajsoulFriend.nickname := MajsoulFriend.nickname friend;
     MajsoulFriend.is_online := MajsoulFriend.is_online friend;
     MajsoulFriend.playing := MajsoulFriend.playing friend;
     MajsoulFriend.level := MajsoulFriend.level friend;
     MajsoulFriend.level3 :=
       {| liblq.id := liblq.id (MajsoulFriend.level3 friend); liblq.score := s |} |}.

(** No friend of the registry has the account id. *)
Definition unknown (account : Z) (fs : list MajsoulFriend.t) : Prop :=
  Forall (fun friend => MajsoulFriend.account_id friend <> account) fs.

Definition bob_offline : MajsoulFriend.t :=
  MajsoulFriend.init
    (friend_message 8 "bob"
       {| liblq.is_online := false; liblq.playing := liblq.no_game |}).

Definition bob_came_online : MajsoulDecodedMessage :=
  notification ".lq.NotifyFriendStateChange"
    (liblq.NotifyFriendStateChange 8 online_idle).

(** The keys the loop may write: the match of the snapshot and the stored
    matches of the friends with the target id. *)
Definition touched (target : Z) (active_state : liblq.AccountActiveState)
    (fs : list MajsoulFriend.t) (k : string) : Prop :=
  k = liblq.game_uuid (liblq.playing active_state)
  \/ exists friend, friend ∈ fs /\ MajsoulFriend.account_id friend = target
       /\ k = liblq.game_uuid (MajsoulFriend.playing friend).

(** A stand-in wrapper parser for the worked examples that reads the bytes
    as the name of the wrapper. *)
Definition named_Wrapper_parse (value : bytes) : result Wrapper :=
  Ok {| wrapper_name := string_of_list_byte value; wrapper_data := [] |}.

Definition old_format_with_bad_record : GameDetailRecords :=
  {| records_version := 210714;
     records := [list_byte_of_string ".lq.RecordNewRound";
                 list_byte_of_string "RecordDealTile";
                 list_byte_of_string ".lq.RecordDiscardTile"];
     actions := [] |}.

(** Establishing the session of one token, as the loop of [start] does:
    [createMajsoulConnection], then [fetchInfo]. *)
Definition establish (createMajsoulConnection : string -> result MajsoulConnection)
    (fetchInfo : MajsoulConnection -> result MajsoulConnection)
    (access_token : string) : result MajsoulConnection :=
  c ← createMajsoulConnection access_token; fetchInfo c.

(** Stand-ins for the collaborators of [start] in the worked examples:
    token "good" connects with transport 20, token "late" connects with
    transport 21, every other token is refused; the roster fetch succeeds. *)
Definition sample_create (access_token : string) : result MajsoulConnection :=
  if String.eqb access_token "good" then Ok (connected 20 [200%nat])
  else if String.eqb access_token "late" then Ok (connected 21 [201%nat])
  else Err (ValueError "Failed to check account").

Definition sample_fetchInfo (c : MajsoulConnection) : result MajsoulConnection :=
  Ok (with_friends [alice_idle] c).

(** ** Delivery *)

(** [send_meta] and [send_msg_to_user] hand every message to
    [bot.target_send] of the hosting framework.  The model lists these
    calls in the order the code makes them.  The configuration values, the
    keys of [gss.active_bot] in iteration order and
    [MajsPush.select_data_by_uid] are taken as given. *)
Record MajsPush : Type :=
  { push_id : string; bot_id : string; user_id : string }.

(** One call [bot.target_send(msg, target_type, target_id, at_bot_id, '')],
    [bot] being [gss.active_bot[via]]. *)
Record target_send : Type :=
  { via : string; message : string; target_type : string; target_id : string;
    at_bot_id : string }.

Section Delivery.

Variable MajsFriendPushType : string.
Variable MajsFriendPushID : string.
Variable MajsIsPushActiveToMaster : bool.
Variable active_bot : list string.
Variable select_data_by_uid : string -> option MajsPush.

Definition send_meta (meta_msg : string) : list target_send :=
  let meta_type := MajsFriendPushType in
  let meta_id := MajsFriendPushID in
  if str_bool meta_id
  then map (fun BOT_ID =>
              {| via := BOT_ID; message := meta_msg; target_type := meta_type;
                 target_id := meta_id; at_bot_id := BOT_ID |}) active_bot
  else [].

Definition send_msg_to_user (target_user msg : string) : list target_send :=
  ((if MajsIsPushActiveToMaster then send_meta msg else [])
   ++ match select_data_by_uid target_user with
      | Some push_data =>
          if negb (String.eqb (push_id push_data) "off") then
            let '(push_target, push_type) :=
              if String.eqb (push_id push_data) "on"
              then (user_id push_data, "direct")
              else (push_id push_data, "group") in
            map (fun BOT_ID =>
                   {| via := BOT_ID; message := msg; target_type := push_type;
                      target_id := push_target;
                      at_bot_id := bot_id push_data |}) active_bot
          else []
      | None => []
      end)%list.

(** The calls of [target_send] behind the sends of a handler. *)
Definition deliveries (log : list wait) : list target_send :=
  log ≫= fun on =>
    match on with
    | SendMeta msg => send_meta msg
    | SendMsgToUser target_user msg => send_msg_to_user target_user msg
    | _ => []
    end.

End Delivery.

(** Sample push settings: user "7" is pushed to directly, user "8" has the
    push switched off, user "9" is pushed to in the group "g42". *)
Definition sample_select_data_by_uid (uid : string) : option MajsPush :=
  if String.eqb uid "7"
  then Some {| push_id := "on"; bot_id := "onebot"; user_id := "u7" |}
  else if String.eqb uid "8"
  then Some {| push_id := "off"; bot_id := "onebot"; user_id := "u8" |}
  else if String.eqb uid "9"
  then Some {| push_id := "g42"; bot_id := "onebot"; user_id := "u9" |}
  else None.

(** * Properties *)

(** ** Python built-ins *)

Lemma split_without sep s : occurs sep s = false -> split sep s = [s].
Proof.
  induction s as [|c s IH]; simpl; [done|].
  intros [Hc Hs]%orb_false_elim. rewrite Hc, (IH Hs). done.
Qed.

Lemma split_at sep a b :
  occurs sep a = false -> split sep (a ++ String sep b) = a :: split sep b.
Proof.
  induction a as [|c a IH]; simpl.
  - intros _. by rewrite Ascii.eqb_refl.
  - intros [Hc Ha]%orb_false_elim. rewrite Hc, (IH Ha). done.
Qed.

Lemma split_concat sep seg segs :
  Forall (fun s => occurs sep s = false) (seg :: segs) ->
  split sep (String.concat (String sep "") (seg :: segs)) = seg :: segs.
Proof.
  revert seg. induction segs as [|seg' segs IH]; intros seg H.
  - simpl. apply split_without. by inversion H.
  - inversion H as [|? ? Hseg Hsegs]; subst.
    change (String.concat (String sep "") (seg :: seg' :: segs))
      with (seg ++ String sep (String.concat (String sep "") (seg' :: segs))).
    by rewrite split_at, IH.
Qed.

Lemma digit_of_pretty_N_char x :
  (x < 10)%N -> digit_of (pretty_N_char x) = Some (Z.of_N x).
Proof.
  intros H.
  assert (x = 0 ∨ x = 1 ∨ x = 2 ∨ x = 3 ∨ x = 4 ∨ x = 5 ∨ x = 6
          ∨ x = 7 ∨ x = 8 ∨ x = 9)%N as Hx by lia.
  repeat (destruct Hx as [->|Hx]; [reflexivity|]). by subst.
Qed.

Lemma digits_value_pretty_N_go x : forall s v p,
  digits_value s = Some (v, p) ->
  exists p', digits_value (pretty_N_go x s) = Some (Z.of_N x * p + v, p').
Proof.
  induction (N.lt_wf_0 x) as [x _ IH]; intros s v p Hs.
  destruct (decide (x = 0%N)) as [->|Hx].
  - rewrite pretty_N_go_0. exists p. rewrite Hs. do 2 f_equal; lia.
  - rewrite pretty_N_go_step by lia.
    destruct (IH (x `div` 10)%N) with
      (s := String (pretty_N_char (x `mod` 10)) s)
      (v := Z.of_N (x `mod` 10) * p + v) (p := 10 * p) as [p' Hp'].
    { apply N.div_lt; lia. }
    { simpl. rewrite digit_of_pretty_N_char by (apply N.mod_lt; lia).
      simpl. rewrite Hs. done. }
    exists p'. rewrite Hp'. f_equal. f_equal.
    rewrite (N.div_mod x 10) at 3 by lia. lia.
Qed.

(** [str(n)] of a natural number is a string of digits of value [n]. *)
Lemma digits_value_pretty (n : Z) :
  0 <= n -> exists p, digits_value (pretty n) = Some (n, p).
Proof.
  intros Hn. destruct n as [|q|q]; [by exists 10| |lia].
  unfold pretty, pretty_Z, pretty, pretty_positive, pretty, pretty_N.
  case_decide; [done|].
  destruct (digits_value_pretty_N_go (N.pos q) "" 0 1 eq_refl) as [p' Hp'].
  exists p'. rewrite Hp'. f_equal. f_equal. lia.
Qed.

Lemma pretty_nonempty (n : Z) : 0 <= n -> pretty n <> "".
Proof.
  intros Hn E. destruct (digits_value_pretty n Hn) as [p Hp].
  rewrite E in Hp. simpl in Hp. by simplify_eq.
Qed.

Lemma digit_not_other c d c' :
  digit_of c = Some d -> digit_of c' = None -> Ascii.eqb c c' = false.
Proof.
  intros Hc Hc'. destruct (Ascii.eqb_spec c c') as [->|]; [congruence|done].
Qed.

Lemma digits_without c s : forall vp,
  digit_of c = None -> digits_value s = Some vp -> occurs c s = false.
Proof.
  induction s as [|c' s IH]; simpl; [done|]. intros vp Hc H.
  destruct (digit_of c') as [d|] eqn:Hd; simpl in H; [|done].
  destruct (digits_value s) as [vp'|] eqn:Hs; simpl in H; [|done].
  by rewrite (digit_not_other _ _ _ Hd Hc), (IH _ Hc eq_refl).
Qed.

Lemma digit_of_code c d :
  digit_of c = Some d -> byte_value c = 48 + d /\ 0 <= d <= 9.
Proof.
  unfold digit_of, byte_value.
  destruct ((48 <=? Z.of_N (N_of_ascii c)) && (Z.of_N (N_of_ascii c) <=? 57)) eqn:E;
    [|done].
  intros [= <-]. lia.
Qed.

(** A string of ASCII digits is its own list of characters, left as it is
    by the transformation, and the scan reads its value and its length. *)
Lemma code_points_digits s : forall v p,
  digits_value s = Some (v, p) ->
  exists u,
    code_points s = Some u
    /\ length u = String.length s
    /\ to_ascii <$> u = u
    /\ (forall ch u', u = ch :: u' -> 48 <= ch <= 57)
    /\ forall z digits,
         scan_digits false z digits u
         = Some (z * p + v, digits + Z.of_nat (String.length s), []).
Proof.
  induction s as [|c s IH]; simpl; intros v p H.
  - simplify_eq. exists []. do 4 (split; [done|]).
    intros z digits. simpl. do 3 f_equal; lia.
  - destruct (digit_of c) as [d|] eqn:Hd; simpl in H; [|done].
    destruct (digits_value s) as [[v' p']|] eqn:Hs; simpl in H; [|done].
    simplify_eq. destruct (digit_of_code _ _ Hd) as [Hb Hr].
    destruct (IH v' p' eq_refl) as (u & -> & Hlen & Hu & _ & Hscan).
    exists ((48 + d) :: u). rewrite Hb.
    assert ((48 + d <? 128) = true) as -> by lia. simpl.
    split; [done|]. split; [by rewrite <- Hlen|]. split; [|split].
    + change (list_fmap Z Z to_ascii u) with (to_ascii <$> u). rewrite Hu.
      f_equal. unfold to_ascii.
      by assert ((48 + d <? 127) = true) as -> by lia.
    + intros ch u' [= <- _]. lia.
    + intros z digits.
      assert ((48 + d =? 95) = false) as -> by lia.
      assert ((48 <=? 48 + d) && (48 + d <=? 57) = true) as -> by lia.
      rewrite Hscan. do 3 f_equal; lia.
Qed.

(** [int] reads a non-empty string of at most 4300 ASCII digits as its
    value, and refuses a longer one. *)
Lemma py_int_digits s v p :
  s <> "" -> digits_value s = Some (v, p) ->
  (Z.of_nat (String.length s) <= int_max_str_digits -> py_int s = Ok v)
  /\ (int_max_str_digits < Z.of_nat (String.length s) ->
      exists msg, py_int s = Err (ValueError msg)).
Proof.
  intros Hne Hs.
  destruct (code_points_digits s v p Hs) as (u & Hu & Hlu & Ht & Hhead & Hscan).
  unfold py_int. rewrite Hu, Ht.
  destruct u as [|ch u']; [by destruct s|].
  pose proof (Hhead ch u' eq_refl) as Hch.
  assert (skip_spaces (ch :: u') = ch :: u') as ->.
  { simpl. unfold Py_ISSPACE.
    by assert (((9 <=? ch) && (ch <=? 13)) || (ch =? 32) = false) as -> by lia. }
  assert ((ch =? 43) = false) as -> by lia.
  assert ((ch =? 45) = false) as -> by lia.
  assert ((ch =? 95) = false) as -> by lia.
  rewrite Hscan.
  assert (0 < Z.of_nat (String.length s)) as Hlen by (destruct s; [done|simpl; lia]).
  split; intros Hl.
  - assert ((int_max_str_digits <? 0 + Z.of_nat (String.length s)) = false) as -> by lia.
    assert ((0 + Z.of_nat (String.length s) =? 0) = false) as -> by lia.
    simpl. f_equal; lia.
  - assert ((int_max_str_digits <? 0 + Z.of_nat (String.length s)) = true) as -> by lia.
    by eexists.
Qed.

Lemma pretty_N_go_longer x : forall s,
  (String.length s <= String.length (pretty_N_go x s))%nat.
Proof.
  induction (N.lt_wf_0 x) as [x _ IH]; intros s.
  destruct (decide (x = 0%N)) as [->|Hx].
  - by rewrite pretty_N_go_0.
  - rewrite pretty_N_go_step by lia.
    etrans; [|apply IH; apply N.div_lt; lia]. simpl. lia.
Qed.

(** The number of digits [str] writes: at most [k] below ten to the [k],
    more from there on. *)
Lemma pretty_N_go_length x : forall s k,
  0 <= k ->
  (Z.of_N x < 10 ^ k ->
   Z.of_nat (String.length (pretty_N_go x s)) <= Z.of_nat (String.length s) + k)
  /\ (10 ^ k <= Z.of_N x ->
      Z.of_nat (String.length s) + k < Z.of_nat (String.length (pretty_N_go x s))).
Proof.
  induction (N.lt_wf_0 x) as [x _ IH]; intros s k Hk.
  destruct (decide (x = 0%N)) as [->|Hx].
  - rewrite pretty_N_go_0. split; [lia|].
    pose proof (Z.pow_pos_nonneg 10 k). lia.
  - rewrite pretty_N_go_step by lia.
    set (s' := String (pretty_N_char (x `mod` 10)) s).
    assert (Z.of_nat (String.length s') = Z.of_nat (String.length s) + 1) as Hs'
      by (simpl; lia).
    assert (Z.of_N (x `div` 10) = Z.of_N x `div` 10) as Hdiv by (by rewrite N2Z.inj_div).
    destruct (decide (k = 0)) as [->|Hk0].
    + split; [simpl; lia|]. intros _.
      pose proof (pretty_N_go_longer (x `div` 10) s'). lia.
    + assert (10 ^ k = 10 * 10 ^ (k - 1)) as Hpow.
      { rewrite <- Z.pow_succ_r by lia. f_equal. lia. }
      destruct (IH (x `div` 10)%N ltac:(apply N.div_lt; lia) s' (k - 1) ltac:(lia))
        as [IH1 IH2].
      split; intros H.
      * assert (Z.of_N (x `div` 10) < 10 ^ (k - 1)) as H'.
        { rewrite Hdiv. apply Z.div_lt_upper_bound; lia. }
        specialize (IH1 H'). lia.
      * assert (10 ^ (k - 1) <= Z.of_N (x `div` 10)) as H'.
        { rewrite Hdiv. apply Z.div_le_lower_bound; lia. }
        specialize (IH2 H'). lia.
Qed.

Lemma pretty_length (n k : Z) :
  0 <= n -> 1 <= k ->
  (n < 10 ^ k -> Z.of_nat (String.length (pretty n)) <= k)
  /\ (10 ^ k <= n -> k < Z.of_nat (String.length (pretty n))).
Proof.
  intros Hn Hk. destruct n as [|q|q]; [| |lia].
  - split; [simpl; lia|]. pose proof (Z.pow_pos_nonneg 10 k). lia.
  - unfold pretty, pretty_Z, pretty, pretty_positive, pretty, pretty_N.
    case_decide; [done|].
    destruct (pretty_N_go_length (N.pos q) "" k ltac:(lia)) as [H1 H2].
    simpl in H1, H2. split; intros Hb; [apply H1|apply H2]; lia.
Qed.

(** [int(str(n))] is [n] as long as [n] has at most 4300 digits, and a
    [ValueError] from there on. *)
Lemma py_int_pretty (n : Z) :
  0 <= n ->
  (n < 10 ^ int_max_str_digits -> py_int (pretty n) = Ok n)
  /\ (10 ^ int_max_str_digits <= n ->
      exists msg, py_int (pretty n) = Err (ValueError msg)).
Proof.
  intros Hn. destruct (digits_value_pretty n Hn) as [p Hp].
  destruct (py_int_digits (pretty n) n p (pretty_nonempty n Hn) Hp) as [H1 H2].
  destruct (pretty_length n int_max_str_digits Hn ltac:(done)) as [L1 L2].
  split; intros H; [apply H1, L1, H|apply H2, L2, H].
Qed.

Lemma rmap_Ok {A B : Type} (f : A -> result B) (l : list A) (ys : list B) :
  rmap f l = Ok ys <-> Forall2 (fun x y => f x = Ok y) l ys.
Proof.
  revert ys. induction l as [|x l IH]; intros ys; simpl.
  - split; [intros [= <-]; constructor|by inversion 1].
  - destruct (f x) as [y|e] eqn:Hx.
    + destruct (rmap f l) as [ys'|e] eqn:Hl.
      * split.
        -- intros [= <-]. constructor; [done|]. by apply IH.
        -- inversion 1 as [|? y' ? ys'' Hy Hys]; subst.
           apply IH in Hys. congruence.
      * split; [done|].
        inversion 1 as [|? y' ? ys'' Hy Hys]; subst.
        apply IH in Hys. congruence.
    + split; [done|]. inversion 1; congruence.
Qed.

(** ** [fetchLogs] *)

Section FetchLogsProperties.

Variable decode_log_id : string -> string.
Variable decode_account_id : Z -> Z.
Variable lq_message : Type.
Variable Wrapper_parse : bytes -> result Wrapper.
Variable lq_parse : string -> bytes -> result lq_message.

Lemma unwrap_decodes value item :
  unwrap lq_message Wrapper_parse lq_parse value = Ok item
  <-> decodes Wrapper_parse lq_parse value item.
Proof.
  unfold unwrap, decodes, index. split.
  - destruct (Wrapper_parse value) as [raw|] eqn:Hraw; simpl; [|done].
    destruct (split "." (wrapper_name raw) !! 2%nat) as [name|] eqn:Hn; simpl; [|done].
    destruct (lq_parse name (wrapper_data raw)) as [msg|] eqn:Hm; simpl; [|done].
    intros [= <-]. exists raw. simpl. by rewrite Hn.
  - intros (raw & -> & Hn & Hm). simpl. rewrite Hn. simpl. rewrite Hm. simpl.
    by destruct item.
Qed.

Lemma has_result_nonempty a : has_result a = bool_decide (action_result a <> []).
Proof. unfold has_result. by destruct (action_result a). Qed.

(** C6, as the code has it: the action list is built from the flat records
    list when the version is before 210715 and that list is not empty, and
    otherwise (version at or after the cutoff, or no flat record) from the
    results of the structured entries whose result is non-empty; either
    way every item is the decoding of its wrapped record, in the original
    order, and the list is produced exactly when every record decodes. *)
Theorem fetchLogs_action_list_spec (payload : GameDetailRecords)
    (items : list (MjsLogItem lq_message)) :
  (records_version payload < 210715 /\ records payload <> [] ->
     (fetchLogs_action_list lq_message Wrapper_parse lq_parse payload = Ok items
      <-> Forall2 (decodes Wrapper_parse lq_parse) (records payload) items))
  /\ (210715 <= records_version payload \/ records payload = [] ->
     (fetchLogs_action_list lq_message Wrapper_parse lq_parse payload = Ok items
      <-> Forall2 (decodes Wrapper_parse lq_parse)
            (action_result <$>
               List.filter (fun a => bool_decide (action_result a <> []))
                 (actions payload))
            items)).
Proof.
  unfold fetchLogs_action_list. split.
  - intros [Hv Hr].
    assert ((records_version payload <? 210715) = true) as -> by lia.
    assert ((0 <? length (records payload))%nat = true) as ->.
    { destruct (records payload); [done|]. simpl. done. }
    simpl. rewrite rmap_Ok.
    split; intros H; (eapply Forall2_impl; [exact H|]);
      intros ??; by apply unwrap_decodes.
  - intros Hc.
    assert ((records_version payload <? 210715)
            && (0 <? length (records payload))%nat = false) as ->.
    { destruct Hc as [Hv| ->]; [|by rewrite andb_false_r].
      assert ((records_version payload <? 210715) = false) as -> by lia. done. }
    rewrite rmap_Ok, Forall2_fmap_l.
    erewrite filter_ext; [|intros a; apply has_result_nonempty].
    split; intros H; (eapply Forall2_impl; [exact H|]);
      intros ??; by apply unwrap_decodes.
Qed.

Lemma first_digit n c rest :
  0 <= n -> pretty n = String c rest -> exists d, digit_of c = Some d.
Proof.
  intros Hn E. destruct (digits_value_pretty n Hn) as [p Hp].
  rewrite E in Hp. simpl in Hp.
  destruct (digit_of c) as [d|]; [by exists d|done].
Qed.

Lemma pretty_without c n : 0 <= n -> digit_of c = None -> occurs c (pretty n) = false.
Proof.
  intros Hn Hc. destruct (digits_value_pretty n Hn) as [p Hp].
  by eapply digits_without.
Qed.

Lemma target_segment_without n marked :
  0 <= n -> occurs "_" (target_segment marked n) = false.
Proof.
  intros Hn. unfold target_segment.
  destruct marked; simpl; by apply pretty_without.
Qed.

(** The identifiers with a decimal second segment, marked or not: the log
    id is decoded exactly when there is a third segment and it is "2", and
    the account id exactly when the second segment has the marker. *)
Lemma fetchLogs_ids_segments (log_id : string) (marked : bool) (n : Z)
    (rest : list string) :
  occurs "_" log_id = false ->
  0 <= n < 10 ^ int_max_str_digits ->
  Forall (fun s => occurs "_" s = false) rest ->
  fetchLogs_ids decode_log_id decode_account_id
    (String.concat "_" (log_id :: target_segment marked n :: rest))
  = Ok (match rest with
        | flag :: _ => if String.eqb flag "2" then decode_log_id log_id else log_id
        | [] => log_id
        end,
        Some (if marked then decode_account_id n else n)).
Proof.
  intros Hl [Hn Hlim] Hrest. unfold fetchLogs_ids.
  rewrite split_concat
    by (constructor; [done|constructor; [by apply target_segment_without|done]]).
  destruct (py_int_pretty n Hn) as [Hint _]. specialize (Hint Hlim).
  assert (target_id_of :
    match target_segment marked n with
    | EmptyString => Err IndexError
    | String c rest' =>
        if Ascii.eqb c "a"
        then n' ← py_int rest'; Ok (Some (decode_account_id n'))
        else n' ← py_int (target_segment marked n); Ok (Some n')
    end = Ok (Some (if marked then decode_account_id n else n))).
  { unfold target_segment. destruct marked.
    - change ("a" ++ pretty n) with (String "a" (pretty n)). cbv beta iota.
      change (Ascii.eqb "a" "a") with true. cbv iota. by rewrite Hint.
    - change ("" ++ pretty n) with (pretty n).
      pose proof (first_digit n) as Hfirst.
      destruct (pretty n) as [|c r] eqn:E; [by apply pretty_nonempty in E|].
      destruct (Hfirst c r Hn eq_refl) as [d Hd].
      rewrite (digit_not_other c d "a" Hd eq_refl). by rewrite Hint. }
  unfold index.
  destruct rest as [|flag rest]; cbn [lookup list_lookup length Nat.leb andb mbind
                                        result_bind];
    rewrite target_id_of; cbn [mbind result_bind]; [done|].
  by destruct (String.eqb flag "2").
Qed.

(** C9: the identifier "123456_a789_2" yields the log id decoded from
    "123456" (third segment "2") and the target account id decoded from
    789 (second segment prefixed by 'a'), and so does every identifier of
    that shape; a second segment that is a decimal number is the target id
    itself.  The two decodings are independent: the marker alone leaves
    the log id as it is, and the flag "2" alone leaves the number as it
    is.  (The numbers are those [int] reads: at most 4300 digits.) *)
Theorem fetchLogs_ids_spec :
  fetchLogs_ids decode_log_id decode_account_id "123456_a789_2"
  = Ok (decode_log_id "123456", Some (decode_account_id 789))
  /\ (forall log_id n,
        occurs "_" log_id = false -> 0 <= n < 10 ^ int_max_str_digits ->
        fetchLogs_ids decode_log_id decode_account_id
          (log_id ++ "_a" ++ pretty n ++ "_2")
        = Ok (decode_log_id log_id, Some (decode_account_id n)))
  /\ (forall log_id n,
        occurs "_" log_id = false -> 0 <= n < 10 ^ int_max_str_digits ->
        fetchLogs_ids decode_log_id decode_account_id (log_id ++ "_" ++ pretty n)
        = Ok (log_id, Some n))
  /\ (forall log_id n,
        occurs "_" log_id = false -> 0 <= n < 10 ^ int_max_str_digits ->
        fetchLogs_ids decode_log_id decode_account_id (log_id ++ "_a" ++ pretty n)
        = Ok (log_id, Some (decode_account_id n)))
  /\ (forall log_id n,
        occurs "_" log_id = false -> 0 <= n < 10 ^ int_max_str_digits ->
        fetchLogs_ids decode_log_id decode_account_id
          (log_id ++ "_" ++ pretty n ++ "_2")
        = Ok (decode_log_id log_id, Some n)).
Proof.
  split; [reflexivity|].
  repeat split; intros log_id n Hl Hn.
  - exact (fetchLogs_ids_segments log_id true n ["2"] Hl Hn ltac:(by repeat constructor)).
  - exact (fetchLogs_ids_segments log_id false n [] Hl Hn ltac:(done)).
  - exact (fetchLogs_ids_segments log_id true n [] Hl Hn ltac:(done)).
  - exact (fetchLogs_ids_segments log_id false n ["2"] Hl Hn ltac:(by repeat constructor)).
Qed.

End FetchLogsProperties.

Lemma fetchLogs_ids_spec_witness :
  fetchLogs_ids sample_decode_log_id sample_decode_account_id "20240101-abc_a42_2"
  = Ok ("decoded-20240101-abc", Some 1000042)
  /\ fetchLogs_ids sample_decode_log_id sample_decode_account_id "20240101-abc_42"
     = Ok ("20240101-abc", Some 42)
  /\ fetchLogs_ids sample_decode_log_id sample_decode_account_id "20240101-abc_a42"
     = Ok ("20240101-abc", Some 1000042)
  /\ fetchLogs_ids sample_decode_log_id sample_decode_account_id "20240101-abc_42_2"
     = Ok ("decoded-20240101-abc", Some 42).
Proof.
  destruct (fetchLogs_ids_spec sample_decode_log_id sample_decode_account_id)
    as (_ & H2 & H3 & H4 & H5).
  assert (0 <= 42 < 10 ^ int_max_str_digits) as Hn by (split; [lia|by vm_compute]).
  split; [exact (H2 "20240101-abc" 42 eq_refl Hn)|].
  split; [exact (H3 "20240101-abc" 42 eq_refl Hn)|].
  split; [exact (H4 "20240101-abc" 42 eq_refl Hn)|
          exact (H5 "20240101-abc" 42 eq_refl Hn)].
Defined.

Lemma fetchLogs_action_list_spec_witness :
  Forall2 (decodes sample_Wrapper_parse sample_lq_parse)
    (records old_format_with_records)
    [{| item_name := "RecordNewRound"; item_data := [x0a] |};
     {| item_name := "RecordNewRound"; item_data := [x0b] |}]
  /\ Forall2 (decodes sample_Wrapper_parse sample_lq_parse)
       [[x01; x02]]
       [{| item_name := "RecordNewRound"; item_data := [x01; x02] |}].
Proof.
  split.
  - apply (proj1 (fetchLogs_action_list_spec bytes sample_Wrapper_parse
                    sample_lq_parse old_format_with_records _)).
    + split; [reflexivity|discriminate].
    + reflexivity.
  - apply (proj2 (fetchLogs_action_list_spec bytes sample_Wrapper_parse
                    sample_lq_parse old_format_without_records _)).
    + right. reflexivity.
    + reflexivity.
Defined.

(** C6 as stated fails: with a version before the cutoff and no flat
    record, the action list comes from the structured entries. *)
Lemma fetchLogs_action_list_old_version_uses_actions :
  ~ (forall payload : GameDetailRecords,
       records_version payload < 210715 ->
       fetchLogs_action_list bytes sample_Wrapper_parse sample_lq_parse payload
       = rmap (unwrap bytes sample_Wrapper_parse sample_lq_parse) (records payload)).
Proof.
  intros H. specialize (H old_format_without_records eq_refl).
  vm_compute in H. discriminate H.
Qed.

(** ** [MajsoulManager] *)

Lemma sessions_new_list m :
  is_Some (heap m !! conn m) -> sessions (new_list m).2 = sessions m.
Proof.
  intros Hm. unfold sessions, new_list. simpl.
  rewrite lookup_insert_ne; [done|].
  intros E. apply elem_of_dom in Hm. rewrite <- E in Hm.
  by apply is_fresh in Hm.
Qed.

Lemma new_list_is_new m :
  is_Some (heap m !! conn m) -> conn m <> (new_list m).1.
Proof.
  intros Hm E. apply elem_of_dom in Hm. simpl in E. rewrite E in Hm.
  by apply is_fresh in Hm.
Qed.

(** The guard of [is_online] never holds: the first session is always
    looked up. *)
Lemma is_online_unguarded m :
  is_Some (heap m !! conn m) ->
  is_online m = match sessions m with
                | [] => Err IndexError
                | c :: _ => Ok (inr c)
                end.
Proof.
  intros Hm. unfold is_online.
  pose proof (new_list_is_new m Hm) as Hne.
  pose proof (sessions_new_list m Hm) as Hs.
  destruct (new_list m) as [l m'] eqn:E. simpl in *.
  assert (conn m' = conn m) as Hc.
  { unfold new_list in E. by simplify_eq. }
  rewrite Hc, bool_decide_eq_false_2 by done.
  rewrite Hs. by destruct (sessions m).
Qed.

(** C10: on a manager whose session list is empty, [is_online] does not
    return [False]; it fails with the out-of-range indexing error, the
    identity test against a new empty list being false. *)
Theorem is_online_empty (m : MajsoulManager) :
  heap m !! conn m = Some [] ->
  is_online m = Err IndexError /\ is_online m <> Ok (inl false).
Proof.
  intros Hm.
  assert (is_online m = Err IndexError) as ->; [|done].
  rewrite is_online_unguarded by (by rewrite Hm).
  unfold sessions. by rewrite Hm.
Qed.

Lemma is_online_empty_witness :
  is_online (manager_of []) = Err IndexError
  /\ is_online (manager_of []) <> Ok (inl false).
Proof. apply is_online_empty. reflexivity. Defined.

Section ManagerProperties.

Variable get_all_cookie : list string.
Variable createMajsoulConnection : string -> result MajsoulConnection.
Variable fetchInfo : MajsoulConnection -> result MajsoulConnection.

Lemma start_loop_handles cookies : forall m,
  cancelled (start_loop createMajsoulConnection fetchInfo cookies m).1 = cancelled m
  /\ closed (start_loop createMajsoulConnection fetchInfo cookies m).1 = closed m.
Proof.
  induction cookies as [|tok rest IH]; intros m; simpl; [done|].
  destruct (createMajsoulConnection tok) as [c|]; [|done].
  destruct (fetchInfo c) as [c'|]; [|done].
  destruct (IH (append c' m)) as [-> ->]. done.
Qed.

(** [start] calls neither [cancel()] nor [close()]. *)
Lemma start_handles m :
  cancelled (start get_all_cookie createMajsoulConnection fetchInfo m).1 = cancelled m
  /\ closed (start get_all_cookie createMajsoulConnection fetchInfo m).1 = closed m.
Proof.
  unfold start. destruct (length (sessions m) =? 0)%nat; [|done].
  destruct get_all_cookie as [|tok rest] eqn:E; [done|].
  pose proof (start_loop_handles (tok :: rest) m) as H.
  destruct (start_loop _ _ (tok :: rest) m) as [m' r]. done.
Qed.

Lemma close_all_spec conns : forall m,
  Forall (fun c => is_Some (_ws c)) conns ->
  exists m', close_all conns m = (m', Ok tt)
    /\ heap m' = heap m /\ conn m' = conn m
    /\ cancelled m' = cancelled m
    /\ closed m' = list_to_set (transports conns) ∪ closed m.
Proof.
  induction conns as [|c conns IH]; intros m Hws; simpl.
  - exists m. repeat split; try done. set_solver.
  - inversion Hws as [|? ? [h Hh] Hrest]; subst.
    unfold transports. simpl. rewrite Hh. simpl.
    destruct (IH (close h m) Hrest) as (m' & -> & ? & ? & ? & Hcl).
    exists m'. repeat split; try done. rewrite Hcl. simpl.
    unfold transports. set_solver.
Qed.

Lemma cancel_each ts : forall m,
  heap (foldl (fun m t => cancel t m) m ts) = heap m
  /\ conn (foldl (fun m t => cancel t m) m ts) = conn m
  /\ closed (foldl (fun m t => cancel t m) m ts) = closed m
  /\ cancelled (foldl (fun m t => cancel t m) m ts) = list_to_set ts ∪ cancelled m.
Proof.
  induction ts as [|t ts IH]; intros m; simpl.
  - repeat split; try done. set_solver.
  - destruct (IH (cancel t m)) as (-> & -> & -> & ->). simpl.
    repeat split; try done. set_solver.
Qed.

(** What [restart] does before it starts again: it calls [cancel()] on
    the background tasks of the first session only, and [close()] on the
    transport of every session. *)
Lemma teardown_spec m first rest :
  sessions m = first :: rest ->
  Forall (fun c => is_Some (_ws c)) (sessions m) ->
  exists m', teardown m = (m', Ok tt)
    /\ heap m' = heap m /\ conn m' = conn m
    /\ cancelled m' = list_to_set (bg_tasks first) ∪ cancelled m
    /\ closed m' = list_to_set (transports (sessions m)) ∪ closed m.
Proof.
  intros Hs Hws. unfold teardown. rewrite Hs in Hws |- *.
  assert ((1 <=? length (first :: rest))%nat = true) as -> by done.
  destruct (cancel_each (bg_tasks first) m) as (Hh & Hc & Hcl & Hca).
  cbv zeta.
  assert (sessions (foldl (fun m t => cancel t m) m (bg_tasks first))
          = first :: rest) as ->.
  { unfold sessions. rewrite Hh, Hc. exact Hs. }
  destruct (close_all_spec (first :: rest)
              (foldl (fun m t => cancel t m) m (bg_tasks first)) Hws)
    as (m' & -> & ? & ? & ? & ?).
  exists m'. repeat split; congruence.
Qed.

(** After the teardown the session list is a new empty list and [start]
    runs on it. *)
Lemma restart_starts_over m m' :
  teardown m = (m', Ok tt) ->
  restart get_all_cookie createMajsoulConnection fetchInfo m
  = start get_all_cookie createMajsoulConnection fetchInfo (discard m')
  /\ sessions (discard m') = [].
Proof.
  intros H. unfold restart. rewrite H. split; [done|].
  unfold sessions, discard, new_list. simpl. by rewrite lookup_insert_eq.
Qed.

(** C7 at a manager holding two sessions: [restart] closes both
    transports and cancels the keep-alive task of the first session, and
    the keep-alive task of the second session is not cancelled. *)
Theorem restart_two_sessions :
  let m := (restart get_all_cookie createMajsoulConnection fetchInfo two_sessions).1 in
  background_tasks (sessions two_sessions) = [100%nat; 101%nat]
  /\ closed m = {[10%nat; 11%nat]}
  /\ 100%nat ∈ cancelled m
  /\ 101%nat ∉ cancelled m.
Proof.
  cbv zeta.
  destruct (teardown_spec two_sessions (connected 10 [100%nat])
              [connected 11 [101%nat]] eq_refl) as (m' & Ht & _ & _ & Hca & Hcl).
  { repeat constructor; by eexists. }
  destruct (restart_starts_over two_sessions m' Ht) as [-> _].
  destruct (start_handles (discard m')) as [-> ->].
  assert (cancelled (discard m') = cancelled m') as -> by done.
  assert (closed (discard m') = closed m') as -> by done.
  rewrite Hca, Hcl. simpl. split; [done|].
  change (sessions two_sessions) with [connected 10 [100%nat]; connected 11 [101%nat]].
  unfold transports. simpl. set_solver.
Qed.

End ManagerProperties.

(** ** The read-dispatch loop *)

Section DispatchProperties.

Variable ModeId2Room : gmap Z string.
Variable encode_account_id : Z -> Z.
Variable getTag : Z -> Z -> string.
Variable formatAdjustedScoreWithTag : Z -> Z -> Z -> string.
Variable MajsIsAutoApplyFriend : bool.
Variable decode_message : bytes -> result MajsoulDecodedMessage.

Local Abbreviation route' :=
  (route ModeId2Room encode_account_id getTag formatAdjustedScoreWithTag
     MajsIsAutoApplyFriend).
Local Abbreviation dispatch_msg' :=
  (dispatch_msg ModeId2Room encode_account_id getTag formatAdjustedScoreWithTag
     MajsIsAutoApplyFriend decode_message).

Lemma route_response_absent data c q :
  msg_type data = RESPONSE -> _req_events c !! req_index data = None ->
  route' data c q = (c, q).
Proof.
  intros Hk Hidx. unfold route. rewrite Hk, Hidx.
  rewrite bool_decide_eq_true_2 by done.
  rewrite bool_decide_eq_false_2 by (by intros [? ?]). done.
Qed.

Lemma route_response_present data c q :
  msg_type data = RESPONSE -> is_Some (_req_events c !! req_index data) ->
  route' data c q = (resolve (req_index data) data c, q).
Proof.
  intros Hk Hidx. unfold route. rewrite Hk.
  rewrite (bool_decide_eq_true_2 (RESPONSE = RESPONSE)) by done.
  rewrite (bool_decide_eq_true_2 _ Hidx).
  rewrite !bool_decide_eq_false_2 by done. done.
Qed.

(** C1: a RESPONSE frame whose index has no pending call is dropped, the
    loop goes on and nothing of the connection changes; for an index that
    has one, the message is stored under that index, the event of that
    index is set, and every other index keeps its event and its slot. *)
Theorem dispatch_msg_response (msg : bytes) (data : MajsoulDecodedMessage)
    (c : MajsoulConnection) (q : list (async unit)) :
  decode_message msg = Ok data ->
  msg_type data = RESPONSE ->
  (_req_events c !! req_index data = None ->
     dispatch_msg' (Binary msg) c q = Ok (c, q))
  /\ (is_Some (_req_events c !! req_index data) ->
      exists c',
        dispatch_msg' (Binary msg) c q = Ok (c', q)
        /\ _res c' !! req_index data = Some data
        /\ _req_events c' !! req_index data = Some true
        /\ (forall j, j <> req_index data ->
              _req_events c' !! j = _req_events c !! j
              /\ _res c' !! j = _res c !! j)
        /\ friends c' = friends c
        /\ friend_apply_list c' = friend_apply_list c
        /\ _ws c' = _ws c).
Proof.
  intros Hd Hk. unfold dispatch_msg. rewrite Hd. simpl. split.
  - intros Habsent. by rewrite route_response_absent.
  - intros Hpresent. exists (resolve (req_index data) data c).
    rewrite route_response_present by done.
    split; [done|]. simpl.
    rewrite !lookup_insert_eq. repeat split; try done.
    all: by rewrite lookup_insert_ne.
Qed.

End DispatchProperties.

Lemma dispatch_msg_response_witness :
  dispatch_msg sample_ModeId2Room sample_encode_account_id sample_getTag
    sample_formatAdjustedScoreWithTag false sample_decode_message
    (Binary [x03; x00]) awaiting_5 []
  = Ok (awaiting_5, [])
  /\ exists c',
       dispatch_msg sample_ModeId2Room sample_encode_account_id sample_getTag
         sample_formatAdjustedScoreWithTag false sample_decode_message
         (Binary [x03; x05]) awaiting_5 []
       = Ok (c', [])
       /\ _res c' !! 5 = Some (response 5 (liblq.ResCommon 0))
       /\ _req_events c' !! 5 = Some true.
Proof.
  split.
  - apply (dispatch_msg_response sample_ModeId2Room sample_encode_account_id
             sample_getTag sample_formatAdjustedScoreWithTag false
             sample_decode_message [x03; x00]
             (response 0 (liblq.ResMultiAccountBrief 0 [profile 7 "alice"]))
             awaiting_5 []); reflexivity.
  - destruct (proj2 (dispatch_msg_response sample_ModeId2Room
                       sample_encode_account_id sample_getTag
                       sample_formatAdjustedScoreWithTag false
                       sample_decode_message [x03; x05]
                       (response 5 (liblq.ResCommon 0)) awaiting_5 []
                       eq_refl eq_refl))
      as (c' & H1 & H2 & H3 & _).
    + exists false. reflexivity.
    + exists c'. auto.
Defined.

(** ** Friend-list changes *)

(** A [type == 1] notification appends a friend whether or not the
    account is in the registry. *)
Lemma FriendChange_add_appends account_id data_friend fs applies :
  (FriendChange_body account_id 1 data_friend fs applies).1.1
  = (fs ++ [MajsoulFriend.init data_friend])%list.
Proof. reflexivity. Qed.

(** So a [type == 1] notification for an account that is in the registry
    leaves two friends with that account id there. *)
Lemma FriendChange_add_duplicates account_id data_friend fs applies :
  account_id ∈ (MajsoulFriend.account_id <$> fs) ->
  liblq.account_id (liblq.base data_friend) = account_id ->
  ~ NoDup (MajsoulFriend.account_id <$>
             (FriendChange_body account_id 1 data_friend fs applies).1.1).
Proof.
  intros Hin Hid. rewrite FriendChange_add_appends, fmap_app.
  intros [_ [Hdisj _]]%NoDup_app. apply (Hdisj account_id Hin).
  simpl. rewrite Hid. apply list_elem_of_here.
Qed.

(** C3 at a registry that already holds account 7: after the [type == 1]
    notification for account 7 the registry holds two friends with
    account id 7, and the message emitted is the one of a new friend. *)
Theorem FriendChange_add_when_present :
  let s := run (handle_FriendChange alice_added) (world_with [alice_idle] Missing) in
  MajsoulFriend.account_id <$> friends (self (world_with [alice_idle] Missing)) = [7]
  /\ MajsoulFriend.account_id <$> friends (self s.1) = [7; 7]
  /\ emitted s = Some "账号成功添加好友 alice！".
Proof. vm_compute. done. Qed.

(** ** Friend state changes *)

Section StateChangeProperties.

Variable ModeId2Room : gmap Z string.
Variable encode_account_id : Z -> Z.

Local Abbreviation body := (FriendStateChange_body ModeId2Room encode_account_id).
Local Abbreviation loop' := (FriendStateChange_loop ModeId2Room encode_account_id).
Local Abbreviation handle := (handle_FriendStateChange ModeId2Room encode_account_id).

(** Outside the match-end transition a missing file and one that is not
    JSON count as the empty map, and the pass over the friend completes
    whenever the guarded read gives an object. *)
Lemma FriendStateChange_body_tolerant active_state friend f msg members :
  match_ended active_state friend = false ->
  load_or_empty f = Ok (JObject members) ->
  exists game_record msg',
    body active_state friend f msg
    = Ok (MajsoulFriend.change_state friend active_state, Object game_record, msg')
    /\ (game_record = members
        \/ game_record = <[liblq.game_uuid (liblq.playing active_state)
                           := JInt (MajsoulFriend.account_id friend)]> members).
Proof.
  unfold match_ended, FriendStateChange_body. intros H ->. simpl.
  destruct (str_bool (liblq.game_uuid (liblq.playing active_state))
            && negb (str_bool (liblq.game_uuid (MajsoulFriend.playing friend)))).
  - simpl. eauto.
  - simpl in H. rewrite H. simpl. eauto.
Qed.


(** A pass over a friend whose stored state is the snapshot changes
    neither the friend nor the message, and writes back what it read. *)
Lemma FriendStateChange_body_again active_state friend f msg :
  MajsoulFriend.state friend = active_state ->
  body active_state friend f msg
  = match load_or_empty f with
    | Err e => Err e
    | Ok game_record => Ok (friend, Holds game_record, msg)
    end.
Proof.
  intros <-. unfold FriendStateChange_body. destruct friend as [a n o p l l3].
  simpl. destruct (load_or_empty f); [|done]. simpl.
  destruct o, (str_bool (liblq.game_uuid p)), (liblq.message_bool p); done.
Qed.

Lemma body_Ok_inv active_state friend f msg friend' f' msg' :
  body active_state friend f msg = Ok (friend', f', msg') ->
  friend' = MajsoulFriend.change_state friend active_state
  /\ exists v, f' = Holds v.
Proof.
  unfold FriendStateChange_body. intros H.
  destruct (load_or_empty f) as [v0|]; simpl in H; [|done].
  destruct (str_bool _ && negb _); simpl in H.
  { destruct (setitem v0 _ _); simpl in H; simplify_eq; eauto. }
  destruct (negb _ && _); simpl in H; [|simplify_eq; eauto].
  destruct (load f) as [v1|]; simpl in H; [|done].
  destruct (setitem v1 _ _); simpl in H; simplify_eq; eauto.
Qed.

(** Once the file holds a value it holds one after the loop, however the
    loop ends. *)
Lemma FriendStateChange_loop_keeps_value target_user active_state fs :
  forall v msg fs' f' r,
  loop' target_user active_state fs (Holds v) msg = (fs', f', r) ->
  exists v', f' = Holds v'.
Proof.
  induction fs as [|friend rest IH]; intros v msg fs' f' r H; simpl in H.
  - simplify_eq. eauto.
  - destruct (MajsoulFriend.account_id friend =? target_user).
    + destruct (body active_state friend (Holds v) msg)
        as [[[friend1 f1] msg1]|e] eqn:Hb; [|simplify_eq; eauto].
      destruct (body_Ok_inv _ _ _ _ _ _ _ Hb) as [_ [v1 ->]].
      destruct (loop' target_user active_state rest (Holds v1) msg1)
        as [[rest1 f2] r2] eqn:Hl.
      simplify_eq. eauto.
    + destruct (loop' target_user active_state rest (Holds v) msg)
        as [[rest1 f2] r2] eqn:Hl.
      simplify_eq. eauto.
Qed.

Lemma FriendStateChange_loop_settles target_user active_state fs :
  forall f msg fs' f' msg',
  loop' target_user active_state fs f msg = (fs', f', Ok msg') ->
  settled target_user active_state fs' /\ written target_user fs' f'.
Proof.
  induction fs as [|friend rest IH]; intros f msg fs' f' msg' H; simpl in H.
  - simplify_eq. split; [constructor|right; constructor].
  - destruct (Z.eqb_spec (MajsoulFriend.account_id friend) target_user) as [Heq|Hne].
    + destruct (body active_state friend f msg) as [[[friend1 f1] msg1]|e] eqn:Hb;
        [|by simplify_eq].
      destruct (loop' target_user active_state rest f1 msg1)
        as [[rest1 f2] r] eqn:Hl.
      simplify_eq.
      destruct (body_Ok_inv _ _ _ _ _ _ _ Hb) as [-> [v ->]].
      destruct (IH _ _ _ _ _ Hl) as [Hs _].
      destruct (FriendStateChange_loop_keeps_value _ _ _ _ _ _ _ _ Hl) as [v' ->].
      split; [|left; eauto].
      constructor; [|done]. intros _. by destruct active_state.
    + destruct (loop' target_user active_state rest f msg)
        as [[rest1 f2] r] eqn:Hl.
      simplify_eq. destruct (IH _ _ _ _ _ Hl) as [Hs Hw].
      split; [by constructor|].
      destruct Hw as [Hw|Hw]; [by left|right; by constructor].
Qed.

(** A second pass over a settled registry changes nothing and leaves the
    message as it is. *)
Lemma FriendStateChange_loop_again target_user active_state fs :
  forall f msg,
  settled target_user active_state fs -> written target_user fs f ->
  loop' target_user active_state fs f msg = (fs, f, Ok msg).
Proof.
  induction fs as [|friend rest IH]; intros f msg Hs Hw; simpl; [done|].
  inversion Hs as [|? ? Hfriend Hrest]; subst.
  destruct (Z.eqb_spec (MajsoulFriend.account_id friend) target_user) as [Heq|Hne].
  - rewrite FriendStateChange_body_again by auto.
    destruct Hw as [[v ->]|Hw]; [|by inversion Hw].
    simpl. rewrite IH; [done|done|left; eauto].
  - rewrite IH; [done|done|].
    destruct Hw as [Hw|Hw]; [by left|right; by inversion Hw].
Qed.

(** Replaying a state-change notification whose first application
    completed: the second application emits nothing and leaves the world,
    in which every friend with the target id carries the snapshot, as it
    is. *)
Lemma handle_FriendStateChange_replay notify target_user active_state w :
  payload notify = liblq.NotifyFriendStateChange target_user active_state ->
  raised (run (handle notify) w) = None ->
  let w1 := (run (handle notify) w).1 in
  settled target_user active_state (friends (self w1))
  /\ run (handle notify) w1 = (w1, Finished (Ok tt)).
Proof.
  intros Hp. unfold handle_FriendStateChange. rewrite Hp. simpl.
  destruct (loop' target_user active_state (friends (self w))
              (game_record_json w) "") as [[fs f] r] eqn:Hl.
  simpl. destruct r as [msg|e]; simpl.
  - intros _. destruct (FriendStateChange_loop_settles _ _ _ _ _ _ _ _ Hl) as [Hs Hw].
    assert ((if str_bool msg
             then run (await (SendMsgToUser (pretty target_user) msg))
                      (with_file f (on_self (with_friends fs) w))
             else run (Return tt) (with_file f (on_self (with_friends fs) w))).1
            = with_file f (on_self (with_friends fs) w)) as Hw1.
    { by destruct (str_bool msg). }
    assert (forall (b : bool) m1 m2 (w0 : world),
              run (if b then m1 else m2) w0
              = if b then run m1 w0 else run (A:=unit) m2 w0) as Hif
      by (by intros []).
    rewrite Hif, Hw1. simpl. split; [done|].
    rewrite (FriendStateChange_loop_again _ _ _ _ _ Hs Hw). simpl.
    by destruct w as [[] ?].
  - unfold raised. simpl. done.
Qed.

(** C4 at the match-end transition: with [game_record.json] missing the
    handler ends with [FileNotFoundError], with an unparsable file with
    [JSONDecodeError]; no event is emitted and the friend's stored state
    is not replaced. *)
Theorem FriendStateChange_match_end_unreadable_file :
  match_ended online_idle alice_playing = true
  /\ raised (run (handle alice_left_game) (world_with [alice_playing] Missing))
     = Some FileNotFoundError
  /\ raised (run (handle alice_left_game) (world_with [alice_playing] Unparsable))
     = Some JSONDecodeError
  /\ (run (handle alice_left_game) (world_with [alice_playing] Missing)).1
     = world_with [alice_playing] Missing.
Proof. by vm_compute. Qed.

(** C5 at the same input: the notification "alice left her match" applied
    twice with [game_record.json] missing emits no event on either
    application, and after each application the stored state of alice is
    still the old one, not the snapshot. *)
Theorem FriendStateChange_replay_unreadable_file :
  let w0 := world_with [alice_playing] Missing in
  let first := run (handle alice_left_game) w0 in
  let second := run (handle alice_left_game) first.1 in
  stored 7 (friends (self w0)) = [alice_playing]
  /\ emitted first = None /\ raised first = Some FileNotFoundError
  /\ MajsoulFriend.state <$> stored 7 (friends (self first.1))
     = [online_playing "g1"]
  /\ emitted second = None /\ raised second = Some FileNotFoundError
  /\ MajsoulFriend.state <$> stored 7 (friends (self second.1))
     = [online_playing "g1"]
  /\ online_playing "g1" <> online_idle.
Proof. by vm_compute. Qed.

End StateChangeProperties.

(** With the file in place the same replay behaves as C5 says: the event
    on the first application only, the snapshot stored after each. *)
Lemma FriendStateChange_replay_readable_file :
  let handle := handle_FriendStateChange sample_ModeId2Room sample_encode_account_id in
  let w0 := world_with [alice_playing] (Object ∅) in
  let first := run (handle alice_left_game) w0 in
  let second := run (handle alice_left_game) first.1 in
  is_Some (emitted first)
  /\ MajsoulFriend.state <$> stored 7 (friends (self first.1)) = [online_idle]
  /\ emitted second = None /\ raised second = None
  /\ MajsoulFriend.state <$> stored 7 (friends (self second.1)) = [online_idle].
Proof.
  cbv zeta.
  pose proof (handle_FriendStateChange_replay sample_ModeId2Room
                sample_encode_account_id alice_left_game 7 online_idle
                (world_with [alice_playing] (Object ∅)) eq_refl) as H.
  destruct H as [_ H]; [by vm_compute|].
  rewrite H. split; [by vm_compute; eexists|]. by vm_compute.
Qed.

(** ** Calls and the login sequence *)

Section CallProperties.

Variable ModeId2Room : gmap Z string.
Variable encode_account_id : Z -> Z.
Variable getTag : Z -> Z -> string.
Variable formatAdjustedScoreWithTag : Z -> Z -> Z -> string.
Variable MajsIsAutoApplyFriend : bool.

Local Abbreviation serve' :=
  (serve ModeId2Room encode_account_id getTag formatAdjustedScoreWithTag
     MajsIsAutoApplyFriend).

(** [serve] runs a sequence by running its parts in turn. *)
Lemma serve_bind {A B : Type} (m : async A) (k : A -> async B) : forall w replies,
  serve' (m ≫= k) w replies
  = match serve' m w replies with
    | (log, w', Done (Ok a), rest) =>
        let '(log', w'', o, rest') := serve' (k a) w' rest in
        ((log ++ log')%list, w'', o, rest')
    | (log, w', Done (Err e), rest) => (log, w', Done (Err e), rest)
    | (log, w', Pending, rest) => (log, w', Pending, rest)
    end.
Proof.
  induction m as [a|e|f IH|w0 m IH|on m IH]; intros w replies.
  - simpl. by destruct (serve' (k a) w replies) as [[[? ?] ?] ?].
  - done.
  - apply IH.
  - apply IH.
  - change (Await on m ≫= k) with (Await on (m ≫= k)).
    destruct on as [idx| | | |]; simpl.
    2-5: rewrite IH; destruct (serve' m w replies) as [[[log w'] [[a|e]|]] rest];
         [destruct (serve' (k a) w' rest) as [[[? ?] ?] ?]|..]; done.
    destruct replies as [|p replies]; [done|].
    case_bool_decide; [|done].
    rewrite IH.
    match goal with
    | |- context [serve' m ?w0 replies] =>
        destruct (serve' m w0 replies) as [[[log w'] [[a|e]|]] rest]
    end; [destruct (serve' (k a) w' rest) as [[[? ?] ?] ?]|..]; done.
Qed.

Lemma serve_lift {A : Type} (r : result A) w replies :
  serve' (lift r) w replies
  = match r with
    | Ok a => ([], w, Done (Ok a), replies)
    | Err e => ([], w, Done (Err e), replies)
    end.
Proof. by destruct r. Qed.

Lemma serve_get w replies : serve' get w replies = ([], w, Done (Ok w), replies).
Proof. done. Qed.

Lemma serve_modify f w replies :
  serve' (modify f) w replies = ([], f w, Done (Ok tt), replies).
Proof. done. Qed.

Lemma serve_Return {A : Type} (a : A) w replies :
  serve' (Return a) w replies = ([], w, Done (Ok a), replies).
Proof. done. Qed.

Lemma serve_await on w replies :
  (forall idx, on <> EventWait idx) ->
  serve' (await on) w replies = ([on], w, Done (Ok tt), replies).
Proof. intros H. destruct on; try done. by destruct (H idx). Qed.

(** Waiting for the event of a registered index: the answer goes through
    [route], which stores it and sets the event. *)
Lemma serve_event_wait idx w p replies :
  is_Some (_req_events (self w) !! idx) ->
  serve' (await (EventWait idx)) w (p :: replies)
  = ([EventWait idx], on_self (resolve idx (response idx p)) w, Done (Ok tt), replies).
Proof.
  intros Hreg. unfold await. cbn [serve].
  assert (forall c, is_Some (_req_events c !! idx) ->
            (route ModeId2Room encode_account_id getTag formatAdjustedScoreWithTag
               MajsIsAutoApplyFriend (response idx p) c []).1
            = resolve idx (response idx p) c) as Hroute.
  { intros c Hc. by rewrite route_response_present. }
  change {| msg_type := RESPONSE; req_index := idx; method_name := "";
            payload := p |} with (response idx p).
  assert (on_self (fun c =>
            (route ModeId2Room encode_account_id getTag formatAdjustedScoreWithTag
               MajsIsAutoApplyFriend (response idx p) c []).1) w
          = on_self (resolve idx (response idx p)) w) as ->.
  { unfold on_self. by rewrite Hroute. }
  rewrite bool_decide_eq_true_2; [done|].
  simpl. by rewrite lookup_insert_eq.
Qed.

(** A call on a connected transport that the service answers: the request
    goes out with the current index, the caller waits for the event of
    that index, and gets the payload of the answer. *)
Lemma serve_rpc_call method args w p replies :
  is_Some (_ws (self w)) ->
  serve' (rpc_call method args) w (p :: replies)
  = ([WsSend {| request_index := codec_index (self w);
                request_method := method; request_payload := args |};
      EventWait (codec_index (self w))],
     answered w, Done (Ok p), replies).
Proof.
  intros [h Hws]. unfold rpc_call.
  rewrite serve_bind, serve_get. cbv beta iota zeta.
  rewrite Hws, bool_decide_eq_false_2 by done.
  rewrite serve_bind, serve_modify. cbv beta iota zeta.
  rewrite serve_bind, serve_modify. cbv beta iota zeta.
  rewrite serve_bind, serve_await by done. cbv beta iota zeta.
  rewrite serve_bind, serve_event_wait by (simpl; rewrite lookup_insert_eq; eauto).
  cbv beta iota zeta.
  rewrite serve_bind, serve_get. cbv beta iota zeta.
  rewrite serve_bind, serve_lift.
  assert (_res (self (on_self
            (resolve (codec_index (self w)) (response (codec_index (self w)) p))
            (on_self (register_event (codec_index (self w)))
               (on_self (with_codec_index (codec_index (self w) + 1)) w))))
          !! codec_index (self w)
          = Some (response (codec_index (self w)) p)) as ->.
  { simpl. by rewrite lookup_insert_eq. }
  cbv beta iota zeta.
  rewrite serve_bind, serve_modify. cbv beta iota zeta.
  rewrite serve_Return. simpl.
  do 3 f_equal. unfold answered, on_self, forget_call, with_correlation. simpl.
  destruct w as [c f]. simpl. f_equal. f_equal.
  - by rewrite !delete_insert_eq.
  - by rewrite delete_insert_eq.
Qed.

(** A call the service never answers: the caller stays suspended. *)
Lemma serve_rpc_call_unanswered method args w :
  is_Some (_ws (self w)) ->
  serve' (rpc_call method args) w []
  = ([WsSend {| request_index := codec_index (self w);
                request_method := method; request_payload := args |};
      EventWait (codec_index (self w))],
     asked w, Pending, []).
Proof.
  intros [h Hws]. unfold rpc_call. simpl. rewrite Hws. done.
Qed.

Lemma answered_ws w : _ws (self (answered w)) = _ws (self w).
Proof. done. Qed.

Lemma serve_Raise {A : Type} (e : exn) w replies :
  serve' (Raise e : async A) w replies = ([], w, Done (Err e), replies).
Proof. done. Qed.

Ltac serve_step :=
  first [ progress (cbv beta iota zeta;
                    cbn [attr_has_account attr_login attr_error_code negb])
        | rewrite serve_bind
        | rewrite serve_rpc_call by (simpl; eauto)
        | rewrite serve_rpc_call_unanswered by (simpl; eauto)
        | rewrite serve_lift
        | rewrite serve_modify
        | rewrite serve_get
        | rewrite serve_await by done
        | rewrite serve_Return
        | rewrite serve_Raise ].

Ltac login_sent :=
  do 4 eexists; split; [reflexivity|];
  split; [reflexivity|]; split; [reflexivity|];
  eexists; split; [reflexivity|]; split; [reflexivity|]; simpl; lia.

(** C8: when the first token validation reports no linked account, the
    client pauses and validates once more.  If the second answer reports
    no account either, the login ends with the error right there; if it
    reports an account, the login request is sent next, and whatever
    follows there are two validation requests and one pause in all.  When
    the service then answers the login and the login beat, the login
    completes. *)
Theorem accessTokenLogin_retries_once (version access_token random_key : string)
    (w : world) (replies : list liblq.payload) :
  is_Some (_ws (self w)) ->
  let i := codec_index (self w) in
  let login := accessTokenLogin version access_token random_key in
  serve' login w (liblq.ResOauth2Check false :: liblq.ResOauth2Check false :: replies)
  = (retried access_token i, answered (answered w),
     Done (Err (ValueError "Failed to check account")), replies)
  /\ (exists log w' o rest,
        serve' login w
          (liblq.ResOauth2Check false :: liblq.ResOauth2Check true :: replies)
        = ((retried access_token i ++ log)%list, w', o, rest)
        /\ calls ".lq.Lobby.oauth2Check" (retried access_token i ++ log)
           = [check_request access_token i; check_request access_token (i + 1)]
        /\ sleeps (retried access_token i ++ log) = [2]
        /\ exists req, head log = Some (WsSend req)
             /\ request_method req = ".lq.Lobby.oauth2Login"
             /\ request_index req = i + 2)
  /\ (forall account nickname rest,
        account <> 0 ->
        replies = liblq.ResLogin account nickname 0 :: liblq.ResCommon 0 :: rest ->
        exists log w',
          serve' login w
            (liblq.ResOauth2Check false :: liblq.ResOauth2Check true :: replies)
          = (log, w', Done (Ok tt), rest)
          /\ account_id (self w') = account /\ nick_name (self w') = nickname).
Proof.
  intros Hws i login. subst login. unfold accessTokenLogin, oauth2Check.
  split; [|split].
  - repeat serve_step. reflexivity.
  - repeat serve_step.
    destruct replies as [|p replies]; repeat serve_step; [login_sent|].
    destruct p as [| |account nickname code| | | | | | |];
      repeat serve_step; try login_sent.
    unfold int_bool. destruct (account =? 0); cbn [negb];
      repeat serve_step; [login_sent|].
    destruct replies as [|q replies]; repeat serve_step; [login_sent|].
    destruct q as [c| |? ? c|c ?| | | | | |]; repeat serve_step; try login_sent.
    all: destruct (c =? 0); cbn [negb]; repeat serve_step; login_sent.
  - intros account nickname rest Hacc ->. repeat serve_step.
    unfold int_bool. rewrite (proj2 (Z.eqb_neq account 0) Hacc). cbn [negb].
    repeat serve_step. change (0 =? 0) with true. cbn [negb].
    repeat serve_step. do 2 eexists. split; [reflexivity|]. done.
Qed.

End CallProperties.

Lemma accessTokenLogin_retries_once_witness :
  serve sample_ModeId2Room sample_encode_account_id sample_getTag
    sample_formatAdjustedScoreWithTag false
    (accessTokenLogin "0.11.100.w" "token" "key") (world_with [] Missing)
    [liblq.ResOauth2Check false; liblq.ResOauth2Check false]
  = (retried "token" 0, answered (answered (world_with [] Missing)),
     Done (Err (ValueError "Failed to check account")), [])
  /\ exists log w',
       serve sample_ModeId2Room sample_encode_account_id sample_getTag
         sample_formatAdjustedScoreWithTag false
         (accessTokenLogin "0.11.100.w" "token" "key") (world_with [] Missing)
         [liblq.ResOauth2Check false; liblq.ResOauth2Check true;
          liblq.ResLogin 7 "alice" 0; liblq.ResCommon 0]
       = (log, w', Done (Ok tt), [])
       /\ account_id (self w') = 7 /\ nick_name (self w') = "alice".
Proof.
  split.
  - apply (accessTokenLogin_retries_once sample_ModeId2Room sample_encode_account_id
             sample_getTag sample_formatAdjustedScoreWithTag false
             "0.11.100.w" "token" "key" (world_with [] Missing) []).
    exists 10%nat. reflexivity.
  - apply (proj2 (proj2 (accessTokenLogin_retries_once sample_ModeId2Room
                           sample_encode_account_id sample_getTag
                           sample_formatAdjustedScoreWithTag false
                           "0.11.100.w" "token" "key" (world_with [] Missing)
                           [liblq.ResLogin 7 "alice" 0; liblq.ResCommon 0]
                           (ex_intro _ 10%nat eq_refl)))
             7 "alice" []); [lia|reflexivity].
Defined.

(** ** The event loop *)

Lemma split_started_spec ts : forall before rest,
  split_started ts = (before, rest) ->
  ts = (before ++ rest)%list
  /\ forallb (fun t' => negb (not_started t')) before = true
  /\ match rest with
     | t :: _ => waiting t = None
     | [] => True
     end.
Proof.
  induction ts as [|t ts IH]; intros before rest H; simpl in H.
  - by simplify_eq.
  - destruct (not_started t) eqn:Ht.
    + simplify_eq. repeat split. unfold not_started in Ht.
      by destruct (waiting t).
    + destruct (split_started ts) as [b r]. simplify_eq.
      destruct (IH b rest eq_refl) as (-> & Hb & Hr).
      repeat split; [|done]. simpl. by rewrite Ht, Hb.
Qed.

Lemma ready_dec_ready on w : ready_dec on w = true -> ready on w.
Proof. destruct on; simpl; try done. by intros ?%bool_decide_eq_true. Qed.

Section LoopProperties.

Variable ModeId2Room : gmap Z string.
Variable encode_account_id : Z -> Z.
Variable getTag : Z -> Z -> string.
Variable formatAdjustedScoreWithTag : Z -> Z -> Z -> string.
Variable MajsIsAutoApplyFriend : bool.
Variable decode_message : bytes -> result MajsoulDecodedMessage.

Local Abbreviation step' :=
  (step ModeId2Room encode_account_id getTag formatAdjustedScoreWithTag
     MajsIsAutoApplyFriend decode_message).
Local Abbreviation reachable' :=
  (reachable ModeId2Room encode_account_id getTag formatAdjustedScoreWithTag
     MajsIsAutoApplyFriend decode_message).
Local Abbreviation notified' :=
  (notified ModeId2Room encode_account_id getTag formatAdjustedScoreWithTag
     MajsIsAutoApplyFriend decode_message).
Local Abbreviation exec' :=
  (exec ModeId2Room encode_account_id getTag formatAdjustedScoreWithTag
     MajsIsAutoApplyFriend decode_message).
Local Abbreviation run_schedule' :=
  (run_schedule ModeId2Room encode_account_id getTag formatAdjustedScoreWithTag
     MajsIsAutoApplyFriend decode_message).

(** Every turn of a schedule is a step of the event loop. *)
Lemma exec_step ch l l' : exec' ch l = Some l' -> step' l l'.
Proof.
  destruct ch as [msg| | |n]; simpl; intros H.
  - destruct (dispatching l) eqn:Hd; [|done].
    destruct (dispatch_msg _ _ _ _ _ _ msg _ _) as [[c q]|e] eqn:Hm;
      simplify_eq; [by apply step_recv|by eapply step_recv_raise].
  - destruct (queue l) as [|data q] eqn:Hq; simplify_eq.
    by apply step_process.
  - destruct (split_started (tasks l)) as [before [|t after]] eqn:Hs; simplify_eq.
    destruct (split_started_spec _ _ _ Hs) as (Ht & Hb & Hw).
    by apply step_start.
  - destruct (tasks l !! n) as [t|] eqn:Ht; [|done].
    destruct (waiting t) as [on|] eqn:Hw; [|done].
    destruct (ready_dec on (the_world l)) eqn:Hr; simplify_eq.
    eapply step_resume; [|done|by apply ready_dec_ready].
    by rewrite take_drop_middle.
Qed.

Lemma run_schedule_steps chs : forall l l',
  run_schedule' chs l = Some l' -> rtc step' l l'.
Proof.
  induction chs as [|ch chs IH]; intros l l' H; simpl in H.
  - simplify_eq. apply rtc_refl.
  - destruct (exec' ch l) as [l1|] eqn:E; [|done].
    eapply rtc_l; [by apply (exec_step ch)|by apply IH].
Qed.

Lemma run_schedule_reachable chs w l :
  run_schedule' chs (boot w) = Some l -> reachable' w l.
Proof. apply run_schedule_steps. Qed.

(** What a frame adds to the queue. *)
Lemma dispatch_msg_queue msg c q c' q' :
  dispatch_msg ModeId2Room encode_account_id getTag formatAdjustedScoreWithTag
    MajsIsAutoApplyFriend decode_message msg c q = Ok (c', q') ->
  q' = (q ++ notified' [Received msg])%list.
Proof.
  unfold dispatch_msg, notified. destruct msg as [b|s]; [|done]. simpl.
  destruct (decode_message b) as [data|e]; [|done]. simpl.
  intros [= H]. apply (f_equal snd) in H. simpl in H. subst q'. unfold route.
  destruct (msg_type data); simpl.
  - unfold put_nowait. destruct (handle_notify _ _ _ _ _ data); simpl; [done|].
    by rewrite app_nil_r.
  - by rewrite app_nil_r.
  - rewrite app_nil_r. by case_match.
Qed.

Lemma dispatch_msg_raise msg c q e :
  dispatch_msg ModeId2Room encode_account_id getTag formatAdjustedScoreWithTag
    MajsIsAutoApplyFriend decode_message msg c q = Err e ->
  notified' [Received msg] = [].
Proof.
  unfold dispatch_msg, notified. destruct msg as [b|s]; [|done]. simpl.
  by destruct (decode_message b).
Qed.

Lemma notified_app tr tr' : notified' (tr ++ tr') = (notified' tr ++ notified' tr')%list.
Proof. apply omap_app. Qed.

Lemma started_app tr tr' : started (tr ++ tr') = (started tr ++ started tr')%list.
Proof. apply omap_app. Qed.

Lemma filter_started_before before :
  forallb (fun t' => negb (not_started t')) before = true ->
  List.filter not_started before = [].
Proof.
  induction before as [|t before IH]; simpl; [done|].
  intros [Ht Hb]%andb_true_iff. apply negb_true_iff in Ht. rewrite Ht. auto.
Qed.

Lemma turn_first t l before after :
  tasks l = (before ++ t :: after)%list ->
  waiting t = None ->
  forallb (fun t' => negb (not_started t')) before = true ->
  started (trace (turn t l before after)) = (started (trace l) ++ [code t])%list
  /\ notified' (trace (turn t l before after)) = notified' (trace l)
  /\ to_begin l = code t :: to_begin (turn t l before after).
Proof.
  intros Ht Hw Hb.
  assert (not_started t = true) as Hns by (unfold not_started; by rewrite Hw).
  pose proof (filter_started_before _ Hb) as Hf.
  unfold turn, to_begin. rewrite Hw, Ht.
  destruct (run (code t) (the_world l)) as [w [r|on k]]; simpl;
    rewrite started_app, notified_app, !List.filter_app, Hf; simpl;
    rewrite Hns, ?app_nil_r; done.
Qed.

Lemma turn_next t l before after on :
  tasks l = (before ++ t :: after)%list ->
  waiting t = Some on ->
  started (trace (turn t l before after)) = started (trace l)
  /\ notified' (trace (turn t l before after)) = notified' (trace l)
  /\ to_begin (turn t l before after) = to_begin l.
Proof.
  intros Ht Hw.
  assert (not_started t = false) as Hns by (unfold not_started; by rewrite Hw).
  unfold turn, to_begin. rewrite Hw, Ht.
  destruct (run (code t) (the_world l)) as [w [r|on' k]]; simpl;
    rewrite started_app, notified_app, !List.filter_app; simpl;
    rewrite Hns, ?app_nil_r; done.
Qed.

(** C2, as the code has it: the worker [process] makes a task of every
    handler in the order in which the notifications arrived and the tasks
    take their first turn in that order; the handlers begun, followed by
    those still to begin, are the handlers of the notifications received,
    in arrival order.  (The worker does not wait for a handler to finish.) *)
Theorem handlers_begin_in_arrival_order (w : world) (l : loop) :
  reachable' w l ->
  (started (trace l) ++ to_begin l)%list = notified' (trace l).
Proof.
  intros H. unfold reachable in H. revert l H.
  apply (rtc_ind_r (fun l => (started (trace l) ++ to_begin l)%list
                             = notified' (trace l)) (boot w)); [done|].
  intros l1 l2 Hreach Hstep IH.
  destruct Hstep as [msg c q Hd Hm|msg e Hd Hm|data q Hq
                     |before t after Ht Hw Hb|before t after on Ht Hw Hr].
  - apply dispatch_msg_queue in Hm as ->.
    unfold to_begin in *. simpl.
    rewrite started_app, notified_app, <- IH. simpl.
    by rewrite app_nil_r, !app_assoc.
  - apply dispatch_msg_raise in Hm.
    unfold to_begin in *. simpl.
    rewrite started_app, notified_app, Hm, <- IH. simpl.
    by rewrite !app_nil_r.
  - unfold to_begin in *. simpl. rewrite <- IH, Hq.
    rewrite List.filter_app, fmap_app. simpl.
    by rewrite <- !app_assoc.
  - destruct (turn_first t l1 before after Ht Hw Hb) as (-> & -> & Hq).
    rewrite <- IH, Hq. by rewrite <- app_assoc.
  - destruct (turn_next t l1 before after on Ht Hw) as (-> & -> & ->). done.
Qed.

End LoopProperties.

Lemma handlers_begin_in_arrival_order_witness :
  exists l, sample_run apply_then_added = Some l
    /\ (started (trace l) ++ to_begin l)%list
       = notified sample_ModeId2Room sample_encode_account_id sample_getTag
           sample_formatAdjustedScoreWithTag false sample_decode_message (trace l).
Proof.
  destruct (sample_run apply_then_added) as [l|] eqn:E; [|by vm_compute in E].
  exists l. split; [reflexivity|].
  apply (handlers_begin_in_arrival_order sample_ModeId2Room sample_encode_account_id
           sample_getTag sample_formatAdjustedScoreWithTag false
           sample_decode_message (world_with [] Missing) l).
  exact (run_schedule_reachable _ _ _ _ _ _ _ _ _ E).
Defined.

(** C2 as stated fails: while the handler of a friend application waits
    for the answer to its call, the handler of the next notification takes
    its turn; two handlers of the connection are in progress at once. *)
Lemma handlers_overlap :
  ~ (forall l,
       reachable sample_ModeId2Room sample_encode_account_id sample_getTag
         sample_formatAdjustedScoreWithTag false sample_decode_message
         (world_with [] Missing) l ->
       (length (in_progress l) <= 1)%nat).
Proof.
  intros H.
  destruct (sample_run apply_then_added) as [l|] eqn:E; [|by vm_compute in E].
  pose proof (H l (run_schedule_reachable _ _ _ _ _ _ _ _ _ E)) as Hl.
  assert ((fun l => length (in_progress l)) <$> sample_run apply_then_added
          = Some 2%nat) as Hc by (by vm_compute).
  rewrite E in Hc. simpl in Hc. injection Hc as Hc. lia.
Qed.

(** The same run to its end: the second handler begins and ends between
    two turns of the first, and the first then puts the application of
    account 7 back on the pending list although 7 is a friend by now. *)
Lemma handlers_interleave :
  (fun l => (omap (fun e => match e with
                            | Started n _ => Some (n, false)
                            | Ended n _ => Some (n, true)
                            | Received _ => None
                            end) (trace l),
             MajsoulFriend.account_id <$> friends (self (the_world l)),
             friend_apply_list (self (the_world l))))
    <$> sample_run apply_then_added_to_the_end
  = Some ([(0, false); (1, false); (1, true); (0, true)]%nat, [7], [7]).
Proof. by vm_compute. Qed.

(** * Further properties *)

(** ** Routing of frames *)

Section RoutingProperties.

Variable ModeId2Room : gmap Z string.
Variable encode_account_id : Z -> Z.
Variable getTag : Z -> Z -> string.
Variable formatAdjustedScoreWithTag : Z -> Z -> Z -> string.
Variable MajsIsAutoApplyFriend : bool.
Variable decode_message : bytes -> result MajsoulDecodedMessage.

Local Abbreviation route' :=
  (route ModeId2Room encode_account_id getTag formatAdjustedScoreWithTag
     MajsIsAutoApplyFriend).
Local Abbreviation dispatch_msg' :=
  (dispatch_msg ModeId2Room encode_account_id getTag formatAdjustedScoreWithTag
     MajsIsAutoApplyFriend decode_message).
Local Abbreviation handle_notify' :=
  (handle_notify ModeId2Room encode_account_id getTag formatAdjustedScoreWithTag
     MajsIsAutoApplyFriend).

Lemma handle_notify_known data :
  is_Some (handle_notify' data) <-> method_name data ∈ notification_methods.
Proof.
  unfold handle_notify, notification_methods.
  rewrite list_elem_of_In. simpl.
  destruct (String.eqb_spec (method_name data) ".lq.NotifyFriendStateChange")
    as [->|?]; [split; [intros _; auto 10|intros _; by eexists]|].
  destruct (String.eqb_spec (method_name data) ".lq.NotifyFriendViewChange")
    as [->|?]; [split; [intros _; auto 10|intros _; by eexists]|].
  destruct (String.eqb_spec (method_name data) ".lq.NotifyNewFriendApply")
    as [->|?]; [split; [intros _; auto 10|intros _; by eexists]|].
  destruct (String.eqb_spec (method_name data) ".lq.NotifyFriendChange")
    as [->|?]; [split; [intros _; auto 10|intros _; by eexists]|].
  destruct (String.eqb_spec (method_name data) ".lq.NotifyAnotherLogin")
    as [->|?]; [split; [intros _; auto 10|intros _; by eexists]|].
  split; [by intros [? ?]|]. intros H. exfalso. intuition congruence.
Qed.

(** X1: a NOTIFY or REQUEST frame never touches the connection; a REQUEST
    and a NOTIFY for a method the client does not know leave the queue as
    it is, and a NOTIFY for a known method adds one handler at its end. *)
Theorem dispatch_msg_other_kinds (msg : bytes) (data : MajsoulDecodedMessage)
    (c : MajsoulConnection) (q : list (async unit)) :
  decode_message msg = Ok data ->
  msg_type data <> RESPONSE ->
  exists q',
    dispatch_msg' (Binary msg) c q = Ok (c, q')
    /\ (msg_type data = REQUEST -> q' = q)
    /\ (method_name data ∉ notification_methods -> q' = q)
    /\ (msg_type data = NOTIFY -> method_name data ∈ notification_methods ->
        exists h, q' = (q ++ [h])%list).
Proof.
  intros Hd Hk. unfold dispatch_msg. rewrite Hd. simpl. unfold route.
  destruct (msg_type data) eqn:E; [| |done].
  - simpl. destruct (handle_notify' data) as [h|] eqn:Hh.
    + exists (q ++ [h])%list. repeat split; [done| |eauto].
      intros Hn. destruct Hn. apply handle_notify_known. by rewrite Hh.
    + exists q. repeat split; try done.
      intros _ Hn%handle_notify_known. rewrite Hh in Hn. by destruct Hn.
  - simpl. exists q. repeat split; try done.
Qed.

(** X2: the event of an index is set after a frame exactly when it was set
    before or the frame is a RESPONSE with that index and the index has an
    event: no other frame and no other index wakes the caller. *)
Theorem route_sets_event_iff (data : MajsoulDecodedMessage) (c : MajsoulConnection)
    (q : list (async unit)) (i : Z) :
  _req_events (route' data c q).1 !! i = Some true
  <-> _req_events c !! i = Some true
      \/ (msg_type data = RESPONSE /\ req_index data = i
          /\ is_Some (_req_events c !! i)).
Proof.
  unfold route. destruct (msg_type data) eqn:E; simpl.
  - split; [auto|]. by intros [?|[? _]].
  - split; [auto|]. by intros [?|[? _]].
  - case_bool_decide as Hp; simpl.
    + destruct (decide (req_index data = i)) as [<-|Hne].
      * rewrite lookup_insert_eq. split; [auto|done].
      * rewrite lookup_insert_ne by done.
        split; [auto|]. by intros [?|(_ & ? & _)].
    + split; [auto|]. intros [?|(_ & <- & ?)]; done.
Qed.

End RoutingProperties.

Lemma dispatch_msg_other_kinds_witness :
  exists q',
    dispatch_msg sample_ModeId2Room sample_encode_account_id sample_getTag
      sample_formatAdjustedScoreWithTag false sample_decode_message
      (Binary [x01; x07]) awaiting_5 [] = Ok (awaiting_5, q')
    /\ exists h, q' = [h].
Proof.
  destruct (dispatch_msg_other_kinds sample_ModeId2Room sample_encode_account_id
              sample_getTag sample_formatAdjustedScoreWithTag false
              sample_decode_message [x01; x07]
              (notification ".lq.NotifyNewFriendApply" (liblq.NotifyNewFriendApply 7))
              awaiting_5 [] eq_refl)
    as (q' & H & _ & _ & Hq).
  - discriminate.
  - exists q'. split; [exact H|]. apply Hq; [reflexivity|].
    apply list_elem_of_In. simpl. intuition.
Defined.

(** ** Calls *)

Lemma remove_first_absent x l : contains x l = false -> remove_first x l = l.
Proof.
  induction l as [|y l IH]; simpl; [done|].
  intros [Hy Hl]%orb_false_elim. rewrite Hy. by rewrite IH.
Qed.

Lemma remove_first_count x l y :
  count_occ Z.eq_dec (remove_first x l) y
  = if decide (x = y) then pred (count_occ Z.eq_dec l y)
    else count_occ Z.eq_dec l y.
Proof.
  induction l as [|z l IH]; simpl.
  - by case_decide.
  - destruct (Z.eqb_spec x z) as [->|Hxz].
    + destruct (Z.eq_dec z y) as [->|?]; by case_decide.
    + simpl. rewrite IH.
      destruct (Z.eq_dec z y) as [->|?]; case_decide; try done; congruence.
Qed.

Lemma contains_app_here x l : contains x (l ++ [x]) = true.
Proof.
  unfold contains. rewrite existsb_app. simpl. by rewrite Z.eqb_refl, orb_true_r.
Qed.

Lemma remove_first_app_here x l :
  contains x l = false -> remove_first x (l ++ [x]) = l.
Proof.
  induction l as [|y l IH]; simpl.
  - by rewrite Z.eqb_refl.
  - intros [Hy Hl]%orb_false_elim. rewrite Hy. by rewrite IH.
Qed.

Section FurtherCallProperties.

Variable ModeId2Room : gmap Z string.
Variable encode_account_id : Z -> Z.
Variable getTag : Z -> Z -> string.
Variable formatAdjustedScoreWithTag : Z -> Z -> Z -> string.
Variable MajsIsAutoApplyFriend : bool.

Local Abbreviation serve' :=
  (serve ModeId2Room encode_account_id getTag formatAdjustedScoreWithTag
     MajsIsAutoApplyFriend).
Local Abbreviation route' :=
  (route ModeId2Room encode_account_id getTag formatAdjustedScoreWithTag
     MajsIsAutoApplyFriend).

Ltac call_step :=
  first [ progress (cbv beta iota zeta;
                    cbn [attr_has_account attr_login attr_error_code
                           attr_players negb])
        | rewrite serve_bind
        | rewrite serve_rpc_call by (simpl; eauto)
        | rewrite serve_rpc_call_unanswered by (simpl; eauto)
        | rewrite serve_lift
        | rewrite serve_modify
        | rewrite serve_get
        | rewrite serve_await by done
        | rewrite serve_Return
        | rewrite serve_Raise ].

(** X3: a call that is answered returns the payload of the answer and
    leaves nothing under its index in the correlation table; the entries
    of the other indices are as before, and a later RESPONSE with the
    index of the finished call is dropped. *)
Theorem rpc_call_leaves_no_trace (method : string) (args : pyval) (w : world)
    (p : liblq.payload) (replies : list liblq.payload) :
  is_Some (_ws (self w)) ->
  exists w',
    serve' (rpc_call method args) w (p :: replies)
    = (one_call w method args, w', Done (Ok p), replies)
    /\ _req_events (self w') !! codec_index (self w) = None
    /\ _res (self w') !! codec_index (self w) = None
    /\ (forall j, j <> codec_index (self w) ->
          _req_events (self w') !! j = _req_events (self w) !! j
          /\ _res (self w') !! j = _res (self w) !! j)
    /\ (forall p' q,
          route' (response (codec_index (self w)) p') (self w') q = (self w', q))
    /\ friends (self w') = friends (self w)
    /\ friend_apply_list (self w') = friend_apply_list (self w).
Proof.
  intros Hws. exists (answered w). rewrite serve_rpc_call by done.
  split; [done|]. simpl. rewrite !lookup_delete_eq.
  repeat split; try done.
  - by rewrite lookup_delete_ne.
  - by rewrite lookup_delete_ne.
  - intros p' q. apply route_response_absent; [done|].
    simpl. by rewrite lookup_delete_eq.
Qed.

(** X4: [check_alive] answers [False] at once when there is no transport;
    on a transport it sends one heartbeat and answers whether the error
    code of the reply is zero; while the service does not reply it does
    not answer at all. *)
Theorem check_alive_spec (w : world) :
  (_ws (self w) = None ->
   forall replies, serve' check_alive w replies = ([], w, Done (Ok false), replies))
  /\ (is_Some (_ws (self w)) ->
      (forall code replies,
         serve' check_alive w (liblq.ResCommon code :: replies)
         = (one_call w ".lq.Lobby.heatbeat" heatbeat_args, answered w,
            Done (Ok (code =? 0)), replies))
      /\ serve' check_alive w []
         = (one_call w ".lq.Lobby.heatbeat" heatbeat_args, asked w, Pending, [])).
Proof.
  unfold check_alive. split.
  - intros Hws replies. repeat call_step. rewrite Hws.
    rewrite bool_decide_eq_true_2 by done. by repeat call_step.
  - intros [h Hws]. split.
    + intros code replies. repeat call_step. rewrite Hws.
      rewrite bool_decide_eq_false_2 by done. repeat call_step.
      unfold int_bool. destruct (code =? 0); cbn [negb]; by repeat call_step.
    + repeat call_step. rewrite Hws.
      rewrite bool_decide_eq_false_2 by done. by repeat call_step.
Qed.

Lemma serve_rpc_call_broken method args w replies :
  _ws (self w) = None ->
  serve' (rpc_call method args) w replies
  = ([], w, Done (Err (ConnectionError "Connection is broken")), replies).
Proof.
  intros Hws. unfold rpc_call. repeat call_step. rewrite Hws.
  rewrite bool_decide_eq_true_2 by done. by repeat call_step.
Qed.

(** X5: without a transport every call ends with [ConnectionError] before
    anything is sent, and so do the login and the acceptance of a friend
    application; the connection is left as it was. *)
Theorem calls_on_broken_connection (w : world) (replies : list liblq.payload) :
  _ws (self w) = None ->
  (forall method args,
     serve' (rpc_call method args) w replies
     = ([], w, Done (Err (ConnectionError "Connection is broken")), replies))
  /\ (forall version access_token random_key,
        serve' (accessTokenLogin version access_token random_key) w replies
        = ([], w, Done (Err (ConnectionError "Connection is broken")), replies))
  /\ (forall account_id,
        serve' (acceptFriendApply account_id) w replies
        = ([], w, Done (Err (ConnectionError "Connection is broken")), replies)).
Proof.
  intros Hws. split; [|split].
  - intros. by apply serve_rpc_call_broken.
  - intros. unfold accessTokenLogin, oauth2Check.
    rewrite serve_bind, serve_rpc_call_broken by done. done.
  - intros. unfold acceptFriendApply.
    rewrite serve_bind, serve_rpc_call_broken by done. done.
Qed.

Ltac login_goes_on :=
  do 4 eexists; split; [reflexivity|];
  split; [reflexivity|]; split; [reflexivity|];
  eexists; split; [reflexivity|]; split; [reflexivity|]; simpl; lia.

(** X6: when the first token validation reports a linked account there is
    no pause and no second validation: the login request is the next thing
    sent. *)
Theorem accessTokenLogin_no_retry (version access_token random_key : string)
    (w : world) (replies : list liblq.payload) :
  is_Some (_ws (self w)) ->
  exists log w' o rest,
    serve' (accessTokenLogin version access_token random_key) w
      (liblq.ResOauth2Check true :: replies)
    = ((one_call w ".lq.Lobby.oauth2Check"
          (PDict [("type", PInt 0); ("access_token", PStr access_token)])
        ++ log)%list, w', o, rest)
    /\ sent ".lq.Lobby.oauth2Check" log = 0%nat
    /\ sleeps log = []
    /\ exists req, head log = Some (WsSend req)
         /\ request_method req = ".lq.Lobby.oauth2Login"
         /\ request_index req = codec_index (self w) + 1.
Proof.
  intros Hws. unfold accessTokenLogin, oauth2Check.
  repeat call_step.
  destruct replies as [|p replies]; repeat call_step; [login_goes_on|].
  destruct p as [| |account nickname code| | | | | | |];
    repeat call_step; try login_goes_on.
  unfold int_bool. destruct (account =? 0); cbn [negb];
    repeat call_step; [login_goes_on|].
  destruct replies as [|q replies]; repeat call_step; [login_goes_on|].
  destruct q as [c| |? ? c|c ?| | | | | |]; repeat call_step; try login_goes_on.
  all: destruct (c =? 0); cbn [negb]; repeat call_step; login_goes_on.
Qed.

(** X7: a login reply without an account id ends the login with
    [ValueError] before the login beat is sent and leaves the account of the
    connection unset; a login beat answered with an error code ends it with
    [ValueError] too, but the account id and nickname of the login reply are
    stored by then. *)
Theorem accessTokenLogin_failures (version access_token random_key : string)
    (w : world) (replies : list liblq.payload) :
  is_Some (_ws (self w)) ->
  (forall nickname code,
     exists log w',
       serve' (accessTokenLogin version access_token random_key) w
         (liblq.ResOauth2Check true :: liblq.ResLogin 0 nickname code :: replies)
       = (log, w', Done (Err (ValueError "Failed to login")), replies)
       /\ sent ".lq.Lobby.loginBeat" log = 0%nat
       /\ account_id (self w') = account_id (self w)
       /\ nick_name (self w') = nick_name (self w))
  /\ (forall account nickname code beat,
        account <> 0 -> beat <> 0 ->
        exists log w' msg,
          serve' (accessTokenLogin version access_token random_key) w
            (liblq.ResOauth2Check true :: liblq.ResLogin account nickname code
             :: liblq.ResCommon beat :: replies)
          = (log, w', Done (Err (ValueError msg)), replies)
          /\ sent ".lq.Lobby.loginBeat" log = 1%nat
          /\ account_id (self w') = account
          /\ nick_name (self w') = nickname).
Proof.
  intros Hws. unfold accessTokenLogin, oauth2Check. split.
  - intros nickname code. repeat call_step.
    do 2 eexists. split; [reflexivity|]. done.
  - intros account nickname code beat Hacc Hbeat. repeat call_step.
    unfold int_bool. rewrite (proj2 (Z.eqb_neq account 0) Hacc). cbn [negb].
    repeat call_step.
    rewrite (proj2 (Z.eqb_neq beat 0) Hbeat). cbn [negb]. repeat call_step.
    do 3 eexists. split; [reflexivity|]. done.
Qed.

(** X8: accepting a friend application sends one request and, whatever
    the service answers, takes one occurrence of the account off the
    pending list: the count of that account goes down by one (if it was
    there), the counts of the others stay, and the registry is untouched. *)
Theorem acceptFriendApply_spec (account : Z) (w : world) (p : liblq.payload)
    (replies : list liblq.payload) :
  is_Some (_ws (self w)) ->
  exists w',
    serve' (acceptFriendApply account) w (p :: replies)
    = (one_call w ".lq.Lobby.handleFriendApply" (handleFriendApply_args account),
       w', Done (Ok p), replies)
    /\ friend_apply_list (self w') = remove_first account (friend_apply_list (self w))
    /\ (forall other,
          count_occ Z.eq_dec (friend_apply_list (self w')) other
          = if decide (account = other)
            then pred (count_occ Z.eq_dec (friend_apply_list (self w)) other)
            else count_occ Z.eq_dec (friend_apply_list (self w)) other)
    /\ friends (self w') = friends (self w).
Proof.
  intros Hws. unfold acceptFriendApply. repeat call_step.
  eexists. split; [reflexivity|]. simpl.
  destruct (contains account (friend_apply_list (self w))) eqn:E; simpl.
  - split; [done|]. split; [|done]. intros other. apply remove_first_count.
  - rewrite (remove_first_absent _ _ E). split; [done|]. split; [|done].
    intros other. rewrite <- (remove_first_count account).
    by rewrite (remove_first_absent _ _ E).
Qed.

(** X9: the handler of a friend application puts the account on the
    pending list before it asks for the applicant's profile, and the
    account is on the list once more however the lookup ends: the reply's
    error code gives the error message, a profile gives the message with
    the applicant's nickname, and a reply without any profile ends the
    handler with [IndexError] and no message.  (Automatic acceptance off.) *)
Theorem handle_NewFriendApply_records (notify : MajsoulDecodedMessage) (account : Z)
    (w : world) (replies : list liblq.payload) :
  payload notify = liblq.NotifyNewFriendApply account ->
  is_Some (_ws (self w)) ->
  let lookup :=
    one_call w ".lq.Lobby.fetchMultiAccountBrief"
      (fetchMultiAccountBrief_args account) in
  (forall code players, code <> 0 ->
     exists w',
       serve' (handle_NewFriendApply false notify) w
         (liblq.ResMultiAccountBrief code players :: replies)
       = ((lookup ++ [SendMeta ("NotifyNewFriendApply信息序列化错误"
                                 ++ pretty account ++ "!")])%list,
          w', Done (Ok tt), replies)
       /\ friend_apply_list (self w')
          = (friend_apply_list (self w) ++ [account])%list)
  /\ (forall player players,
        exists w',
          serve' (handle_NewFriendApply false notify) w
            (liblq.ResMultiAccountBrief 0 (player :: players) :: replies)
          = ((lookup ++ [SendMeta ("收到来自 " ++ liblq.nickname player
                                    ++ " 的好友申请")])%list,
             w', Done (Ok tt), replies)
          /\ friend_apply_list (self w')
             = (friend_apply_list (self w) ++ [account])%list)
  /\ (exists w',
        serve' (handle_NewFriendApply false notify) w
          (liblq.ResMultiAccountBrief 0 [] :: replies)
        = (lookup, w', Done (Err IndexError), replies)
        /\ friend_apply_list (self w')
           = (friend_apply_list (self w) ++ [account])%list).
Proof.
  intros Hp Hws lookup. subst lookup. unfold handle_NewFriendApply. rewrite Hp.
  split; [|split].
  - intros code players Hcode. repeat call_step.
    unfold int_bool. rewrite (proj2 (Z.eqb_neq code 0) Hcode). cbn [negb].
    repeat call_step. cbn [str_bool String.eqb append negb]. repeat call_step.
    eexists. split; [reflexivity|]. done.
  - intros player players. repeat call_step.
    change (int_bool 0) with false. repeat call_step.
    cbn [index lookup list_lookup]. repeat call_step.
    cbn [str_bool String.eqb append negb]. repeat call_step.
    eexists. split; [reflexivity|]. simpl.
    by rewrite contains_app_here.
  - repeat call_step. change (int_bool 0) with false. repeat call_step.
    cbn [index lookup list_lookup]. repeat call_step.
    eexists. split; [reflexivity|]. done.
Qed.

(** X10: with automatic acceptance on, the handler of a friend application
    goes on to accept it once the message is out: the lookup and the
    acceptance are the two requests sent, in that order, and at the end one
    occurrence of the account is off the pending list again, so an account
    that was not pending before is not pending afterwards. *)
Theorem handle_NewFriendApply_accepts (notify : MajsoulDecodedMessage) (account : Z)
    (w : world) (player : liblq.PlayerBaseView) (players : list liblq.PlayerBaseView)
    (p : liblq.payload) (replies : list liblq.payload) :
  payload notify = liblq.NotifyNewFriendApply account ->
  is_Some (_ws (self w)) ->
  exists w',
    serve' (handle_NewFriendApply true notify) w
      (liblq.ResMultiAccountBrief 0 (player :: players) :: p :: replies)
    = ((one_call w ".lq.Lobby.fetchMultiAccountBrief"
          (fetchMultiAccountBrief_args account)
        ++ [SendMeta ("收到来自 " ++ liblq.nickname player ++ " 的好友申请")]
        ++ one_call (answered w) ".lq.Lobby.handleFriendApply"
             (handleFriendApply_args account))%list,
       w', Done (Ok tt), replies)
    /\ friend_apply_list (self w')
       = remove_first account (friend_apply_list (self w) ++ [account])%list
    /\ (contains account (friend_apply_list (self w)) = false ->
        friend_apply_list (self w') = friend_apply_list (self w)).
Proof.
  intros Hp Hws. unfold handle_NewFriendApply, acceptFriendApply. rewrite Hp.
  repeat call_step. change (int_bool 0) with false. repeat call_step.
  cbn [index lookup list_lookup]. repeat call_step.
  assert (forall s, str_bool ("收到来自 " ++ s) = true) as -> by done.
  repeat call_step.
  rewrite serve_rpc_call by (simpl; rewrite contains_app_here; simpl; eauto).
  repeat call_step. simpl. rewrite !contains_app_here. simpl.
  eexists. split; [reflexivity|]. simpl.
  repeat (rewrite contains_app_here; simpl).
  split; [done|]. intros Habsent. by apply remove_first_app_here.
Qed.

End FurtherCallProperties.

Lemma rpc_call_leaves_no_trace_witness :
  exists w',
    serve sample_ModeId2Room sample_encode_account_id sample_getTag
      sample_formatAdjustedScoreWithTag false
      (rpc_call ".lq.Lobby.fetchServerTime" (PDict []))
      {| self := awaiting_5; game_record_json := Missing |} [liblq.ResCommon 0]
    = (one_call {| self := awaiting_5; game_record_json := Missing |}
         ".lq.Lobby.fetchServerTime" (PDict []),
       w', Done (Ok (liblq.ResCommon 0)), [])
    /\ _req_events (self w') !! 0 = None
    /\ _req_events (self w') !! 5 = Some false.
Proof.
  destruct (rpc_call_leaves_no_trace sample_ModeId2Room sample_encode_account_id
              sample_getTag sample_formatAdjustedScoreWithTag false
              ".lq.Lobby.fetchServerTime" (PDict [])
              {| self := awaiting_5; game_record_json := Missing |}
              (liblq.ResCommon 0) [])
    as (w' & Hrun & Hev & _ & Hother & _).
  - exists 10%nat. reflexivity.
  - exists w'. split; [exact Hrun|]. split; [exact Hev|].
    rewrite (proj1 (Hother 5 ltac:(discriminate))). reflexivity.
Defined.

Lemma check_alive_spec_witness :
  serve sample_ModeId2Room sample_encode_account_id sample_getTag
    sample_formatAdjustedScoreWithTag false check_alive
    {| self := unconnected; game_record_json := Missing |} []
  = ([], {| self := unconnected; game_record_json := Missing |}, Done (Ok false), [])
  /\ serve sample_ModeId2Room sample_encode_account_id sample_getTag
       sample_formatAdjustedScoreWithTag false check_alive
       (world_with [] Missing) [liblq.ResCommon 1]
     = (one_call (world_with [] Missing) ".lq.Lobby.heatbeat" heatbeat_args,
        answered (world_with [] Missing), Done (Ok false), []).
Proof.
  split.
  - apply (proj1 (check_alive_spec sample_ModeId2Room sample_encode_account_id
                    sample_getTag sample_formatAdjustedScoreWithTag false
                    {| self := unconnected; game_record_json := Missing |})).
    reflexivity.
  - apply (proj1 (proj2 (check_alive_spec sample_ModeId2Room sample_encode_account_id
                           sample_getTag sample_formatAdjustedScoreWithTag false
                           (world_with [] Missing))
                    (ex_intro _ 10%nat eq_refl)) 1 []).
Defined.

Lemma calls_on_broken_connection_witness :
  serve sample_ModeId2Room sample_encode_account_id sample_getTag
    sample_formatAdjustedScoreWithTag false
    (accessTokenLogin "0.11.100.w" "token" "key")
    {| self := unconnected; game_record_json := Missing |}
    [liblq.ResOauth2Check true]
  = ([], {| self := unconnected; game_record_json := Missing |},
     Done (Err (ConnectionError "Connection is broken")),
     [liblq.ResOauth2Check true]).
Proof.
  apply (proj1 (proj2 (calls_on_broken_connection sample_ModeId2Room
                         sample_encode_account_id sample_getTag
                         sample_formatAdjustedScoreWithTag false
                         {| self := unconnected; game_record_json := Missing |}
                         [liblq.ResOauth2Check true] eq_refl))).
Defined.

Lemma accessTokenLogin_no_retry_witness :
  exists log w' o rest,
    serve sample_ModeId2Room sample_encode_account_id sample_getTag
      sample_formatAdjustedScoreWithTag false
      (accessTokenLogin "0.11.100.w" "token" "key") (world_with [] Missing)
      [liblq.ResOauth2Check true; liblq.ResLogin 7 "alice" 0; liblq.ResCommon 0]
    = ((one_call (world_with [] Missing) ".lq.Lobby.oauth2Check"
          (PDict [("type", PInt 0); ("access_token", PStr "token")]) ++ log)%list,
       w', o, rest)
    /\ sent ".lq.Lobby.oauth2Check" log = 0%nat
    /\ sleeps log = [].
Proof.
  destruct (accessTokenLogin_no_retry sample_ModeId2Room sample_encode_account_id
              sample_getTag sample_formatAdjustedScoreWithTag false
              "0.11.100.w" "token" "key" (world_with [] Missing)
              [liblq.ResLogin 7 "alice" 0; liblq.ResCommon 0])
    as (log & w' & o & rest & H1 & H2 & H3 & _).
  - exists 10%nat. reflexivity.
  - exists log, w', o, rest. auto.
Defined.

Lemma accessTokenLogin_failures_witness :
  (exists log w',
     serve sample_ModeId2Room sample_encode_account_id sample_getTag
       sample_formatAdjustedScoreWithTag false
       (accessTokenLogin "0.11.100.w" "token" "key") (world_with [] Missing)
       [liblq.ResOauth2Check true; liblq.ResLogin 0 "" 1002]
     = (log, w', Done (Err (ValueError "Failed to login")), [])
     /\ account_id (self w') = 0)
  /\ (exists log w' msg,
        serve sample_ModeId2Room sample_encode_account_id sample_getTag
          sample_formatAdjustedScoreWithTag false
          (accessTokenLogin "0.11.100.w" "token" "key") (world_with [] Missing)
          [liblq.ResOauth2Check true; liblq.ResLogin 7 "alice" 0;
           liblq.ResCommon 151]
        = (log, w', Done (Err (ValueError msg)), [])
        /\ account_id (self w') = 7).
Proof.
  pose proof (accessTokenLogin_failures sample_ModeId2Room sample_encode_account_id
                sample_getTag sample_formatAdjustedScoreWithTag false
                "0.11.100.w" "token" "key" (world_with [] Missing) []
                (ex_intro _ 10%nat eq_refl)) as [Hlogin Hbeat].
  split.
  - destruct (Hlogin "" 1002) as (log & w' & H1 & _ & H2 & _).
    exists log, w'. split; [exact H1|exact H2].
  - destruct (Hbeat 7 "alice" 0 151) as (log & w' & msg & H1 & _ & H2 & _);
      [lia|lia|].
    exists log, w', msg. split; [exact H1|exact H2].
Defined.

Lemma acceptFriendApply_spec_witness :
  exists w',
    serve sample_ModeId2Room sample_encode_account_id sample_getTag
      sample_formatAdjustedScoreWithTag false (acceptFriendApply 7)
      {| self := connection_with [] [7; 3; 7]; game_record_json := Missing |}
      [liblq.ResCommon 1]
    = (one_call {| self := connection_with [] [7; 3; 7]; game_record_json := Missing |}
         ".lq.Lobby.handleFriendApply" (handleFriendApply_args 7),
       w', Done (Ok (liblq.ResCommon 1)), [])
    /\ friend_apply_list (self w') = [3; 7].
Proof.
  destruct (acceptFriendApply_spec sample_ModeId2Room sample_encode_account_id
              sample_getTag sample_formatAdjustedScoreWithTag false 7
              {| self := connection_with [] [7; 3; 7]; game_record_json := Missing |}
              (liblq.ResCommon 1) [])
    as (w' & H1 & H2 & _).
  - exists 10%nat. reflexivity.
  - exists w'. split; [exact H1|exact H2].
Defined.

Lemma handle_NewFriendApply_records_witness :
  exists w',
    serve sample_ModeId2Room sample_encode_account_id sample_getTag
      sample_formatAdjustedScoreWithTag false
      (handle_NewFriendApply false (friend_applied 7)) (world_with [] Missing)
      [liblq.ResMultiAccountBrief 0 []]
    = (one_call (world_with [] Missing) ".lq.Lobby.fetchMultiAccountBrief"
         (fetchMultiAccountBrief_args 7),
       w', Done (Err IndexError), [])
    /\ friend_apply_list (self w') = [7].
Proof.
  apply (proj2 (proj2 (handle_NewFriendApply_records sample_ModeId2Room
                         sample_encode_account_id sample_getTag
                         sample_formatAdjustedScoreWithTag false
                         (friend_applied 7) 7 (world_with [] Missing) []
                         eq_refl (ex_intro _ 10%nat eq_refl)))).
Defined.

Lemma handle_NewFriendApply_accepts_witness :
  exists w',
    serve sample_ModeId2Room sample_encode_account_id sample_getTag
      sample_formatAdjustedScoreWithTag false
      (handle_NewFriendApply true (friend_applied 7)) (world_with [] Missing)
      [liblq.ResMultiAccountBrief 0 [profile 7 "alice"]; liblq.ResCommon 0]
    = ((one_call (world_with [] Missing) ".lq.Lobby.fetchMultiAccountBrief"
          (fetchMultiAccountBrief_args 7)
        ++ [SendMeta "收到来自 alice 的好友申请"]
        ++ one_call (answered (world_with [] Missing))
             ".lq.Lobby.handleFriendApply" (handleFriendApply_args 7))%list,
       w', Done (Ok tt), [])
    /\ friend_apply_list (self w') = [].
Proof.
  destruct (handle_NewFriendApply_accepts sample_ModeId2Room
              sample_encode_account_id sample_getTag
              sample_formatAdjustedScoreWithTag false
              (friend_applied 7) 7 (world_with [] Missing)
              (profile 7 "alice") [] (liblq.ResCommon 0) [] eq_refl
              (ex_intro _ 10%nat eq_refl))
    as (w' & H1 & _ & H2).
  exists w'. split; [exact H1|]. apply H2. reflexivity.
Defined.

(** ** Friend-list changes, further *)

Lemma append_nil_r (s : string) : s ++ "" = s.
Proof.
  induction s as [|c s IH]; [done|].
  change (String c s ++ "") with (String c (s ++ "")). by rewrite IH.
Qed.

Lemma append_empty a b : a ++ b = "" -> a = "" /\ b = "".
Proof. destruct a; simpl; [done|discriminate]. Qed.


Lemma stored_unknown account fs : stored account fs = [] <-> unknown account fs.
Proof.
  unfold stored, unknown. induction fs as [|friend fs IH]; simpl.
  - split; [constructor|done].
  - destruct (Z.eqb_spec (MajsoulFriend.account_id friend) account) as [Heq|Hne].
    + split; [done|]. by inversion 1.
    + rewrite IH. split; [by constructor|by inversion 1].
Qed.

Lemma remove_friend_spec account fs :
  (remove_friend account fs).1 `sublist_of` fs
  /\ (forall other,
        length (stored other (remove_friend account fs).1)
        = if decide (other = account) then pred (length (stored other fs))
          else length (stored other fs))
  /\ match stored account fs with
     | [] => remove_friend account fs = (fs, "")
     | friend :: _ =>
         (remove_friend account fs).2
         = "账号成功删除好友 " ++ MajsoulFriend.nickname friend ++ "！"
     end.
Proof.
  unfold stored. induction fs as [|friend fs (IHs & IHc & IHm)]; simpl.
  - repeat split; [done|]. intros other. by case_decide.
  - destruct (Z.eqb_spec (MajsoulFriend.account_id friend) account) as [Heq|Hne];
      simpl.
    + repeat split; [by apply sublist_cons| ].
      intros other. rewrite <- Heq.
      destruct (Z.eqb_spec (MajsoulFriend.account_id friend) other) as [<-|Hne];
        case_decide; try done; simpl; congruence.
    + destruct (remove_friend account fs) as [rest m] eqn:E. simpl in *.
      split; [by apply sublist_skip|]. split.
      * intros other.
        destruct (Z.eqb_spec (MajsoulFriend.account_id friend) other) as [<-|Hne'];
          simpl; [|apply IHc].
        rewrite IHc. case_decide; [congruence|done].
      * destruct (List.filter _ fs); [by simplify_eq|done].
Qed.

(** X11: a [type == 2] notification takes the first friend with the
    account id out of the registry and nothing else: the other friends
    stay in their order, the number of friends with that id goes down by
    one, the pending applications are untouched, and the message names the
    friend removed; for an account that is not a friend nothing changes
    and nothing is emitted. *)
Theorem FriendChange_remove (account : Z) (data_friend : liblq.Friend)
    (fs : list MajsoulFriend.t) (applies : list Z) :
  exists fs' msg,
    FriendChange_body account 2 data_friend fs applies = (fs', applies, msg)
    /\ fs' `sublist_of` fs
    /\ (forall other,
          length (stored other fs')
          = if decide (other = account) then pred (length (stored other fs))
            else length (stored other fs))
    /\ match stored account fs with
       | [] => fs' = fs /\ msg = ""
       | friend :: _ =>
           msg = "账号成功删除好友 " ++ MajsoulFriend.nickname friend ++ "！"
       end.
Proof.
  unfold FriendChange_body. simpl.
  destruct (remove_friend_spec account fs) as (Hs & Hc & Hm).
  destruct (remove_friend account fs) as [fs' msg] eqn:E. simpl in *.
  exists fs', msg. repeat split; try done.
  destruct (stored account fs); [by simplify_eq|done].
Qed.

Lemma refreshed_msg_spec account data_friend fs : forall meta_msg,
  refreshed_msg account data_friend fs meta_msg
  = match stored account fs with
    | [] => meta_msg
    | _ :: _ => "数据成功更新好友 "
                ++ MajsoulFriend.nickname (MajsoulFriend.init data_friend) ++ "！"
    end.
Proof.
  unfold stored. induction fs as [|friend fs IH]; intros meta_msg; simpl; [done|].
  rewrite IH.
  destruct (Z.eqb_spec (MajsoulFriend.account_id friend) account); simpl;
    by destruct (List.filter _ fs).
Qed.

(** X12: a notification of any other type changes neither the registry
    nor the pending applications, the friend data it carries is not stored;
    it emits the message of a refresh exactly when the account is a
    friend. *)
Theorem FriendChange_refresh (account type : Z) (data_friend : liblq.Friend)
    (fs : list MajsoulFriend.t) (applies : list Z) :
  type <> 1 -> type <> 2 ->
  FriendChange_body account type data_friend fs applies
  = (fs, applies,
     match stored account fs with
     | [] => ""
     | _ :: _ => "数据成功更新好友 " ++ liblq.nickname (liblq.base data_friend) ++ "！"
     end).
Proof.
  intros H1 H2. unfold FriendChange_body.
  rewrite (proj2 (Z.eqb_neq type 1) H1), (proj2 (Z.eqb_neq type 2) H2).
  by rewrite refreshed_msg_spec.
Qed.

Lemma FriendChange_refresh_witness :
  FriendChange_body 7 3 (friend_message 7 "alicia" (online_playing "g9"))
    [alice_idle] [7]
  = ([alice_idle], [7], "数据成功更新好友 alicia！").
Proof. apply FriendChange_refresh; lia. Defined.

(** ** Profile and state changes, further *)

Section ProfileProperties.

Variable getTag : Z -> Z -> string.
Variable formatAdjustedScoreWithTag : Z -> Z -> Z -> string.

Local Abbreviation view_body :=
  (FriendViewChange_body getTag formatAdjustedScoreWithTag).
Local Abbreviation view_loop :=
  (FriendViewChange_loop getTag formatAdjustedScoreWithTag).
Local Abbreviation handle_view :=
  (handle_FriendViewChange getTag formatAdjustedScoreWithTag).

(** X13: one pass of the profile handler leaves the message empty exactly
    when both rank ids and both rank scores of the snapshot are the stored
    ones: a snapshot that changes any of the four gives a message, and one
    that changes none gives none.  The message does not name every change:
    when the three-player rank id changed, the message begins with the
    line of the three-player rank, which replaces the line of the
    four-player rank if that changed too. *)
Theorem FriendViewChange_silent_iff (changed_base : liblq.PlayerBaseView)
    (friend : MajsoulFriend.t) :
  ((view_body changed_base friend).2 = "" <-> same_ranks changed_base friend)
  /\ (liblq.id (liblq.level3 changed_base) <> liblq.id (MajsoulFriend.level3 friend) ->
      exists tail,
        (view_body changed_base friend).2
        = (MajsoulFriend.nickname friend ++ " 的三麻段位更新为 "
           ++ getTag (liblq.id (liblq.level3 changed_base))
                (liblq.score (liblq.level3 changed_base)) ++ nl)
          ++ tail).
Proof.
  split.
  - unfold FriendViewChange_body, same_ranks. simpl.
    destruct (Z.eqb_spec (liblq.id (liblq.level changed_base))
                (liblq.id (MajsoulFriend.level friend))) as [E1|N1];
    destruct (Z.eqb_spec (liblq.id (liblq.level3 changed_base))
                (liblq.id (MajsoulFriend.level3 friend))) as [E2|N2];
    destruct (Z.eqb_spec (liblq.score (liblq.level changed_base))
                (liblq.score (MajsoulFriend.level friend))) as [E3|N3];
    destruct (Z.eqb_spec (liblq.score (liblq.level3 changed_base))
                (liblq.score (MajsoulFriend.level3 friend))) as [E4|N4];
    simpl; split; try done; try (intros (? & ? & ? & ?); done).
    all: intros H; repeat (apply append_empty in H as [? H]); done.
  - intros N2. unfold FriendViewChange_body. simpl.
    rewrite (proj2 (Z.eqb_neq _ _) N2). simpl.
    destruct (liblq.score (liblq.level changed_base)
              =? liblq.score (MajsoulFriend.level friend)); simpl;
      [destruct (liblq.score (liblq.level3 changed_base)
                 =? liblq.score (MajsoulFriend.level3 friend)); simpl|];
      eexists; try reflexivity.
    symmetry. apply append_nil_r.
Qed.

(** X14: when the four-player score changed, the pass reports that and
    does not look at the three-player score: the message is the same
    whatever three-player score is stored for the friend. *)
Theorem FriendViewChange_score_short_circuit (changed_base : liblq.PlayerBaseView)
    (friend : MajsoulFriend.t) (s : Z) :
  liblq.score (liblq.level changed_base)
  <> liblq.score (MajsoulFriend.level friend) ->
  (view_body changed_base (with_score3 s friend)).2
  = (view_body changed_base friend).2.
Proof.
  intros H. unfold FriendViewChange_body. simpl.
  by rewrite (proj2 (Z.eqb_neq _ _) H).
Qed.

Lemma FriendViewChange_loop_unknown target changed_base fs msg :
  unknown target fs -> view_loop target changed_base fs msg = (fs, msg).
Proof.
  induction 1 as [|friend fs Hne _ IH]; simpl; [done|].
  rewrite (proj2 (Z.eqb_neq _ _) Hne). by rewrite IH.
Qed.

End ProfileProperties.

Lemma FriendViewChange_silent_iff_witness :
  exists tail,
    (FriendViewChange_body sample_getTag sample_formatAdjustedScoreWithTag
       {| liblq.account_id := 7; liblq.nickname := "alice";
          liblq.level := rank 10302 0; liblq.level3 := rank 20302 0 |}
       alice_idle).2
    = ("alice 的三麻段位更新为 L20302" ++ nl) ++ tail.
Proof.
  apply (proj2 (FriendViewChange_silent_iff sample_getTag
                  sample_formatAdjustedScoreWithTag
                  {| liblq.account_id := 7; liblq.nickname := "alice";
                     liblq.level := rank 10302 0; liblq.level3 := rank 20302 0 |}
                  alice_idle)).
  vm_compute. discriminate.
Defined.

Lemma FriendViewChange_score_short_circuit_witness :
  (FriendViewChange_body sample_getTag sample_formatAdjustedScoreWithTag
     (profile 7 "alice") (with_score3 100 (MajsoulFriend.change_base alice_idle
        {| liblq.account_id := 7; liblq.nickname := "alice";
           liblq.level := rank 10301 400; liblq.level3 := rank 20301 500 |}))).2
  = (FriendViewChange_body sample_getTag sample_formatAdjustedScoreWithTag
       (profile 7 "alice") (MajsoulFriend.change_base alice_idle
        {| liblq.account_id := 7; liblq.nickname := "alice";
           liblq.level := rank 10301 400; liblq.level3 := rank 20301 500 |})).2.
Proof.
  apply FriendViewChange_score_short_circuit. simpl. lia.
Defined.

Section FurtherStateChangeProperties.

Variable ModeId2Room : gmap Z string.
Variable encode_account_id : Z -> Z.
Variable getTag : Z -> Z -> string.
Variable formatAdjustedScoreWithTag : Z -> Z -> Z -> string.

Local Abbreviation body := (FriendStateChange_body ModeId2Room encode_account_id).
Local Abbreviation loop' := (FriendStateChange_loop ModeId2Room encode_account_id).
Local Abbreviation handle := (handle_FriendStateChange ModeId2Room encode_account_id).
Local Abbreviation handle_view :=
  (handle_FriendViewChange getTag formatAdjustedScoreWithTag).

Lemma FriendStateChange_loop_unknown target active_state fs f msg :
  unknown target fs -> loop' target active_state fs f msg = (fs, f, Ok msg).
Proof.
  induction 1 as [|friend fs Hne _ IH]; simpl; [done|].
  rewrite (proj2 (Z.eqb_neq _ _) Hne). by rewrite IH.
Qed.

(** X15: a state or profile notification about an account that is not in
    the registry changes nothing: the registry and the file stay as they
    are (a missing file is not created) and no event is emitted. *)
Theorem notification_about_unknown_account (notify : MajsoulDecodedMessage)
    (target : Z) (w : world) :
  unknown target (friends (self w)) ->
  (forall active_state,
     payload notify = liblq.NotifyFriendStateChange target active_state ->
     run (handle notify) w = (w, Finished (Ok tt)))
  /\ (forall changed_base,
        payload notify = liblq.NotifyFriendViewChange target changed_base ->
        run (handle_view notify) w = (w, Finished (Ok tt))).
Proof.
  intros Hu. split.
  - intros active_state Hp. unfold handle_FriendStateChange. rewrite Hp. simpl.
    rewrite FriendStateChange_loop_unknown by done. simpl.
    by destruct w as [[] ?].
  - intros changed_base Hp. unfold handle_FriendViewChange. rewrite Hp. simpl.
    rewrite FriendViewChange_loop_unknown by done. simpl.
    by destruct w as [[] ?].
Qed.

Lemma body_record active_state friend f msg friend' f' msg' :
  body active_state friend f msg = Ok (friend', f', msg') ->
  recorded f' = recorded f
  \/ recorded f' = <[liblq.game_uuid (liblq.playing active_state)
                      := JInt (MajsoulFriend.account_id friend)]> (recorded f)
  \/ recorded f' = <[liblq.game_uuid (MajsoulFriend.playing friend)
                      := JInt (MajsoulFriend.account_id friend)]> (recorded f).
Proof.
  assert (forall v, load_or_empty f = Ok v -> recorded (Holds v) = recorded f) as Hread.
  { intros v. destruct f as [e|v0]; [|by intros [= ->]].
    by destruct e; intros [= <-]. }
  unfold FriendStateChange_body. intros H.
  destruct (load_or_empty f) as [v0|] eqn:Hv0; simpl in H; [|done].
  specialize (Hread v0 eq_refl).
  destruct (str_bool _ && negb _); simpl in H.
  { destruct v0; simpl in H; simplify_eq. right. left. simpl in *. by rewrite Hread. }
  destruct (negb _ && _); simpl in H; [|simplify_eq; by left].
  destruct f as [e|v1]; simpl in H; [done|].
  destruct v1; simpl in H; simplify_eq. right. right. done.
Qed.

Lemma FriendStateChange_loop_record target active_state fs :
  forall f msg fs' f' r,
  loop' target active_state fs f msg = (fs', f', r) ->
  forall k,
    (is_Some (recorded f !! k) -> is_Some (recorded f' !! k))
    /\ (~ touched target active_state fs k ->
        recorded f' !! k = recorded f !! k).
Proof.
  induction fs as [|friend rest IH]; intros f msg fs' f' r H k; simpl in H.
  - by simplify_eq.
  - destruct (Z.eqb_spec (MajsoulFriend.account_id friend) target) as [Heq|Hne].
    + destruct (body active_state friend f msg) as [[[friend1 f1] msg1]|e] eqn:Hb;
        [|by simplify_eq].
      destruct (loop' target active_state rest f1 msg1) as [[rest1 f2] r2] eqn:Hl.
      simplify_eq.
      destruct (IH _ _ _ _ _ Hl k) as [Hk Hv].
      assert ((is_Some (recorded f !! k) -> is_Some (recorded f1 !! k))
              /\ (~ touched (MajsoulFriend.account_id friend) active_state
                      (friend :: rest) k ->
                  recorded f1 !! k = recorded f !! k)) as [Hk1 Hv1].
      { destruct (body_record _ _ _ _ _ _ _ Hb) as [->|[->| ->]].
        - done.
        - split.
          + intros ?. destruct (decide (liblq.game_uuid (liblq.playing active_state) = k))
              as [->|?]; [by rewrite lookup_insert_eq|by rewrite lookup_insert_ne].
          + intros Hn. rewrite lookup_insert_ne; [done|].
            intros <-. apply Hn. by left.
        - split.
          + intros ?. destruct (decide (liblq.game_uuid (MajsoulFriend.playing friend) = k))
              as [->|?]; [by rewrite lookup_insert_eq|by rewrite lookup_insert_ne].
          + intros Hn. rewrite lookup_insert_ne; [done|].
            intros <-. apply Hn. right. exists friend.
            split; [apply list_elem_of_here|done]. }
      split; [auto|].
      intros Hn. rewrite Hv, Hv1; [done|done|].
      intros [->|(x & Hx & Hid & ->)]; apply Hn; [by left|].
      right. exists x. split; [by apply list_elem_of_further|done].
    + destruct (loop' target active_state rest f msg) as [[rest1 f2] r2] eqn:Hl.
      simplify_eq. destruct (IH _ _ _ _ _ Hl k) as [Hk Hv].
      split; [done|]. intros Hn. apply Hv.
      intros [->|(x & Hx & Hid & ->)]; apply Hn; [by left|].
      right. exists x. split; [by apply list_elem_of_further|done].
Qed.

(** X16: the handler of a state change amends [game_record.json], it never
    drops an attribution: every match recorded before is recorded after,
    and apart from the match of the snapshot and the stored matches of the
    friends with the target id every record keeps its account. *)
Theorem game_record_only_grows (notify : MajsoulDecodedMessage) (target : Z)
    (active_state : liblq.AccountActiveState) (w : world) (k : string) :
  payload notify = liblq.NotifyFriendStateChange target active_state ->
  let w' := (run (handle notify) w).1 in
  (is_Some (recorded (game_record_json w) !! k) ->
   is_Some (recorded (game_record_json w') !! k))
  /\ (~ touched target active_state (friends (self w)) k ->
      recorded (game_record_json w') !! k
      = recorded (game_record_json w) !! k).
Proof.
  intros Hp. unfold handle_FriendStateChange. rewrite Hp. simpl.
  destruct (loop' target active_state (friends (self w)) (game_record_json w) "")
    as [[fs f] r] eqn:Hl.
  pose proof (FriendStateChange_loop_record _ _ _ _ _ _ _ _ Hl k) as Hrec.
  simpl. destruct r as [msg|e]; simpl; [|done].
  by destruct (str_bool msg).
Qed.






(** X19: replaying a state-change notification whose first application
    completed emits nothing and changes nothing: after the first
    application every friend with the target id carries the snapshot, and
    the second application leaves the world as it is and ends without an
    event. *)
Theorem FriendStateChange_replay_is_silent (notify : MajsoulDecodedMessage)
    (target : Z) (active_state : liblq.AccountActiveState) (w : world) :
  payload notify = liblq.NotifyFriendStateChange target active_state ->
  raised (run (handle notify) w) = None ->
  settled target active_state (friends (self (run (handle notify) w).1))
  /\ run (handle notify) (run (handle notify) w).1
     = ((run (handle notify) w).1, Finished (Ok tt)).
Proof.
  intros Hp Hr.
  exact (handle_FriendStateChange_replay ModeId2Room encode_account_id
           notify target active_state w Hp Hr).
Qed.

End FurtherStateChangeProperties.

Lemma notification_about_unknown_account_witness :
  run (handle_FriendStateChange sample_ModeId2Room sample_encode_account_id
         bob_came_online) (world_with [alice_idle] Missing)
  = (world_with [alice_idle] Missing, Finished (Ok tt)).
Proof.
  apply (proj1 (notification_about_unknown_account sample_ModeId2Room
                  sample_encode_account_id sample_getTag
                  sample_formatAdjustedScoreWithTag bob_came_online 8
                  (world_with [alice_idle] Missing)
                  ltac:(repeat constructor; discriminate)) online_idle).
  reflexivity.
Defined.

Lemma game_record_only_grows_witness :
  let w := world_with [alice_idle] (Object {[ "g0" := JInt 7 ]}) in
  let w' := (run (handle_FriendStateChange sample_ModeId2Room
                    sample_encode_account_id alice_entered_game) w).1 in
  recorded (game_record_json w') !! "g0" = Some (JInt 7).
Proof.
  intros w w'. subst w'.
  rewrite (proj2 (game_record_only_grows sample_ModeId2Room sample_encode_account_id
                    alice_entered_game 7 (online_playing "g1") w "g0" eq_refl)).
  - reflexivity.
  - intros [H|(friend & Hin & _ & Hk)]; [discriminate H|].
    apply list_elem_of_singleton in Hin. subst friend. discriminate Hk.
Defined.



Lemma FriendStateChange_replay_is_silent_witness :
  let w1 := (run (handle_FriendStateChange sample_ModeId2Room
                    sample_encode_account_id alice_entered_game)
               (world_with [alice_idle] Missing)).1 in
  settled 7 (online_playing "g1") (friends (self w1))
  /\ run (handle_FriendStateChange sample_ModeId2Room sample_encode_account_id
            alice_entered_game) w1
     = (w1, Finished (Ok tt)).
Proof.
  apply (FriendStateChange_replay_is_silent sample_ModeId2Room
           sample_encode_account_id alice_entered_game 7 (online_playing "g1")
           (world_with [alice_idle] Missing)); reflexivity.
Defined.

(** ** [fetchLogs], further *)

Lemma rmap_Err {A B : Type} (f : A -> result B) (pre : list A) (x : A)
    (post : list A) (e : exn) :
  Forall (fun y => exists b, f y = Ok b) pre -> f x = Err e ->
  rmap f (pre ++ x :: post) = Err e.
Proof.
  intros Hpre Hx. induction Hpre as [|y pre [b Hy] _ IH]; simpl.
  - by rewrite Hx.
  - by rewrite Hy, IH.
Qed.

Section FurtherFetchLogsProperties.

Variable decode_log_id : string -> string.
Variable decode_account_id : Z -> Z.
Variable lq_message : Type.
Variable Wrapper_parse : bytes -> result Wrapper.
Variable lq_parse : string -> bytes -> result lq_message.

Local Abbreviation fetchLogs_ids' := (fetchLogs_ids decode_log_id decode_account_id).

(** X20: an identifier without underscore is the log id as it stands, with
    no target; an identifier whose second segment is empty ends the fetch
    with [IndexError], and one whose second segment is the bare marker
    [a] with [ValueError]. *)
Theorem fetchLogs_ids_edges (log_id : string) :
  occurs "_" log_id = false ->
  fetchLogs_ids' log_id = Ok (log_id, None)
  /\ fetchLogs_ids' (log_id ++ "_") = Err IndexError
  /\ (forall more, fetchLogs_ids' (log_id ++ "__" ++ more) = Err IndexError)
  /\ exists msg, fetchLogs_ids' (log_id ++ "_a") = Err (ValueError msg).
Proof.
  intros Hl. unfold fetchLogs_ids. repeat split.
  - by rewrite split_without.
  - change (log_id ++ "_") with (log_id ++ String "_" "").
    by rewrite split_at.
  - intros more.
    change (log_id ++ "__" ++ more) with (log_id ++ String "_" (String "_" more)).
    rewrite split_at by done. simpl.
    destruct (split "_" more) as [|s rest]; simpl; [done|].
    by destruct (String.eqb s "2").
  - change (log_id ++ "_a") with (log_id ++ String "_" "a").
    rewrite split_at by done. simpl. eauto.
Qed.

(** X21: in an identifier of three or more segments whose second segment
    is a decimal number, with the marker [a] or without, the log id is
    decoded exactly when the third segment is "2": with any other third
    segment it is used as it stands, whether or not the second segment has
    the marker; the segments after the third do not count, and the target
    is read from the second segment either way.  (The numbers are those
    [int] reads: at most 4300 digits.) *)
Theorem fetchLogs_ids_version_flag (log_id flag : string) (marked : bool) (n : Z)
    (more : list string) :
  occurs "_" log_id = false ->
  0 <= n < 10 ^ int_max_str_digits ->
  occurs "_" flag = false ->
  Forall (fun s => occurs "_" s = false) more ->
  fetchLogs_ids' (String.concat "_" (log_id :: target_segment marked n :: flag :: more))
  = Ok (if String.eqb flag "2" then decode_log_id log_id else log_id,
        Some (if marked then decode_account_id n else n)).
Proof.
  intros Hl Hn Hflag Hmore.
  exact (fetchLogs_ids_segments decode_log_id decode_account_id log_id marked n
           (flag :: more) Hl Hn ltac:(by constructor)).
Qed.

(** X22: the action list is there for all records or not at all: the first
    record that does not decode ends the fetch with its error; a wrapper
    whose name has fewer than three dot-separated components is such a
    record and gives [IndexError]. *)
Theorem fetchLogs_action_list_first_failure (payload : GameDetailRecords)
    (pre post : list bytes) (value : bytes) (raw : Wrapper) :
  records_version payload < 210715 ->
  records payload = (pre ++ value :: post)%list ->
  Forall (fun v => exists item, decodes Wrapper_parse lq_parse v item) pre ->
  Wrapper_parse value = Ok raw ->
  (length (split "." (wrapper_name raw)) < 3)%nat ->
  fetchLogs_action_list lq_message Wrapper_parse lq_parse payload = Err IndexError.
Proof.
  intros Hv Hr Hpre Hraw Hname. unfold fetchLogs_action_list.
  assert ((records_version payload <? 210715) = true) as -> by lia.
  rewrite Hr, length_app. simpl.
  assert ((0 <? length pre + S (length post))%nat = true) as ->
    by (apply Nat.ltb_lt; lia).
  simpl. apply rmap_Err.
  - eapply Forall_impl; [exact Hpre|]. intros v [item Hitem].
    exists item. by apply unwrap_decodes.
  - unfold unwrap. rewrite Hraw. simpl. unfold index.
    rewrite (proj2 (lookup_ge_None _ _)) by lia. done.
Qed.

End FurtherFetchLogsProperties.

Lemma fetchLogs_ids_edges_witness :
  fetchLogs_ids sample_decode_log_id sample_decode_account_id "240101-abc"
  = Ok ("240101-abc", None)
  /\ fetchLogs_ids sample_decode_log_id sample_decode_account_id "240101-abc_"
     = Err IndexError.
Proof.
  destruct (fetchLogs_ids_edges sample_decode_log_id sample_decode_account_id
              "240101-abc" eq_refl) as (H1 & H2 & _).
  split; [exact H1|exact H2].
Defined.

Lemma fetchLogs_ids_version_flag_witness :
  fetchLogs_ids sample_decode_log_id sample_decode_account_id "240101-abc_a42_1"
  = Ok ("240101-abc", Some 1000042)
  /\ fetchLogs_ids sample_decode_log_id sample_decode_account_id "240101-abc_42_2_x"
     = Ok ("decoded-240101-abc", Some 42).
Proof.
  assert (0 <= 42 < 10 ^ int_max_str_digits) as Hn by (split; [lia|by vm_compute]).
  split.
  - exact (fetchLogs_ids_version_flag sample_decode_log_id sample_decode_account_id
             "240101-abc" "1" true 42 [] eq_refl Hn eq_refl ltac:(done)).
  - exact (fetchLogs_ids_version_flag sample_decode_log_id sample_decode_account_id
             "240101-abc" "2" false 42 ["x"] eq_refl Hn eq_refl
             ltac:(by repeat constructor)).
Defined.

Lemma fetchLogs_action_list_first_failure_witness :
  fetchLogs_action_list bytes named_Wrapper_parse sample_lq_parse
    old_format_with_bad_record
  = Err IndexError.
Proof.
  apply (fetchLogs_action_list_first_failure bytes named_Wrapper_parse sample_lq_parse
           old_format_with_bad_record
           [list_byte_of_string ".lq.RecordNewRound"]
           [list_byte_of_string ".lq.RecordDiscardTile"]
           (list_byte_of_string "RecordDealTile")
           {| wrapper_name := "RecordDealTile"; wrapper_data := [] |}).
  - reflexivity.
  - reflexivity.
  - repeat constructor.
    exists {| item_name := "RecordNewRound"; item_data := [] |}.
    exists {| wrapper_name := ".lq.RecordNewRound"; wrapper_data := [] |}.
    repeat split.
  - reflexivity.
  - simpl. lia.
Defined.

(** ** [MajsoulManager], further *)

Lemma sessions_append c m : sessions (append c m) = (sessions m ++ [c])%list.
Proof. unfold sessions at 1, append. simpl. by rewrite lookup_insert_eq. Qed.

Lemma start_with_sessions cookies create fetch m first rest :
  sessions m = first :: rest ->
  start cookies create fetch m = (m, Ok (inl first)).
Proof. intros H. unfold start. by rewrite H. Qed.

Section FurtherManagerProperties.

Variable get_all_cookie : list string.
Variable createMajsoulConnection : string -> result MajsoulConnection.
Variable fetchInfo : MajsoulConnection -> result MajsoulConnection.

Local Abbreviation start' := (start get_all_cookie createMajsoulConnection fetchInfo).
Local Abbreviation restart' :=
  (restart get_all_cookie createMajsoulConnection fetchInfo).
Local Abbreviation start_loop' := (start_loop createMajsoulConnection fetchInfo).
Local Abbreviation establish' := (establish createMajsoulConnection fetchInfo).

(** X23: [start] is idempotent: once it has returned a session, starting
    again returns the same session and leaves the manager as it is; no
    token is read and no connection made. *)
Theorem start_is_idempotent (m m' : MajsoulManager) (c : MajsoulConnection) :
  start' m = (m', Ok (inl c)) -> start' m' = (m', Ok (inl c)).
Proof.
  unfold start at 1. destruct (length (sessions m) =? 0)%nat eqn:E.
  - destruct get_all_cookie as [|tok toks]; [done|].
    destruct (start_loop' (tok :: toks) m) as [m1 r]. intros [= <- H].
    destruct r as [[]|e]; [|done]. simpl in H. unfold index in H.
    destruct (sessions m1) as [|first rest] eqn:Hs; [done|].
    simpl in H. simplify_eq. by apply (start_with_sessions _ _ _ _ _ rest).
  - intros [= <- H]. unfold index in H.
    destruct (sessions m) as [|first rest] eqn:Hs; [done|].
    simpl in H. simplify_eq. by apply (start_with_sessions _ _ _ _ _ rest).
Qed.

Lemma start_loop_all cookies : forall m cs,
  rmap establish' cookies = Ok cs ->
  sessions (start_loop' cookies m).1 = (sessions m ++ cs)%list
  /\ (start_loop' cookies m).2 = Ok tt
  /\ conn (start_loop' cookies m).1 = conn m.
Proof.
  unfold establish. induction cookies as [|tok toks IH]; intros m cs H; simpl in *.
  - simplify_eq. by rewrite app_nil_r.
  - destruct (createMajsoulConnection tok) as [c|]; simpl in H; [|done].
    destruct (fetchInfo c) as [c'|]; [|done].
    destruct (rmap _ toks) as [cs'|] eqn:Hcs; [|done]. simplify_eq.
    destruct (IH (append c' m) cs' eq_refl) as (-> & -> & ->).
    by rewrite sessions_append, <- app_assoc.
Qed.

Lemma start_all (m : MajsoulManager) (cs : list MajsoulConnection) :
  sessions m = [] ->
  get_all_cookie <> [] ->
  rmap establish' get_all_cookie = Ok cs ->
  exists c, head cs = Some c
    /\ (start' m).2 = Ok (inl c)
    /\ sessions (start' m).1 = cs
    /\ length cs = length get_all_cookie.
Proof.
  intros Hs Hne Hall. unfold start. rewrite Hs. simpl.
  assert (length cs = length get_all_cookie) as Hlen.
  { apply rmap_Ok in Hall. by apply Forall2_length in Hall. }
  destruct (start_loop_all get_all_cookie m cs Hall) as (Hss & Hr & _).
  destruct get_all_cookie as [|tok toks]; [done|].
  destruct (start_loop' (tok :: toks) m) as [m1 r]. simpl in *. subst r.
  rewrite Hss, Hs. simpl.
  destruct cs as [|c cs']; [done|]. exists c. done.
Qed.

(** X24: on a manager without session, [start] with stored tokens that all
    connect holds one session per token afterwards, in the order of the
    tokens, and returns the first; without any stored token it returns the
    message and the manager is as before. *)
Theorem start_establishes_all (m : MajsoulManager) (cs : list MajsoulConnection) :
  sessions m = [] ->
  (get_all_cookie = [] -> start' m = (m, Ok (inr no_token)))
  /\ (get_all_cookie <> [] ->
      rmap establish' get_all_cookie = Ok cs ->
      exists c, head cs = Some c
        /\ (start' m).2 = Ok (inl c)
        /\ sessions (start' m).1 = cs
        /\ length cs = length get_all_cookie).
Proof.
  intros Hs. split.
  - intros E. unfold start. by rewrite Hs, E.
  - intros Hne Hall. by apply start_all.
Qed.

(** X25: a token that fails after another one connected leaves the
    session of the first in the manager and ends [start] with the error;
    the next [start] returns that session and does not try the failed
    token again.  The same holds for a session whose roster fetch failed:
    it is kept, without its roster, and returned by the next [start]. *)
Theorem start_after_failure (m : MajsoulManager) (t1 t2 : string)
    (rest : list string) (c1 : MajsoulConnection) (e : exn) :
  sessions m = [] ->
  get_all_cookie = t1 :: t2 :: rest ->
  createMajsoulConnection t1 = Ok c1 ->
  (forall c1', fetchInfo c1 = Ok c1' -> createMajsoulConnection t2 = Err e ->
     start' m = (append c1' m, Err e)
     /\ start' (append c1' m) = (append c1' m, Ok (inl c1')))
  /\ (fetchInfo c1 = Err e ->
      start' m = (append c1 m, Err e)
      /\ start' (append c1 m) = (append c1 m, Ok (inl c1))).
Proof.
  intros Hs Hc H1. split.
  - intros c1' Hf H2. split.
    + unfold start. rewrite Hs, Hc. simpl. by rewrite H1, Hf, H2.
    + apply (start_with_sessions _ _ _ _ _ []). by rewrite sessions_append, Hs.
  - intros Hf. split.
    + unfold start. rewrite Hs, Hc. simpl. by rewrite H1, Hf.
    + apply (start_with_sessions _ _ _ _ _ []). by rewrite sessions_append, Hs.
Qed.

Lemma teardown_empty m : sessions m = [] -> teardown m = (m, Ok tt).
Proof. intros H. unfold teardown. by rewrite H. Qed.

Lemma sessions_discard m : sessions (discard m) = [].
Proof. unfold sessions, discard, new_list. simpl. by rewrite lookup_insert_eq. Qed.

(** X26: [restart] on sessions that all have a transport closes every one
    of these transports and builds the session list anew: with stored
    tokens that all connect, the manager afterwards holds the sessions just
    established, one per token, and none of the old ones; what was closed
    or cancelled before stays so. *)
Theorem restart_rebuilds (m : MajsoulManager) (cs : list MajsoulConnection) :
  Forall (fun c => is_Some (_ws c)) (sessions m) ->
  get_all_cookie <> [] ->
  rmap establish' get_all_cookie = Ok cs ->
  exists c, head cs = Some c
    /\ (restart' m).2 = Ok (inl c)
    /\ sessions (restart' m).1 = cs
    /\ closed (restart' m).1 = list_to_set (transports (sessions m)) ∪ closed m
    /\ cancelled m ⊆ cancelled (restart' m).1.
Proof.
  intros Hws Hne Hall.
  assert (exists m0, teardown m = (m0, Ok tt)
            /\ closed m0 = list_to_set (transports (sessions m)) ∪ closed m
            /\ cancelled m ⊆ cancelled m0) as (m0 & Ht & Hcl & Hca).
  { destruct (sessions m) as [|first rest] eqn:Hs.
    - exists m. rewrite teardown_empty by done. repeat split; [|done].
      unfold transports. simpl. set_solver.
    - rewrite <- Hs in Hws.
      destruct (teardown_spec fetchInfo m first rest Hs Hws) as (m0 & -> & _ & _ & Hca & Hcl).
      exists m0. rewrite <- Hs. repeat split; [done|]. rewrite Hca. set_solver. }
  destruct (restart_starts_over get_all_cookie createMajsoulConnection fetchInfo
              m m0 Ht) as [-> _].
  destruct (start_all (discard m0) cs (sessions_discard m0) Hne Hall)
    as (c & Hc & Hr & Hss & _).
  exists c.
  destruct (start_handles get_all_cookie createMajsoulConnection fetchInfo
              (discard m0)) as [Hca' Hcl'].
  repeat split; try done.
  - by rewrite Hcl'.
  - by rewrite Hca'.
Qed.

End FurtherManagerProperties.

Lemma start_is_idempotent_witness :
  let m' := (start ["good"; "late"] sample_create sample_fetchInfo (manager_of [])).1 in
  start ["good"; "late"] sample_create sample_fetchInfo m'
  = (m', Ok (inl (with_friends [alice_idle] (connected 20 [200%nat])))).
Proof.
  intros m'. subst m'.
  apply (start_is_idempotent ["good"; "late"] sample_create sample_fetchInfo
           (manager_of [])).
  reflexivity.
Defined.

Lemma start_establishes_all_witness :
  sessions (start ["good"; "late"] sample_create sample_fetchInfo (manager_of [])).1
  = [with_friends [alice_idle] (connected 20 [200%nat]);
     with_friends [alice_idle] (connected 21 [201%nat])].
Proof.
  destruct (start_establishes_all ["good"; "late"] sample_create sample_fetchInfo
              (manager_of [])
              [with_friends [alice_idle] (connected 20 [200%nat]);
               with_friends [alice_idle] (connected 21 [201%nat])] eq_refl)
    as [_ H].
  destruct (H ltac:(discriminate) eq_refl) as (c & _ & _ & Hs & _). exact Hs.
Defined.

Lemma start_after_failure_witness :
  start ["good"; "stale"; "late"] sample_create sample_fetchInfo (manager_of [])
  = (append (with_friends [alice_idle] (connected 20 [200%nat])) (manager_of []),
     Err (ValueError "Failed to check account"))
  /\ start ["good"; "stale"; "late"] sample_create sample_fetchInfo
       (append (with_friends [alice_idle] (connected 20 [200%nat])) (manager_of []))
     = (append (with_friends [alice_idle] (connected 20 [200%nat])) (manager_of []),
        Ok (inl (with_friends [alice_idle] (connected 20 [200%nat])))).
Proof.
  destruct (start_after_failure ["good"; "stale"; "late"] sample_create
              sample_fetchInfo (manager_of []) "good" "stale" ["late"]
              (connected 20 [200%nat]) (ValueError "Failed to check account")
              eq_refl eq_refl eq_refl) as [H _].
  exact (H _ eq_refl eq_refl).
Defined.

Lemma restart_rebuilds_witness :
  sessions (restart ["good"] sample_create sample_fetchInfo two_sessions).1
  = [with_friends [alice_idle] (connected 20 [200%nat])]
  /\ closed (restart ["good"] sample_create sample_fetchInfo two_sessions).1
     = {[10%nat; 11%nat]}.
Proof.
  destruct (restart_rebuilds ["good"] sample_create sample_fetchInfo two_sessions
              [with_friends [alice_idle] (connected 20 [200%nat])])
    as (c & _ & _ & Hs & Hc & _).
  - repeat constructor; by eexists.
  - discriminate.
  - reflexivity.
  - split; [exact Hs|]. rewrite Hc. vm_compute. reflexivity.
Defined.

(** ** Delivery *)

Section DeliveryProperties.

Variable MajsFriendPushType : string.
Variable MajsFriendPushID : string.
Variable MajsIsPushActiveToMaster : bool.
Variable active_bot : list string.
Variable select_data_by_uid : string -> option MajsPush.

Local Abbreviation send_msg_to_user' :=
  (send_msg_to_user MajsFriendPushType MajsFriendPushID MajsIsPushActiveToMaster
     active_bot select_data_by_uid).

(** X27: what [send_msg_to_user] can deliver.  Every delivery carries the
    message unchanged and goes through an active bot.  It is either the
    copy for the master, made only when that switch is on and a push target
    is configured, or it is for the user: then push data is stored for the
    user, its push target is not "off", the delivery names the stored bot
    whichever bot sends it, and it goes directly to the stored user when
    the push target is "on" and to the group named by the push target
    otherwise. *)
Theorem send_msg_to_user_spec (target_user msg : string) (d : target_send) :
  d ∈ send_msg_to_user' target_user msg ->
  message d = msg /\ via d ∈ active_bot
  /\ ((MajsIsPushActiveToMaster = true /\ MajsFriendPushID <> ""
       /\ target_type d = MajsFriendPushType /\ target_id d = MajsFriendPushID
       /\ at_bot_id d = via d)
      \/ (exists push_data,
            select_data_by_uid target_user = Some push_data
            /\ push_id push_data <> "off"
            /\ at_bot_id d = bot_id push_data
            /\ (push_id push_data = "on" ->
                target_type d = "direct" /\ target_id d = user_id push_data)
            /\ (push_id push_data <> "on" ->
                target_type d = "group" /\ target_id d = push_id push_data))).
Proof.
  unfold send_msg_to_user. rewrite elem_of_app. intros [H|H].
  - destruct MajsIsPushActiveToMaster; [|by apply elem_of_nil in H].
    unfold send_meta, str_bool in H.
    destruct (String.eqb_spec MajsFriendPushID ""); simpl in H;
      [by apply elem_of_nil in H|].
    apply list_elem_of_fmap in H as (b & -> & Hb). simpl. auto 10.
  - destruct (select_data_by_uid target_user) as [p|]; [|by apply elem_of_nil in H].
    destruct (String.eqb_spec (push_id p) "off") as [|Hoff]; simpl in H;
      [by apply elem_of_nil in H|].
    destruct (String.eqb_spec (push_id p) "on") as [Hon|Hon];
      apply list_elem_of_fmap in H as (b & -> & Hb); simpl;
      (split; [done|]; split; [done|]; right; exists p; repeat split; try done).
Qed.

End DeliveryProperties.

Section NotificationDelivery.

Variable ModeId2Room : gmap Z string.
Variable encode_account_id : Z -> Z.
Variable getTag : Z -> Z -> string.
Variable formatAdjustedScoreWithTag : Z -> Z -> Z -> string.
Variable MajsIsAutoApplyFriend : bool.
Variable MajsFriendPushType : string.
Variable MajsFriendPushID : string.
Variable MajsIsPushActiveToMaster : bool.
Variable active_bot : list string.
Variable select_data_by_uid : string -> option MajsPush.

Local Abbreviation serve' :=
  (serve ModeId2Room encode_account_id getTag formatAdjustedScoreWithTag
     MajsIsAutoApplyFriend).
Local Abbreviation deliveries' :=
  (deliveries MajsFriendPushType MajsFriendPushID MajsIsPushActiveToMaster
     active_bot select_data_by_uid).
Local Abbreviation send_msg_to_user' :=
  (send_msg_to_user MajsFriendPushType MajsFriendPushID MajsIsPushActiveToMaster
     active_bot select_data_by_uid).
Local Abbreviation handle_state :=
  (handle_FriendStateChange ModeId2Room encode_account_id).
Local Abbreviation handle_view :=
  (handle_FriendViewChange getTag formatAdjustedScoreWithTag).

Lemma deliveries_one_send (target msg : string) w replies :
  let log :=
    (serve' (if str_bool msg then await (SendMsgToUser target msg) else Return tt)
       w replies).1.1.1 in
  deliveries' log = [] \/ deliveries' log = send_msg_to_user' target msg.
Proof.
  destruct (str_bool msg); simpl; [right|by left]. apply app_nil_r.
Qed.

(** X28: a state change or a profile change of a friend is delivered at
    most once, and only by [send_msg_to_user] for the decimal account id of
    the notification: with the master switch off, and push data of that
    account missing or "off", nothing is delivered whatever changed. *)
Theorem friend_notification_delivery (notify : MajsoulDecodedMessage) (target : Z)
    (w : world) (replies : list liblq.payload) (log : list wait) :
  (exists active_state,
     payload notify = liblq.NotifyFriendStateChange target active_state
     /\ log = (serve' (handle_state notify) w replies).1.1.1)
  \/ (exists changed_base,
        payload notify = liblq.NotifyFriendViewChange target changed_base
        /\ log = (serve' (handle_view notify) w replies).1.1.1) ->
  (deliveries' log = []
   \/ exists msg, deliveries' log = send_msg_to_user' (pretty target) msg)
  /\ (MajsIsPushActiveToMaster = false ->
      (forall push_data, select_data_by_uid (pretty target) = Some push_data ->
                         push_id push_data = "off") ->
      deliveries' log = []).
Proof.
  intros H.
  assert (deliveries' log = []
          \/ exists msg, deliveries' log = send_msg_to_user' (pretty target) msg)
    as Hone.
  { destruct H as [(active_state & Hp & ->)|(changed_base & Hp & ->)].
    - unfold handle_FriendStateChange. rewrite Hp. simpl.
      destruct (FriendStateChange_loop ModeId2Room encode_account_id target
                  active_state (friends (self w)) (game_record_json w) "")
        as [[fs f] [msg|e]]; simpl; [|by left].
      destruct (deliveries_one_send (pretty target) msg
                  (with_file f (on_self (with_friends fs) w)) replies); eauto.
    - unfold handle_FriendViewChange. rewrite Hp. simpl.
      destruct (FriendViewChange_loop getTag formatAdjustedScoreWithTag target
                  changed_base (friends (self w)) "") as [fs msg]. simpl.
      destruct (deliveries_one_send (pretty target) msg
                  (on_self (with_friends fs) w) replies); eauto. }
  split; [done|]. intros Hm Hoff. destruct Hone as [?|[msg ->]]; [done|].
  unfold send_msg_to_user. rewrite Hm. simpl.
  destruct (select_data_by_uid (pretty target)) as [p|] eqn:E; [|done].
  by rewrite (Hoff p eq_refl).
Qed.

End NotificationDelivery.

Lemma send_msg_to_user_spec_witness :
  let d := {| via := "qq"; message := "bob 上线了"; target_type := "group";
              target_id := "g42"; at_bot_id := "onebot" |} in
  d ∈ send_msg_to_user "group" "master" true ["onebot"; "qq"]
        sample_select_data_by_uid "9" "bob 上线了"
  /\ (target_id d = "master"
      \/ exists push_data,
           sample_select_data_by_uid "9" = Some push_data
           /\ at_bot_id d = bot_id push_data).
Proof.
  intros d.
  assert (d ∈ send_msg_to_user "group" "master" true ["onebot"; "qq"]
                sample_select_data_by_uid "9" "bob 上线了") as Hd.
  { rewrite list_elem_of_In. simpl. auto 10. }
  split; [exact Hd|].
  destruct (send_msg_to_user_spec "group" "master" true ["onebot"; "qq"]
              sample_select_data_by_uid "9" "bob 上线了" d Hd)
    as (_ & _ & [H|H]).
  - left. apply H.
  - right. destruct H as (p & Hp & _ & Hb & _). eauto.
Defined.

Lemma friend_notification_delivery_witness :
  deliveries "group" "master" false ["onebot"; "qq"] sample_select_data_by_uid
    (serve sample_ModeId2Room sample_encode_account_id sample_getTag
       sample_formatAdjustedScoreWithTag false
       (handle_FriendStateChange sample_ModeId2Room sample_encode_account_id
          bob_came_online)
       (world_with [bob_offline] Missing) []).1.1.1
  = [].
Proof.
  refine (proj2 (friend_notification_delivery sample_ModeId2Room
                   sample_encode_account_id sample_getTag
                   sample_formatAdjustedScoreWithTag false "group" "master" false
                   ["onebot"; "qq"] sample_select_data_by_uid bob_came_online 8
                   (world_with [bob_offline] Missing) [] _ _) eq_refl _).
  - left. exists online_idle. split; reflexivity.
  - intros push_data [= <-]. reflexivity.
Defined.
